(** * SpiralLogic: the emoji compiler and the basic line interpreter

    A shallow embedding of [SpiralLogicEmojiCompiler]
    (spirallogic_emoji_bridge.py) and [BasicSpiralLogicInterpreter]
    (spirallogic_cli.py).

    Python [str] values are sequences of Unicode code points, so text is
    modelled as [list Z]; every [str] method the two classes call is
    written out in [PyStr] with Python's behaviour (negative slice
    indices, [find] returning -1, [replace] with an empty pattern, ...).
    Python dicts keep insertion order and the interpreter iterates over
    one, so dicts are association lists updated in place ([PyDict]). *)

From Stdlib Require Import String Ascii ZArith List Bool Lia.
Import ListNotations.

Local Open Scope Z_scope.

(* ================================================================= *)
(** ** Python strings *)

Module PyStr.

Definition ustring := list Z.

(** An ASCII literal as code points. *)
Definition u (s : string) : ustring :=
map (fun a => Z.of_N (N_of_ascii a)) (list_ascii_of_string s).

(** The double quote and the apostrophe, U+0022 and U+0027. *)
Definition dq : ustring := [34].
Definition sq : ustring := [39].
Definition nl : Z := 10.

(** [a == b] on [str]. *)
Fixpoint eqb (a b : ustring) : bool :=
match a, b with
| [], [] => true
| x :: a', y :: b' => (x =? y) && eqb a' b'
| _, _ => false
end.

Definition len (s : ustring) : Z := Z.of_nat (length s).

(** [s.startswith(p)] *)
Fixpoint startswith (p s : ustring) : bool :=
match p, s with
| [], _ => true
| x :: p', y :: s' => (x =? y) && startswith p' s'
| _ :: _, [] => false
end.

(** [s.endswith(p)] *)
Definition endswith (p s : ustring) : bool :=
startswith (rev p) (rev s).

(** [sub in s] *)
Fixpoint contains (sub s : ustring) : bool :=
startswith sub s ||
match s with
| [] => false
| _ :: t => contains sub t
end.

(** [s.find(sub)]: the lowest index at which [sub] occurs, or -1.
  [find_aux] scans a suffix of the text that starts at index [i]. *)
Fixpoint find_aux (sub s : ustring) (i : Z) : Z :=
if startswith sub s then i
else match s with
     | [] => -1
     | _ :: t => find_aux sub t (i + 1)
     end.

Definition find (sub s : ustring) : Z := find_aux sub s 0.

(** An index as a slice bound: negative counts from the end, and the
  result is clamped to [0, len]. *)
Definition clamp (n i : Z) : Z :=
if i <? 0 then Z.max (i + n) 0 else Z.min i n.

(** [s[a:b]] *)
Definition slice (s : ustring) (a b : Z) : ustring :=
let n := len s in
let a' := clamp n a in
let b' := clamp n b in
firstn (Z.to_nat (b' - a')) (skipn (Z.to_nat a') s).

(** [s[a:]] *)
Definition slice_from (s : ustring) (a : Z) : ustring :=
skipn (Z.to_nat (clamp (len s) a)) s.

(** [s.find(sub, start)] *)
Definition find_from (sub s : ustring) (start : Z) : Z :=
let st := if start <? 0 then Z.max (start + len s) 0 else start in
if len s <? st then -1
else find_aux sub (skipn (Z.to_nat st) s) st.

(** [s.rfind(sub)]: the highest index at which [sub] occurs, or -1;
  [last] is the best index seen so far. *)
Fixpoint rfind_aux (sub s : ustring) (i last : Z) : Z :=
let last' := if startswith sub s then i else last in
match s with
| [] => last'
| _ :: t => rfind_aux sub t (i + 1) last'
end.

Definition rfind (sub s : ustring) : Z := rfind_aux sub s 0 (-1).

(** The code points [str.strip()] removes: those for which
  [str.isspace] holds. *)
Definition isspace (c : Z) : bool :=
((9 <=? c) && (c <=? 13)) || ((28 <=? c) && (c <=? 32)) ||
(c =? 0x85) || (c =? 0xA0) || (c =? 0x1680) ||
((0x2000 <=? c) && (c <=? 0x200A)) ||
(c =? 0x2028) || (c =? 0x2029) || (c =? 0x202F) ||
(c =? 0x205F) || (c =? 0x3000).

Fixpoint dropwhile (p : Z -> bool) (s : ustring) : ustring :=
match s with
| [] => []
| c :: t => if p c then dropwhile p t else s
end.

Definition lstrip_by (p : Z -> bool) (s : ustring) : ustring :=
dropwhile p s.
Definition rstrip_by (p : Z -> bool) (s : ustring) : ustring :=
rev (dropwhile p (rev s)).

(** [s.strip()] *)
Definition strip (s : ustring) : ustring :=
rstrip_by isspace (lstrip_by isspace s).

(** [s.strip(chars)] *)
Definition strip_chars (chars s : ustring) : ustring :=
let p c := existsb (Z.eqb c) chars in
rstrip_by p (lstrip_by p s).

(** [s.split(sep)] for a separator of one code point, the only kind the
  program uses ('\n' and '='); [cur] is the current field, reversed. *)
Fixpoint split_aux (sep : Z) (s cur : ustring) : list ustring :=
match s with
| [] => [rev cur]
| c :: t =>
    if c =? sep then rev cur :: split_aux sep t []
    else split_aux sep t (c :: cur)
end.

Definition split (sep : Z) (s : ustring) : list ustring :=
split_aux sep s [].

(** [s.split(sep, 1)]: at most one split, at the first separator. *)
Fixpoint split1_aux (sep : Z) (s cur : ustring) : list ustring :=
match s with
| [] => [rev cur]
| c :: t =>
    if c =? sep then [rev cur; t]
    else split1_aux sep t (c :: cur)
end.

Definition split1 (sep : Z) (s : ustring) : list ustring :=
split1_aux sep s [].

(** [s.replace(old, new)]: every non-overlapping occurrence, leftmost
  first. [skip] counts the code points of a matched occurrence that
  are still to be dropped. An empty [old] matches before every code
  point and at the end. *)
Fixpoint replace_aux (old new s : ustring) (skip : nat) : ustring :=
match s with
| [] => []
| c :: t =>
    match skip with
    | S k => replace_aux old new t k
    | O =>
        if startswith old s
        then new ++ replace_aux old new t (Nat.pred (length old))
        else c :: replace_aux old new t O
    end
end.

Definition replace (old new s : ustring) : ustring :=
match old with
| [] => new ++ flat_map (fun c => c :: new) s
| _ :: _ => replace_aux old new s O
end.

(** [sep.join(parts)] *)
Fixpoint join (sep : ustring) (parts : list ustring) : ustring :=
match parts with
| [] => []
| [p] => p
| p :: rest => p ++ sep ++ join sep rest
end.

(** [str(n)] for a non-negative integer. *)
Fixpoint digits_of_uint (d : Decimal.uint) : ustring :=
match d with
| Decimal.Nil => []
| Decimal.D0 d' => 48 :: digits_of_uint d'
| Decimal.D1 d' => 49 :: digits_of_uint d'
| Decimal.D2 d' => 50 :: digits_of_uint d'
| Decimal.D3 d' => 51 :: digits_of_uint d'
| Decimal.D4 d' => 52 :: digits_of_uint d'
| Decimal.D5 d' => 53 :: digits_of_uint d'
| Decimal.D6 d' => 54 :: digits_of_uint d'
| Decimal.D7 d' => 55 :: digits_of_uint d'
| Decimal.D8 d' => 56 :: digits_of_uint d'
| Decimal.D9 d' => 57 :: digits_of_uint d'
end.

Definition str_of_nat (n : nat) : ustring :=
digits_of_uint (Nat.to_uint n).

End PyStr.

Import PyStr.

(* ================================================================= *)
(** ** Python dicts *)

(** A [dict] with [str] keys: the bindings in insertion order; assigning
    to a key that is present keeps its position. *)
Module PyDict.

Section Dict.
Context {V : Type}.

Definition dict := list (ustring * V).

(** [d.get(k)] *)
Fixpoint get (d : dict) (k : ustring) : option V :=
  match d with
  | [] => None
  | (k', v) :: r => if eqb k' k then Some v else get r k
  end.

(** [d.get(k, dflt)] *)
Definition get_default (d : dict) (k : ustring) (dflt : V) : V :=
  match get d k with
  | Some v => v
  | None => dflt
  end.

(** [k in d] *)
Definition mem (d : dict) (k : ustring) : bool :=
  match get d k with
  | Some _ => true
  | None => false
  end.

(** [d[k] = v] *)
Fixpoint set (d : dict) (k : ustring) (v : V) : dict :=
  match d with
  | [] => [(k, v)]
  | (k', v') :: r =>
      if eqb k' k then (k', v) :: r else (k', v') :: set r k v
  end.
End Dict.

Arguments dict V : clear implicits.

End PyDict.

Import PyDict.

(* ================================================================= *)
(** ** The glyphs of spirallogic_emoji_bridge.py, as code points *)

Module Glyph.
(* anchors *)
Definition HEART : ustring := [0x2764; 0xFE0F].
Definition FIRE : ustring := [0x1F525].
Definition DROPLET : ustring := [0x1F4A7].
Definition SUN : ustring := [0x1F31E].
Definition SPIDER : ustring := [0x1F577; 0xFE0F].
Definition ICE : ustring := [0x1F9CA].
Definition WAND : ustring := [0x1FA84].
Definition QUESTION : ustring := [0x2753].
Definition SEE_NO_EVIL : ustring := [0x1F648].
Definition ROCK : ustring := [0x1FAA8].
(* tempo *)
Definition ZAP : ustring := [0x26A1].
Definition SIREN : ustring := [0x1F6A8].
Definition HORSE : ustring := [0x1F40E].
Definition WAVE : ustring := [0x1F30A].
Definition TURTLE : ustring := [0x1F422].
Definition LOTUS : ustring := [0x1F9D8].
(* intent *)
Definition ANGER_BUBBLE : ustring := [0x1F5EF; 0xFE0F].
Definition SOS : ustring := [0x1F198].
Definition SPARKLES : ustring := [0x2728].
Definition STOP : ustring := [0x1F6D1].
Definition UNLOCKED : ustring := [0x1F513].
(* ritual structure, voices, consent, pause *)
Definition CYCLONE : ustring := [0x1F300].
Definition MASKS : ustring := [0x1F3AD].
Definition EYE : ustring := [0x1F441; 0xFE0F].
Definition DOVE : ustring := [0x1F54A; 0xFE0F].
Definition CASTLE : ustring := [0x1F3F0].
Definition BRAIN : ustring := [0x1F9E0].
Definition BROKEN_HEART : ustring := [0x1F494].
Definition SMILE : ustring := [0x1F60A].
Definition ANXIOUS : ustring := [0x1F630].
Definition POUTING : ustring := [0x1F621].
Definition PURPLE_HEART : ustring := [0x1F49C].
Definition CLIPBOARD : ustring := [0x1F4CB].
Definition CHECK_MARK : ustring := [0x2705].
Definition CROSS_MARK : ustring := [0x274C].
Definition MAGNIFIER : ustring := [0x1F50D].
Definition PAUSE : ustring := [0x23F8; 0xFE0F].
Definition THOUGHT : ustring := [0x1F4AD].
Definition ARROW : ustring := [0x27A1; 0xFE0F].
Definition CRYING : ustring := [0x1F622].
Definition EXPLODING : ustring := [0x1F92F].
Definition SHIELD : ustring := [0x1F6E1; 0xFE0F].
(* bandwidth, memory, crisis *)
Definition CHART : ustring := [0x1F4CA].
Definition BATTERY : ustring := [0x1F50B].
Definition CRYSTAL_BALL : ustring := [0x1F52E].
Definition FLOPPY : ustring := [0x1F4BE].
Definition WASTEBASKET : ustring := [0x1F5D1; 0xFE0F].
Definition LOCKED : ustring := [0x1F512].
Definition TELEPHONE : ustring := [0x1F4DE].
End Glyph.

Import Glyph.

(* ================================================================= *)
(** ** spirallogic_emoji_bridge.py *)

(** [unicodedata.normalize('NFC', _)] is a function of Python's standard
    library; the compiler and the interpreter take it as the parameter
    [NFC]. Canonical composition leaves unchanged every text whose code
    points have no canonical decomposition, have combining class 0 and
    do not compose with their predecessor; all of ASCII, the glyphs
    above and U+FE0F are such, and [nfc_inert] is the normaliser on
    text of that kind. It is what the code is evaluated with on the
    concrete inputs below. *)
Definition nfc_inert (s : ustring) : ustring := s.

Record EmojiSpine := {
  anchor : ustring;
  body : ustring;
  tempo : ustring;
  intent : ustring
}.

(** [EmojiSpine.to_spirallogic] *)
Definition emotion_map : dict ustring :=
  [ (HEART, u "love"); (FIRE, u "anger"); (DROPLET, u "grief");
    (SUN, u "joy"); (SPIDER, u "fear"); (ICE, u "dissociation");
    (WAND, u "hope"); (QUESTION, u "confusion");
    (SEE_NO_EVIL, u "shame"); (ROCK, u "resolve") ].

Definition tempo_map : dict ustring :=
  [ (ZAP, u "urgent"); (SIREN, u "crisis"); (HORSE, u "normal");
    (WAVE, u "flowing"); (TURTLE, u "slow"); (LOTUS, u "sacred") ].

Definition intent_map : dict ustring :=
  [ (ANGER_BUBBLE, u "speak_truth"); (SOS, u "need_help");
    (SPARKLES, u "connect"); (STOP, u "set_boundary");
    (UNLOCKED, u "reclaim_power") ].

Definition to_spirallogic (self : EmojiSpine) : ustring :=
  let emotion := get_default emotion_map (anchor self) (u "unknown") in
  let speed := get_default tempo_map (tempo self) (u "normal") in
  let action := get_default intent_map (intent self) (u "process") in
  u "user.emotional_state = " ++ dq ++ emotion ++ dq ++
  u "; user.tempo = " ++ dq ++ speed ++ dq ++
  u "; user.intent = " ++ dq ++ action ++ dq.

Record SpiralLogicEmojiCompiler := {
  emoji_to_spirallogic : dict ustring;
  spine_anchors : dict ustring;
  spine_tempo : dict ustring;
  spine_intent : dict ustring
}.

(** [SpiralLogicEmojiCompiler.__init__] *)
Definition new_compiler : SpiralLogicEmojiCompiler := {|
  emoji_to_spirallogic :=
    [ (CYCLONE, u "ritual"); (MASKS, u "execute");
      (SPARKLES, u "complete"); (EYE, u "look_in");
      (WAVE, u "spiral_up"); (DOVE, u "flow_out");
      (CASTLE ++ BRAIN ++ BROKEN_HEART, u "@healer");
      (CASTLE ++ BRAIN ++ SMILE, u "@sage");
      (CASTLE ++ BRAIN ++ ANXIOUS, u "@protector");
      (CASTLE ++ BRAIN ++ POUTING, u "@mirror");
      (CASTLE ++ BRAIN ++ PURPLE_HEART, u "@healer");
      (CLIPBOARD, u "consent"); (CHECK_MARK, u "grant");
      (CROSS_MARK, u "deny"); (MAGNIFIER, u "check");
      (PAUSE, u "sacred_pause"); (STOP, u "pause.mandatory");
      (THOUGHT, u "pause.offer");
      (CHART, u "bandwidth"); (BATTERY, u "energy");
      (EXPLODING, u "overwhelm"); (LOTUS, u "grounded");
      (CRYSTAL_BALL, u "memory"); (FLOPPY, u "store");
      (WASTEBASKET, u "delete"); (LOCKED, u "private");
      (SIREN, u "crisis"); (SHIELD, u "protection");
      (SOS, u "help"); (TELEPHONE, u "contact") ];
  spine_anchors :=
    [ (HEART, u "love"); (FIRE, u "anger"); (DROPLET, u "grief");
      (SUN, u "joy"); (SPIDER, u "fear"); (ICE, u "dissociation");
      (WAND, u "hope"); (QUESTION, u "confusion");
      (SEE_NO_EVIL, u "shame"); (ROCK, u "resolve") ];
  spine_tempo :=
    [ (ZAP, u "urgent"); (SIREN, u "crisis"); (HORSE, u "normal");
      (WAVE, u "flowing"); (TURTLE, u "slow"); (LOTUS, u "sacred") ];
  spine_intent :=
    [ (ANGER_BUBBLE, u "speak_truth"); (SOS, u "need_help");
      (SPARKLES, u "connect"); (STOP, u "set_boundary");
      (UNLOCKED, u "reclaim_power") ]
|}.

(** The character class of the pattern in [parse_emoji_spine]: six
    ranges, two of them inside U+24C2..U+1F251. *)
Definition in_emoji_class (c : Z) : bool :=
  ((0x1F600 <=? c) && (c <=? 0x1F64F)) ||
  ((0x1F300 <=? c) && (c <=? 0x1F5FF)) ||
  ((0x1F680 <=? c) && (c <=? 0x1F6FF)) ||
  ((0x1F1E0 <=? c) && (c <=? 0x1F1FF)) ||
  ((0x2702 <=? c) && (c <=? 0x27B0)) ||
  ((0x24C2 <=? c) && (c <=? 0x1F251)).

(** [re.findall(r'[...]+', s)]: the maximal runs of code points of the
    class, left to right; [cur] is the run being read, reversed. *)
Fixpoint findall_aux (s cur : ustring) : list ustring :=
  match s with
  | [] => match cur with [] => [] | _ :: _ => [rev cur] end
  | c :: t =>
      if in_emoji_class c then findall_aux t (c :: cur)
      else match cur with
           | [] => findall_aux t []
           | _ :: _ => rev cur :: findall_aux t []
           end
  end.

Definition findall_emoji (s : ustring) : list ustring :=
  findall_aux s [].

(** [next((e for e in emojis if e in table), dflt)] *)
Definition first_in (table : dict ustring) (emojis : list ustring)
    (dflt : ustring) : ustring :=
  match List.find (mem table) emojis with
  | Some e => e
  | None => dflt
  end.

Definition parse_emoji_spine (self : SpiralLogicEmojiCompiler)
    (emoji_sequence : ustring) : option EmojiSpine :=
  let emojis := findall_emoji emoji_sequence in
  if (length emojis <? 3)%nat then None
  else
    let anchor := first_in (spine_anchors self) emojis QUESTION in
    let tempo := first_in (spine_tempo self) emojis HORSE in
    let intent := first_in (spine_intent self) emojis SPARKLES in
    let body := BRAIN in
    Some {| anchor := anchor; body := body; tempo := tempo;
            intent := intent |}.

(** [_contains_emojis] *)
Definition _contains_emojis (text : ustring) (emoji_list : list ustring)
    : bool :=
  existsb (fun emoji => contains emoji text) emoji_list.

Definition _compile_voice_invocation (emoji_line : ustring) : ustring :=
  if contains BROKEN_HEART emoji_line then u "@healer.support_grief()"
  else if contains SMILE emoji_line then u "@sage.share_wisdom()"
  else if contains ANXIOUS emoji_line then u "@protector.provide_safety()"
  else if contains POUTING emoji_line then u "@mirror.transform_anger()"
  else u "@healer.assess(user.emotional_state)".

Definition _compile_conditional (emoji_line : ustring) : ustring :=
  if contains ANXIOUS emoji_line && contains SHIELD emoji_line then
    u "if user.emotional_state == " ++ dq ++ u "anxiety" ++ dq ++
    u " { @protector.activate_safety() }"
  else if contains CRYING emoji_line && contains LOTUS emoji_line then
    u "if user.emotional_state == " ++ dq ++ u "sadness" ++ dq ++
    u " { sacred_pause.engage() }"
  else if contains EXPLODING emoji_line then
    u "if user.bandwidth.current() < 0.3 { sacred_pause.mandatory() }"
  else u "if user.needs_support { @healer.respond() }".

Definition _compile_sacred_pause (emoji_line : ustring) : ustring :=
  if contains STOP emoji_line then
    u "sacred_pause.mandatory { purpose: " ++ dq ++
    u "Emotional overload protection" ++ dq ++ u " }"
  else
    u "sacred_pause.offer { purpose: " ++ dq ++ u "Processing time" ++
    dq ++ u " }".

Definition _compile_consent (emoji_line : ustring) : ustring :=
  if contains CHECK_MARK emoji_line then
    u "consent.grant(" ++ dq ++ u "emotional_support" ++ dq ++ u ")"
  else if contains CROSS_MARK emoji_line then
    u "consent.deny(" ++ dq ++ u "deep_processing" ++ dq ++ u ")"
  else
    u "consent.check(" ++ dq ++ u "emotional_support" ++ dq ++ u ")".

Definition _compile_spiral_phase (emoji_line : ustring) : ustring :=
  if contains EYE emoji_line then
    u "look_in { @healer.assess(user.current_state) }"
  else if contains WAVE emoji_line then
    u "spiral_up { @healer.guide_processing() }"
  else if contains DOVE emoji_line then
    u "flow_out { @healer.support_integration() }"
  else u "// Spiral phase marker".

Section Compiler.
Variable NFC : ustring -> ustring.

Definition compile_emoji_line (self : SpiralLogicEmojiCompiler)
    (emoji_line : ustring) : ustring :=
  let emoji_line := NFC (strip emoji_line) in
  match parse_emoji_spine self emoji_line with
  | Some spine => to_spirallogic spine
  | None =>
      if _contains_emojis emoji_line [CASTLE; BRAIN] then
        _compile_voice_invocation emoji_line
      else if _contains_emojis emoji_line [THOUGHT; ARROW] then
        _compile_conditional emoji_line
      else if _contains_emojis emoji_line [PAUSE; STOP] then
        _compile_sacred_pause emoji_line
      else if _contains_emojis emoji_line
                [CLIPBOARD; CHECK_MARK; CROSS_MARK] then
        _compile_consent emoji_line
      else if contains CYCLONE emoji_line then
        _compile_spiral_phase emoji_line
      else
        u "output.print(" ++ dq ++ u "Emoji expression: " ++
        emoji_line ++ dq ++ u ")"
  end.

(** The loop of [compile_emoji_ritual] over the input lines. *)
Fixpoint compile_body (self : SpiralLogicEmojiCompiler)
    (lines : list ustring) : list ustring :=
  match lines with
  | [] => []
  | line :: rest =>
      match strip line with
      | [] => compile_body self rest
      | _ :: _ =>
          let compiled_line := compile_emoji_line self line in
          match compiled_line with
          | [] => compile_body self rest
          | _ :: _ =>
              (u "    " ++ compiled_line) :: compile_body self rest
          end
      end
  end.

Definition compile_emoji_ritual (self : SpiralLogicEmojiCompiler)
    (emoji_code : ustring) : ustring :=
  let lines := split nl (strip emoji_code) in
  let first_line := match lines with l :: _ => l | [] => [] end in
  let spine := parse_emoji_spine self first_line in
  let intent_desc :=
    match spine with
    | Some spine =>
        let emotion :=
          get_default (spine_anchors self) (anchor spine) (u "stable") in
        u "Process " ++ emotion ++ u " with " ++
        get_default (spine_intent self) (intent spine) (u "support")
    | None => u "Emoji-driven emotional processing"
    end in
  join [nl]
    ([ u "ritual.emoji_session {";
       u "    intent: " ++ dq ++ intent_desc ++ dq ++ u ",";
       u "    participants: [user, @healer],";
       u "    consent: { required: [" ++ dq ++ u "emotional_support" ++
         dq ++ u "] }";
       u "}";
       [];
       u "execute {" ]
     ++ compile_body self lines
     ++ [ u "}";
          [];
          u "complete {";
          u "    @healer.honor_completion()";
          u "}" ]).
End Compiler.

(* ================================================================= *)
(** ** spirallogic_cli.py: [BasicSpiralLogicInterpreter] *)

(** The exceptions the interpreter can meet, all from [input()]:
    [EOFError] at the end of standard input, [KeyboardInterrupt] when
    the user interrupts it, and whatever else reading the terminal or
    writing the prompt may raise, an [Exception] with its message.
    [KeyboardInterrupt] is a [BaseException] and no [Exception]. *)
Inductive exn :=
| EOFError
| KeyboardInterrupt
| OtherException (message : ustring).

(** [isinstance(e, Exception)] *)
Definition is_Exception (e : exn) : bool :=
  match e with
  | KeyboardInterrupt => false
  | EOFError | OtherException _ => true
  end.

(** [str(e)] *)
Definition exn_str (e : exn) : ustring :=
  match e with
  | EOFError => u "EOF when reading a line"
  | KeyboardInterrupt => []
  | OtherException message => message
  end.

(** The instance: [self.options] is stored and never read. *)
Record Interp := {
  options : dict ustring;
  variables : dict ustring;
  consent_status : dict bool;
  output_buffer : list ustring
}.

(** What one call of [input()] meets on standard input: a line, or an
    exception; at the end of the input it is [EOFError]. *)
Inductive input_event :=
| Typed (response : ustring)
| Raises (e : exn).

(** The process around the instance: the pending input and what was
    written to standard output (which the module reconfigures to UTF-8
    when it is loaded). *)
Record World := {
  stdin : list input_event;
  stdout : list ustring
}.

Definition State : Type := Interp * World.

Inductive outcome (A : Type) :=
| Ok (a : A)
| Raise (e : exn).
Arguments Ok {A} a.
Arguments Raise {A} e.

(** Statements of a method: they read and update the instance and the
    world, and return or raise. The state at a raise is kept. *)
Definition M (A : Type) : Type := State -> outcome A * State.

Definition ret {A} (a : A) : M A := fun s => (Ok a, s).

Definition bind {A B} (m : M A) (k : A -> M B) : M B :=
  fun s =>
    match m s with
    | (Ok a, s') => k a s'
    | (Raise e, s') => (Raise e, s')
    end.

(** [try: body  except KeyboardInterrupt: handler] *)
Definition try_except_KeyboardInterrupt {A} (body handler : M A) : M A :=
  fun s =>
    match body s with
    | (Raise KeyboardInterrupt, s') => handler s'
    | r => r
    end.

Declare Scope py_scope.
Delimit Scope py_scope with py.
Notation "x <- m ;; k" := (bind m (fun x => k))
  (at level 61, m at next level, right associativity) : py_scope.
Notation "m ;;; k" := (bind m (fun _ => k))
  (at level 61, right associativity) : py_scope.
Local Open Scope py_scope.

Definition get_self : M Interp := fun s => (Ok (fst s), s).
Definition put_self (i : Interp) : M unit := fun s => (Ok tt, (i, snd s)).

Definition set_variables (i : Interp) (v : dict ustring) : Interp :=
  {| options := options i; variables := v;
     consent_status := consent_status i;
     output_buffer := output_buffer i |}.

Definition set_consent_status (i : Interp) (c : dict bool) : Interp :=
  {| options := options i; variables := variables i;
     consent_status := c;
     output_buffer := output_buffer i |}.

Definition set_output_buffer (i : Interp) (b : list ustring) : Interp :=
  {| options := options i; variables := variables i;
     consent_status := consent_status i;
     output_buffer := b |}.

(** A lone surrogate is what UTF-8 cannot encode. *)
Definition utf8_encodable (s : ustring) : bool :=
  forallb (fun c => negb ((0xD800 <=? c) && (c <=? 0xDFFF))) s.

(** [s.encode('ascii', 'ignore').decode('ascii')] *)
Definition ascii_only (s : ustring) : ustring :=
  filter (fun c => c <? 128) s.

(** [print(s)], with the fallback of [_print] on [UnicodeEncodeError]. *)
Definition write_stdout (s : ustring) : M unit :=
  fun st =>
    let w := snd st in
    let shown := if utf8_encodable s then s else ascii_only s in
    (Ok tt, (fst st, {| stdin := stdin w; stdout := stdout w ++ [shown] |})).

(** The code points of a lone surrogate. *)
Definition is_surrogate (c : Z) : bool :=
  (0xD800 <=? c) && (c <=? 0xDFFF).

(** The number of code points at the head of [s] that satisfy [p]. *)
Fixpoint run_length (p : Z -> bool) (s : ustring) : nat :=
  match s with
  | [] => 0
  | c :: t => if p c then S (run_length p t) else 0
  end.

(** Where the UTF-8 codec stops on a text: the first surrogate, its
    position and the position after the run of surrogates it begins. *)
Fixpoint first_surrogates (s : ustring) (i : nat)
    : option (Z * nat * nat) :=
  match s with
  | [] => None
  | c :: t =>
      if is_surrogate c
      then Some (c, i, S (i + run_length is_surrogate t))
      else first_surrogates t (S i)
  end.

(** A digit of ['%x']. *)
Definition hex_digit (d : Z) : Z :=
  if d <? 10 then 48 + d else 87 + d.

(** ['%04x' % c] for a code point below 65536. *)
Definition hex4 (c : Z) : ustring :=
  [ hex_digit (c / 4096 mod 16); hex_digit (c / 256 mod 16);
    hex_digit (c / 16 mod 16); hex_digit (c mod 16) ].

(** The [UnicodeEncodeError] that encoding [s] for standard output
    raises, with the message [str(e)] gives: it names the surrogate
    when it stands alone, and the positions of the run otherwise. *)
Definition UnicodeEncodeError (s : ustring) : exn :=
  match first_surrogates s 0 with
  | Some (badchar, start, end_) =>
      OtherException
        (if Nat.eqb end_ (S start) then
           u "'utf-8' codec can't encode character '\u" ++ hex4 badchar
           ++ u "' in position " ++ str_of_nat start
           ++ u ": surrogates not allowed"
         else
           u "'utf-8' codec can't encode characters in position "
           ++ str_of_nat start ++ u "-" ++ str_of_nat (end_ - 1)
           ++ u ": surrogates not allowed")
  | None => OtherException []
  end.

(** [input(prompt)]: the prompt is written to standard output, which
    raises [UnicodeEncodeError] before anything is read when it cannot
    encode the prompt, and then a line is read. *)
Definition py_input (prompt : ustring) : M ustring :=
  fun st =>
    let w := snd st in
    let w' rest := {| stdin := rest; stdout := stdout w ++ [prompt] |} in
    if utf8_encodable prompt then
      match stdin w with
      | [] => (Raise EOFError, (fst st, w' []))
      | Typed r :: rest => (Ok r, (fst st, w' rest))
      | Raises e :: rest => (Raise e, (fst st, w' rest))
      end
    else (Raise (UnicodeEncodeError prompt), st).

Section Interpreter.
Variable NFC : ustring -> ustring.

(** [__init__] *)
Definition new_interp (opts : dict ustring) : Interp :=
  {| options := opts; variables := []; consent_status := [];
     output_buffer := [] |}.

(** [_print] *)
Definition _print (message : ustring) : M unit :=
  let normalized_message := NFC message in
  write_stdout normalized_message ;;;
  self <- get_self ;;
  put_self (set_output_buffer self
              (output_buffer self ++ [normalized_message])).

(** One turn of the loop of [_substitute_variables]. *)
Definition substitute_one (text : ustring) (kv : ustring * ustring)
    : ustring :=
  let '(var_name, var_value) := kv in
  let placeholder := u "{" ++ var_name ++ u "}" in
  let text :=
    if contains placeholder text
    then replace placeholder var_value text else text in
  if contains var_name text
  then replace var_name var_value text else text.

(** [_substitute_variables] *)
Definition _substitute_variables (text : ustring) : M ustring :=
  self <- get_self ;;
  ret (fold_left substitute_one (variables self) text).

(** The quote removal shared by [_extract_string_arg] and
    [_handle_assignment]. *)
Definition unquote (arg : ustring) : ustring :=
  if startswith dq arg && endswith dq arg then slice arg 1 (-1)
  else if startswith sq arg && endswith sq arg then slice arg 1 (-1)
  else arg.

(** [_extract_string_arg] *)
Definition _extract_string_arg (line function : ustring) : M ustring :=
  let start := find (function ++ u "(") line
               + len (function ++ u "(") in
  let end_ := rfind (u ")") line in
  let arg := strip (slice line start end_) in
  let arg := unquote arg in
  _substitute_variables arg.

(** [_handle_voice_speak] *)
Definition _handle_voice_speak (line : ustring) : M unit :=
  let voice :=
    if contains (u "@healer") line then u "Healer"
    else if contains (u "@sage") line then u "Sage"
    else if contains (u "@mirror") line then u "Mirror"
    else u "Voice" in
  if contains (u "message:") line then
    let start := find (u "message:") line + 8 in
    let end_ :=
      if contains (u ",") (slice_from line start)
      then find_from (u ",") line start
      else find_from (u "}") line start in
    let end_ := if end_ =? -1 then len line else end_ in
    let message := strip (slice line start end_) in
    let message := strip_chars (dq ++ sq) message in
    message <- _substitute_variables message ;;
    _print (voice ++ u ": " ++ message)
  else
    _print (voice ++ u " speaks").

(** [_handle_input_ask] *)
Definition _handle_input_ask (line : ustring) : M unit :=
  prompt <- _extract_string_arg line (u "input.ask") ;;
  try_except_KeyboardInterrupt
    (response <- py_input (prompt ++ u ": ") ;;
     if contains (u "=") line then
       let var_name := strip (hd [] (split 61 line)) in
       self <- get_self ;;
       put_self (set_variables self
                   (set (variables self) var_name response))
     else ret tt)
    (_print (nl :: u "Input cancelled by user")).

(** [_handle_consent] *)
Definition _handle_consent (line : ustring) : M unit :=
  if contains (u "consent.check(") line then
    domain <- _extract_string_arg line (u "consent.check") ;;
    self <- get_self ;;
    let granted := get_default (consent_status self) domain true in
    _print (u "Checking consent for '" ++ domain ++ u "': " ++
            (if granted then u "Granted" else u "Denied"))
  else if contains (u "consent.request(") line then
    domain <- _extract_string_arg line (u "consent.request") ;;
    self <- get_self ;;
    put_self (set_consent_status self
                (set (consent_status self) domain true)) ;;;
    _print (u "Requesting consent for '" ++ domain ++ u "': Granted")
  else ret tt.

(** [_handle_sacred_pause] *)
Definition _handle_sacred_pause (line : ustring) : M unit :=
  if contains (u "sacred_pause.offer") line then
    _print (u "Sacred pause offered - taking a moment...")
  else if contains (u "sacred_pause.engage") line then
    _print
      (u "Sacred pause engaged - restoring emotional bandwidth...")
  else ret tt.

(** [_handle_assignment] *)
Definition _handle_assignment (line : ustring) : M unit :=
  match split1 61 line with
  | [p0; p1] =>
      let var_name := strip p0 in
      let var_value := unquote (strip p1) in
      self <- get_self ;;
      put_self (set_variables self
                  (set (variables self) var_name var_value))
  | _ => ret tt
  end.

(** [_execute_line] *)
Definition _execute_line (line : ustring) (line_num : nat) : M unit :=
  if contains (u "output.print(") line then
    message <- _extract_string_arg line (u "output.print") ;;
    _print message
  else if contains (u "@") line && contains (u ".speak") line then
    _handle_voice_speak line
  else if contains (u "input.ask(") line then
    _handle_input_ask line
  else if contains (u "consent.") line then
    _handle_consent line
  else if contains (u "sacred_pause.") line then
    _handle_sacred_pause line
  else if contains (u "=") line
          && negb (endswith (u "{") (strip line)) then
    _handle_assignment line
  else if startswith (u "ritual.") line then
    _print (u "Starting ritual: " ++ line)
  else if eqb line (u "execute {") then
    _print (u "Executing ritual...")
  else if eqb line (u "complete {") then
    _print (u "Completing ritual...")
  else if existsb (eqb line)
            [u "look_in {"; u "spiral_up {"; u "flow_out {"] then
    let phase := replace (u " {") [] line in
    _print (u "Entering " ++ phase ++ u " phase")
  else ret tt.

(** The dict [run] returns: with the keys success, output and
    variables when it completes, with success, error and output when
    a line raised. *)
Inductive RunResult :=
| Success (output : list ustring) (vars : dict ustring)
| Failure (error : ustring) (output : list ustring).

(** The loop of [run] over [enumerate(lines, 1)], from [line_num]. *)
Fixpoint run_loop (lines : list ustring) (line_num : nat)
    : M RunResult :=
  match lines with
  | [] =>
      self <- get_self ;;
      ret (Success (output_buffer self) (variables self))
  | line :: rest =>
      let line := strip line in
      if eqb line [] || startswith (u "//") line then
        run_loop rest (S line_num)
      else
        fun s =>
          match _execute_line line line_num s with
          | (Ok _, s') => run_loop rest (S line_num) s'
          | (Raise e, s') =>
              if is_Exception e then
                (Ok (Failure (u "Line " ++ str_of_nat line_num ++
                              u ": " ++ exn_str e)
                       (output_buffer (fst s'))), s')
              else (Raise e, s')
          end
  end.

(** [run]. Its outer [try] has nothing to catch: the inner one takes
    every [Exception] of a line and nothing else in the body raises. *)
Definition run (content : ustring) : M RunResult :=
  let lines := split nl content in
  run_loop lines 1.
End Interpreter.

(* ================================================================= *)
(** ** Definitions used to state the properties *)

(** The number of code points of a text that the pattern of
    [parse_emoji_spine] recognises. *)
Definition count_recognized (s : ustring) : nat :=
  length (filter in_emoji_class s).

(** The precedence of [compile_emoji_line] as the specification words
    it: an ordered list of (predicate, handler) pairs read top to
    bottom, the first pair whose predicate holds giving the result. *)
Definition branch : Type := (ustring -> bool) * (ustring -> ustring).

Fixpoint first_match (chain : list branch) (dflt : ustring -> ustring)
    (l : ustring) : ustring :=
  match chain with
  | [] => dflt l
  | (p, h) :: rest => if p l then h l else first_match rest dflt l
  end.

Definition spine_branch (self : SpiralLogicEmojiCompiler) : branch :=
  (fun l => match parse_emoji_spine self l with
            | Some _ => true
            | None => false
            end,
   fun l => match parse_emoji_spine self l with
            | Some spine => to_spirallogic spine
            | None => []
            end).

Definition voice_branch : branch :=
  (fun l => contains CASTLE l || contains BRAIN l,
   _compile_voice_invocation).
Definition conditional_branch : branch :=
  (fun l => contains THOUGHT l || contains ARROW l,
   _compile_conditional).
Definition pause_branch : branch :=
  (fun l => contains PAUSE l || contains STOP l, _compile_sacred_pause).
Definition consent_branch : branch :=
  (fun l => contains CLIPBOARD l || contains CHECK_MARK l
            || contains CROSS_MARK l,
   _compile_consent).
Definition phase_branch : branch :=
  (fun l => contains CYCLONE l, _compile_spiral_phase).

Definition classification_chain (self : SpiralLogicEmojiCompiler)
    : list branch :=
  [ spine_branch self; voice_branch; conditional_branch; pause_branch;
    consent_branch; phase_branch ].

Definition generic_echo (l : ustring) : ustring :=
  u "output.print(" ++ dq ++ u "Emoji expression: " ++ l ++ dq ++ u ")".

(** Compilers that agree on the three tables their methods read. *)
Definition same_spine_tables (c1 c2 : SpiralLogicEmojiCompiler) : Prop :=
  spine_anchors c1 = spine_anchors c2 /\
  spine_tempo c1 = spine_tempo c2 /\
  spine_intent c1 = spine_intent c2.

(** Variable substitution as the specification words it: for every
    bound variable in turn, the placeholder form and then the bare
    name are replaced by the value. *)
Definition substituteVariables (vars : dict ustring) (text : ustring)
    : ustring :=
  fold_left
    (fun t kv =>
       replace (fst kv) (snd kv)
         (replace (u "{" ++ fst kv ++ u "}") (snd kv) t))
    vars text.

(** The text [_extract_string_arg] returns, as a function of the
    variable store. *)
Definition extracted_arg (vars : dict ustring) (line function : ustring)
    : ustring :=
  let start := find (function ++ u "(") line + len (function ++ u "(") in
  fold_left substitute_one vars
    (unquote (strip (slice line start (rfind (u ")") line)))).

(** [c in s] for one code point. *)
Definition occurs (c : Z) (s : ustring) : bool := existsb (Z.eqb c) s.

(** The statements [consent.check("domain")] and
    [consent.request("domain")]. *)
Definition consent_check_line (domain : ustring) : ustring :=
  u "consent.check(" ++ dq ++ domain ++ dq ++ u ")".

Definition consent_request_line (domain : ustring) : ustring :=
  u "consent.request(" ++ dq ++ domain ++ dq ++ u ")".

(** A domain name without an opening parenthesis and without [@]:
    such a name cannot make its statement look like one of the
    statements [_execute_line] tests for before the consent ones. *)
Definition plain_domain (domain : ustring) : bool :=
  negb (occurs 40 domain) && negb (occurs 64 domain).

(** The tests of [_execute_line] that lead to [_handle_consent]. *)
Definition reaches_consent_handler (line : ustring) : bool :=
  negb (contains (u "output.print(") line)
  && negb (contains (u "@") line && contains (u ".speak") line)
  && negb (contains (u "input.ask(") line)
  && contains (u "consent.") line.

(** The lines [run] passes over: blank ones and comments. *)
Definition skipped (raw : ustring) : bool :=
  let line := strip raw in
  eqb line [] || startswith (u "//") line.

(** [lines_ok NFC lines n s s']: executed in order from state [s], with
    [n] the number of the first, no line of [lines] raises, and the
    state after the last is [s']. *)
Inductive lines_ok (NFC : ustring -> ustring)
    : list ustring -> nat -> State -> State -> Prop :=
| lines_ok_nil n s : lines_ok NFC [] n s s
| lines_ok_skip raw rest n s s' :
    skipped raw = true ->
    lines_ok NFC rest (S n) s s' ->
    lines_ok NFC (raw :: rest) n s s'
| lines_ok_exec raw rest n s s1 s' :
    skipped raw = false ->
    _execute_line NFC (strip raw) n s = (Ok tt, s1) ->
    lines_ok NFC rest (S n) s1 s' ->
    lines_ok NFC (raw :: rest) n s s'.

(** [result.get('variables')] and [result['output']] of the dict that
    [run] returns. *)
Definition result_variables (r : RunResult) : option (dict ustring) :=
  match r with
  | Success _ vars => Some vars
  | Failure _ _ => None
  end.

Definition result_output (r : RunResult) : list ustring :=
  match r with
  | Success out _ => out
  | Failure _ out => out
  end.

(** The state [_print] leaves. *)
Definition printed (NFC : ustring -> ustring) (message : ustring)
    (s : State) : State :=
  let m := NFC message in
  (set_output_buffer (fst s) (output_buffer (fst s) ++ [m]),
   {| stdin := stdin (snd s);
      stdout := stdout (snd s)
                ++ [if utf8_encodable m then m else ascii_only m] |}).

(** What a statement of the interpreter can do: return, having at most
    appended to the output buffer, or raise an [Exception] with the
    instance as it found it. *)
Definition returns_or_raises (m : M unit) : Prop :=
  forall s,
    (exists s' ext,
        m s = (Ok tt, s') /\
        output_buffer (fst s') = output_buffer (fst s) ++ ext) \/
    (exists e w',
        m s = (Raise e, (fst s, w')) /\ is_Exception e = true).

(** Sample inputs. *)
Definition anger_line : ustring := FIRE ++ BRAIN ++ ZAP ++ ANGER_BUBBLE.

Definition anger_spine : EmojiSpine :=
  {| anchor := FIRE; body := BRAIN; tempo := ZAP;
     intent := ANGER_BUBBLE |}.

Definition empty_world : World := {| stdin := []; stdout := [] |}.

Definition fresh : State := (new_interp [], empty_world).

(* ================================================================= *)
(** ** Further definitions: the effect of one line *)

(** The tests of [_execute_line] that lead to [_handle_input_ask]. *)
Definition asks_input (line : ustring) : bool :=
  negb (contains (u "output.print(") line)
  && negb (contains (u "@") line && contains (u ".speak") line)
  && contains (u "input.ask(") line.

(** The tests of [_execute_line] that lead to [_handle_assignment]. *)
Definition reaches_assignment (line : ustring) : bool :=
  negb (contains (u "output.print(") line)
  && negb (contains (u "@") line && contains (u ".speak") line)
  && negb (contains (u "input.ask(") line)
  && negb (contains (u "consent.") line)
  && negb (contains (u "sacred_pause.") line)
  && (contains (u "=") line && negb (endswith (u "{") (strip line))).

(** A line of a program that cannot reach [input()]. *)
Definition no_input_line (raw : ustring) : bool :=
  skipped raw || negb (asks_input (strip raw)).

(** A consent map without a denial. *)
Definition all_granted (c : dict bool) : bool :=
  forallb (fun kv => snd kv) c.

(** What executing one line can do: nothing, print one message, grant
    a consent and print, bind a variable, or, on an [input.ask] line
    only, read the input. *)
Inductive line_effect (NFC : ustring -> ustring) (line : ustring)
    (s : State) : outcome unit * State -> Prop :=
| effect_none : line_effect NFC line s (Ok tt, s)
| effect_print message :
    line_effect NFC line s (Ok tt, printed NFC message s)
| effect_request domain message :
    contains (u "consent.request(") line = true ->
    line_effect NFC line s
      (Ok tt,
       printed NFC message
         (set_consent_status (fst s)
            (set (consent_status (fst s)) domain true), snd s))
| effect_assign name value :
    contains (u "=") line = true ->
    line_effect NFC line s
      (Ok tt,
       (set_variables (fst s) (set (variables (fst s)) name value),
        snd s))
| effect_input_bind name response w' :
    asks_input line = true ->
    contains (u "=") line = true ->
    line_effect NFC line s
      (Ok tt,
       (set_variables (fst s) (set (variables (fst s)) name response),
        w'))
| effect_input_drop w' :
    asks_input line = true ->
    line_effect NFC line s (Ok tt, (fst s, w'))
| effect_input_interrupt message w' :
    asks_input line = true ->
    line_effect NFC line s (Ok tt, printed NFC message (fst s, w'))
| effect_input_raise e w' :
    asks_input line = true ->
    is_Exception e = true ->
    line_effect NFC line s (Raise e, (fst s, w')).

(* ================================================================= *)
(** ** Further definitions: what the compiler can emit *)

(** The statement [to_spirallogic] builds from three words. *)
Definition render (emotion speed action : ustring) : ustring :=
  u "user.emotional_state = " ++ dq ++ emotion ++ dq ++
  u "; user.tempo = " ++ dq ++ speed ++ dq ++
  u "; user.intent = " ++ dq ++ action ++ dq.

(** The words [table.get(key, dflt)] can return. *)
Definition words_of (table : dict ustring) (dflt : ustring)
    : list ustring :=
  dflt :: map snd table.

(** Every statement [to_spirallogic] can return. *)
Definition all_renderings : list ustring :=
  flat_map
    (fun e =>
       flat_map
         (fun t => map (render e t) (words_of intent_map (u "process")))
         (words_of tempo_map (u "normal")))
    (words_of emotion_map (u "unknown")).

(** Every statement the pattern branches of [compile_emoji_line] can
    return: the results of [_compile_voice_invocation],
    [_compile_conditional], [_compile_sacred_pause], [_compile_consent]
    and [_compile_spiral_phase]. *)
Definition canned_statements : list ustring :=
  [ u "@healer.support_grief()"; u "@sage.share_wisdom()";
    u "@protector.provide_safety()"; u "@mirror.transform_anger()";
    u "@healer.assess(user.emotional_state)";
    u "if user.emotional_state == " ++ dq ++ u "anxiety" ++ dq ++
      u " { @protector.activate_safety() }";
    u "if user.emotional_state == " ++ dq ++ u "sadness" ++ dq ++
      u " { sacred_pause.engage() }";
    u "if user.bandwidth.current() < 0.3 { sacred_pause.mandatory() }";
    u "if user.needs_support { @healer.respond() }";
    u "sacred_pause.mandatory { purpose: " ++ dq ++
      u "Emotional overload protection" ++ dq ++ u " }";
    u "sacred_pause.offer { purpose: " ++ dq ++ u "Processing time" ++
      dq ++ u " }";
    u "consent.grant(" ++ dq ++ u "emotional_support" ++ dq ++ u ")";
    u "consent.deny(" ++ dq ++ u "deep_processing" ++ dq ++ u ")";
    u "consent.check(" ++ dq ++ u "emotional_support" ++ dq ++ u ")";
    u "look_in { @healer.assess(user.current_state) }";
    u "spiral_up { @healer.guide_processing() }";
    u "flow_out { @healer.support_integration() }";
    u "// Spiral phase marker" ].

(** Every intent description [compile_emoji_ritual] can put in the
    header, with the tables of [__init__]. *)
Definition header_intents : list ustring :=
  u "Emoji-driven emotional processing" ::
  flat_map
    (fun e =>
       map (fun a => u "Process " ++ e ++ u " with " ++ a)
         (words_of (spine_intent new_compiler) (u "support")))
    (words_of (spine_anchors new_compiler) (u "stable")).

(** The header line that carries the intent description. *)
Definition intent_line (intent_desc : ustring) : ustring :=
  u "    intent: " ++ dq ++ intent_desc ++ dq ++ u ",".

(** A compiled statement that, indented in the body of a ritual, is one
    line and cannot reach [input()]. *)
Definition statement_ok (c : ustring) : bool :=
  negb (occurs nl c) && no_input_line (u "    " ++ c).

(** The input lines [compile_emoji_ritual] compiles: those that are
    not blank. *)
Definition nonblank (line : ustring) : bool :=
  match strip line with
  | [] => false
  | _ :: _ => true
  end.

(** A line of ritual text that holds no newline and cannot reach
    [input()]. *)
Definition line_fine (l : ustring) : bool :=
  negb (occurs nl l) && no_input_line l.

(** The fixed lines [compile_emoji_ritual] puts around the intent line
    and the body. *)
Definition ritual_header_before : list ustring :=
  [ u "ritual.emoji_session {" ].

Definition ritual_header_after : list ustring :=
  [ u "    participants: [user, @healer],";
    u "    consent: { required: [" ++ dq ++ u "emotional_support" ++
      dq ++ u "] }";
    u "}";
    [];
    u "execute {" ].

Definition ritual_footer : list ustring :=
  [ u "}";
    [];
    u "complete {";
    u "    @healer.honor_completion()";
    u "}" ].

(* ================================================================= *)
(** ** spiral_terminal.py: the emotional analysis *)

Module Terminal.

(** The literals of [analyze_emotional_content], as code points. A
    variation selector U+FE0F inside a literal is one of its code
    points like any other. *)
Definition ANGER_CHARS : ustring :=
  [0x1F525; 0x1F621; 0x1F4A2; 0x26A1; 0x1F30B].
Definition SADNESS_CHARS : ustring :=
  [0x1F4A7; 0x1F622; 0x1F62D; 0x1F327; 0xFE0F; 0x1F494].
Definition FEAR_CHARS : ustring :=
  [0x1F630; 0x1F628; 0x1F577; 0xFE0F; 0x26A1; 0x1F32A; 0xFE0F].
Definition JOY_CHARS : ustring :=
  [0x1F60A; 0x1F31E; 0x2728; 0x1F308; 0x1F98B].
Definition LOVE_CHARS : ustring :=
  [0x2764; 0xFE0F; 0x1F49C; 0x1F499; 0x1F49A; 0x1FAC0].
Definition INTENSITY_CHARS : ustring :=
  [0x26A1; 0x1F6A8; 0x1F4A5; 0x1F32A; 0xFE0F; 0x1F525].
Definition SAFETY_CHARS : ustring :=
  [0x1F6E1; 0xFE0F; 0x1F3E0; 0x1FAC2; 0x1F9F8; 0x1F319].

(** [len([e for e in emoji_sequence if e in chars])] *)
Definition count_in (chars emoji_sequence : ustring) : Z :=
  Z.of_nat (length (filter (fun e => occurs e chars) emoji_sequence)).

(** [any(values)] on integers. *)
Definition any_nonzero (values : list Z) : bool :=
  existsb (fun v => negb (v =? 0)) values.

(** [max(d, key=d.get)] on the bindings after the first: the first key
    with the largest value. *)
Fixpoint max_key_aux (d : dict Z) (best : ustring) (best_value : Z)
    : ustring :=
  match d with
  | [] => best
  | (k, v) :: rest =>
      if best_value <? v then max_key_aux rest k v
      else max_key_aux rest best best_value
  end.

(** The dict [analyze_emotional_content] returns. *)
Record Analysis := {
  emotions : dict Z;
  intensity : Z;
  safety_level : Z;
  dominant_emotion : ustring
}.

Definition analyze_emotional_content (emoji_sequence : ustring)
    : Analysis :=
  let emotions :=
    [ (u "anger", count_in ANGER_CHARS emoji_sequence);
      (u "sadness", count_in SADNESS_CHARS emoji_sequence);
      (u "fear", count_in FEAR_CHARS emoji_sequence);
      (u "joy", count_in JOY_CHARS emoji_sequence);
      (u "love", count_in LOVE_CHARS emoji_sequence) ] in
  let intensity_markers := count_in INTENSITY_CHARS emoji_sequence in
  let safety_markers := count_in SAFETY_CHARS emoji_sequence in
  {| emotions := emotions;
     intensity := Z.min 10 (intensity_markers * 2 + 1);
     safety_level := Z.max 1 (8 - intensity_markers + safety_markers);
     dominant_emotion :=
       if any_nonzero (map snd emotions) then
         match emotions with
         | (k, v) :: rest => max_key_aux rest k v
         | [] => []
         end
       else u "neutral" |}.

(** [self.healing_patterns] *)
Definition healing_patterns : dict (list ustring) :=
  [ ([0x1F525],
     [ [0x1F30A; 0x1F499; 0x1F54A; 0xFE0F];
       [0x1F9D8; 0x200D; 0x2640; 0xFE0F; 0x1F331; 0x2728];
       [0x1FAC0; 0x1F49C; 0x1F98B] ]);
    ([0x1F4A7],
     [ [0x1F305; 0x1F49B; 0x1F33B];
       [0x1F917; 0x1F49A; 0x1F33F];
       [0x1F56F; 0xFE0F; 0x1F9E1; 0x1F98B] ]);
    ([0x1F630],
     [ [0x1F6E1; 0xFE0F; 0x1F4AA; 0x1F3FD; 0x2B50];
       [0x1F3E0; 0x1F49D; 0x1F308];
       [0x1F9F8; 0x1F49C; 0x1F319] ]);
    ([0x1F5A4],
     [ [0x1F331; 0x1F49A; 0x1F30D];
       [0x2600; 0xFE0F; 0x1F49B; 0x1F98B];
       [0x1FAC2; 0x1F499; 0x2728] ]);
    ([0x1F621],
     [ [0x1F32C; 0xFE0F; 0x1F499; 0x1F54A; 0xFE0F];
       [0x1F9D8; 0x200D; 0x2640; 0xFE0F; 0x1F338; 0x1F49C];
       [0x1F3D4; 0xFE0F; 0x1F30A; 0x1F319] ]) ].

(** The prefixes of [generate_therapeutic_response]. *)
Definition HIGH_PREFIX : ustring :=
  0x1F6A8 :: u " High intensity detected... ".
Definition STRONG_PREFIX : ustring :=
  0x1F300 :: u " I sense strong energy... ".
Definition GENTLE_PREFIX : ustring :=
  0x1F49C :: u " Gently holding space... ".

(** The patterns [generate_therapeutic_response] chooses from. *)
Definition response_options (input_emoji dominant_emotion : ustring)
    : list ustring :=
  if eqb dominant_emotion (u "anger") && contains [0x1F525] input_emoji
  then
    get_default healing_patterns [0x1F525]
      [[0x1F30A; 0x1F499; 0x1F54A; 0xFE0F]]
  else if eqb dominant_emotion (u "sadness")
          && contains [0x1F4A7] input_emoji then
    get_default healing_patterns [0x1F4A7] [[0x1F305; 0x1F49B; 0x1F33B]]
  else if eqb dominant_emotion (u "fear")
          && existsb (fun e => contains [e] input_emoji)
               [0x1F630; 0x1F628] then
    get_default healing_patterns [0x1F630]
      [[0x1F6E1; 0xFE0F; 0x1F4AA; 0x1F3FD; 0x2B50]]
  else
    [ [0x1F49C; 0x1F331; 0x2728];
      [0x1FAC2; 0x1F499; 0x1F319];
      [0x1F300; 0x1F49A; 0x1F54A; 0xFE0F] ].

Section Response.
(** [random.choice], which picks an element of a non-empty list. *)
Variable choice : list ustring -> ustring.

(** [generate_therapeutic_response] *)
Definition generate_therapeutic_response (input_emoji : ustring)
    (analysis : Analysis) : ustring :=
  let dominant_emotion := dominant_emotion analysis in
  let intensity := intensity analysis in
  let response_options := response_options input_emoji dominant_emotion in
  let prefix :=
    if 7 <? intensity then HIGH_PREFIX
    else if 4 <? intensity then STRONG_PREFIX
    else GENTLE_PREFIX in
  let selected_response := choice response_options in
  prefix ++ selected_response.
End Response.

End Terminal.

(* ================================================================= *)
(** ** spirallogic_emoji_bridge.py: the interactive session *)

Module REPL.

(** [str.split()] without argument: the maximal runs of code points
    that are no whitespace. *)
Fixpoint split_whitespace_aux (cur s : ustring) : list ustring :=
  match s with
  | [] => match cur with [] => [] | _ => [rev cur] end
  | c :: t =>
      if isspace c then
        match cur with
        | [] => split_whitespace_aux [] t
        | _ => rev cur :: split_whitespace_aux [] t
        end
      else split_whitespace_aux (c :: cur) t
  end.

Definition split_whitespace (s : ustring) : list ustring :=
  split_whitespace_aux [] s.

(** The instance. *)
Record EmojiSpiralLogicREPL := {
  compiler : SpiralLogicEmojiCompiler;
  history : list (ustring * ustring)
}.

(** [__init__] *)
Definition new_repl : EmojiSpiralLogicREPL :=
  {| compiler := new_compiler; history := [] |}.

(** The terminal of a session, which may go on for ever: what the
    n-th call of [input()] meets, for every n (a line, or an exception
    raised after the prompt is written, [EOFError] at the end of the
    input), the number of calls made, and what was written to standard
    output (which the module reconfigures to UTF-8 when it is
    loaded). *)
Record Console := {
  incoming : nat -> input_event;
  calls : nat;
  screen : list ustring
}.

(** A call of [run]: the instance, the two locals the loop uses (a
    local is unbound until it is assigned) and the process around
    them. *)
Record Frame := {
  self : EmojiSpiralLogicREPL;
  iteration_count : Z;
  emoji_input : option ustring;
  world : Console
}.

(** How a block of statements of the loop body ends: at its end, at a
    [break] or at a [continue]; or it raises. *)
Inductive flow := Next | Break | Continue.

Definition Block : Type := Frame -> outcome flow * Frame.

(** One statement after another: what follows a [break], a [continue]
    or a raise is not executed. *)
Definition then_ (a b : Block) : Block :=
  fun f =>
    match a f with
    | (Ok Next, f') => b f'
    | r => r
    end.

Declare Scope repl_scope.
Delimit Scope repl_scope with repl.
Notation "a >> b" := (then_ a b)
  (at level 62, right associativity) : repl_scope.
Local Open Scope repl_scope.

Definition pass : Block := fun f => (Ok Next, f).
Definition break_ : Block := fun f => (Ok Break, f).
Definition continue_ : Block := fun f => (Ok Continue, f).

(** [try: body  except ...], the handlers tried in their order; what a
    handler raises leaves the statement. *)
Definition try_except (body : Block)
    (handlers : list ((exn -> bool) * (exn -> Block))) : Block :=
  fun f =>
    match body f with
    | (Raise e, f') =>
        match List.find (fun h => fst h e) handlers with
        | Some h => snd h e f'
        | None => (Raise e, f')
        end
    | r => r
    end.

Definition is_EOFError (e : exn) : bool :=
  match e with EOFError => true | _ => false end.

Definition is_KeyboardInterrupt (e : exn) : bool :=
  match e with KeyboardInterrupt => true | _ => false end.

(** Reading the local [emoji_input]; an unbound local raises
    [UnboundLocalError] (the message is that of Python 3.11). *)
Definition with_emoji_input (k : ustring -> Block) : Block :=
  fun f =>
    match emoji_input f with
    | Some e => k e f
    | None =>
        (Raise (OtherException
                  (u "cannot access local variable 'emoji_input' where it is not associated with a value")),
         f)
    end.

(** [emoji_input = input(prompt)]: the prompt is written, which
    raises [UnicodeEncodeError] when standard output cannot encode it,
    and then a line is read; the local is assigned when [input]
    returns. *)
Definition input_emoji_input (prompt : ustring) : Block :=
  fun f =>
    let w := world f in
    let f' bound :=
      {| self := self f; iteration_count := iteration_count f;
         emoji_input := bound;
         world := {| incoming := incoming w; calls := S (calls w);
                     screen := screen w ++ [prompt] |} |} in
    if utf8_encodable prompt then
      match incoming w (calls w) with
      | Typed r => (Ok Next, f' (Some r))
      | Raises e => (Raise e, f' (emoji_input f))
      end
    else (Raise (UnicodeEncodeError prompt), f).

(** [iteration_count += 1] *)
Definition increment_iteration_count : Block :=
  fun f =>
    (Ok Next,
     {| self := self f; iteration_count := iteration_count f + 1;
        emoji_input := emoji_input f; world := world f |}).

(** [self.history.append(entry)] *)
Definition history_append (entry : ustring * ustring) : Block :=
  fun f =>
    (Ok Next,
     {| self := {| compiler := compiler (self f);
                   history := history (self f) ++ [entry] |};
        iteration_count := iteration_count f;
        emoji_input := emoji_input f; world := world f |}).

Definition PROMPT : ustring := 0x1F3AD :: u " emoji> ".
Definition FAREWELL : ustring :=
  [0x1F54A; 0xFE0F] ++ u " Farewell from the emoji realm!".
Definition INPUT_ENDED : ustring :=
  [0x1F54A; 0xFE0F] ++ u " Input ended - farewell from the emoji realm!".
Definition INTERRUPTED_FAREWELL : ustring :=
  0x1F6D1 :: u " Interrupted - farewell from the emoji realm!".
Definition INTERRUPTED : ustring :=
  nl :: 0x1F6D1 :: u " Interrupted".
Definition ERROR_PREFIX : ustring := 0x274C :: u " Error: ".
Definition CODE_PREFIX : ustring := 0x1F4DD :: u " SpiralLogic: ".

(** The lines [run] prints before it reads. *)
Definition banner : list ustring :=
  [ 0x1F300 :: u " SpiralLogic Emoji Programming Environment";
    u "Type emoji sequences to generate SpiralLogic code!";
    u "Examples:";
    u "  " ++ [0x1F525; 0x1F9E0; 0x26A1; 0x1F5EF; 0xFE0F]
      ++ u "    (anger spine)";
    u "  " ++ [0x1F3F0; 0x1F9E0; 0x1F494]
      ++ u "      (summon grief keeper)";
    u "  " ++ [0x1F4AD; 0x1F630; 0x27A1; 0xFE0F; 0x1F6E1; 0xFE0F]
      ++ u "   (anxiety triggers protection)";
    u "  quit or exit to stop";
    [] ].

Section Session.
Variable NFC : ustring -> ustring.
(** [str.lower] *)
Variable lower : ustring -> ustring.

(** What [safe_print] writes for a message: the normalised message,
    without its code points outside ASCII when standard output cannot
    encode it. *)
Definition written (message : ustring) : ustring :=
  let normalized_message := NFC message in
  if utf8_encodable normalized_message then normalized_message
  else ascii_only normalized_message.

(** [safe_print] *)
Definition safe_print (message : ustring) : Block :=
  fun f =>
    let w := world f in
    (Ok Next,
     {| self := self f; iteration_count := iteration_count f;
        emoji_input := emoji_input f;
        world := {| incoming := incoming w; calls := calls w;
                    screen := screen w ++ [written message] |} |}).

(** The statements of the first [except KeyboardInterrupt] clause that
    follow its [break]. *)
Definition compile_and_record : Block :=
  with_emoji_input (fun emoji_input => fun f =>
    let spirallogic_code :=
      if contains [nl] emoji_input
         || (1 <? Z.of_nat (length (split_whitespace emoji_input)))
      then compile_emoji_ritual NFC (compiler (self f)) emoji_input
      else compile_emoji_line NFC (compiler (self f)) emoji_input in
    (safe_print (CODE_PREFIX ++ spirallogic_code) >>
     history_append (emoji_input, spirallogic_code)) f).

(** The body of the [while] loop of [run]. *)
Definition loop_body : Block :=
  try_except
    (input_emoji_input PROMPT >>
     increment_iteration_count >>
     with_emoji_input (fun emoji_input =>
       if existsb (eqb (lower emoji_input)) [u "quit"; u "exit"; u "q"]
       then safe_print FAREWELL >> break_
       else pass) >>
     with_emoji_input (fun emoji_input =>
       match strip emoji_input with
       | [] => continue_
       | _ => pass
       end))
    [ (is_EOFError, fun _ => safe_print INPUT_ENDED >> break_);
      (is_KeyboardInterrupt,
       fun _ => safe_print INTERRUPTED_FAREWELL >> break_ >>
                compile_and_record);
      (is_KeyboardInterrupt, fun _ => safe_print INTERRUPTED >> break_);
      (is_Exception, fun e => safe_print (ERROR_PREFIX ++ exn_str e)) ].

(** [while iteration_count < max_iterations: ...], followed for at
    most [turns] tests of its condition: [None] when the loop is still
    running after them. *)
Fixpoint while_loop (turns : nat) (f : Frame)
    : option (outcome unit * Frame) :=
  match turns with
  | O => None
  | S turns' =>
      if iteration_count f <? 100 then
        match loop_body f with
        | (Ok Break, f') => Some (Ok tt, f')
        | (Ok _, f') => while_loop turns' f'
        | (Raise e, f') => Some (Raise e, f')
        end
      else Some (Ok tt, f)
  end.

(** The statements of [run] before the loop. *)
Definition print_banner : Block :=
  fold_right (fun line rest => safe_print line >> rest) pass banner.

(** [run], its loop followed for at most [turns] tests of the
    condition: [None] when the session is still running after them. *)
Definition run (turns : nat) (repl : EmojiSpiralLogicREPL)
    (w : Console) : option (outcome unit * Frame) :=
  let f := {| self := repl; iteration_count := 0;
              emoji_input := None; world := w |} in
  match print_banner f with
  | (Ok _, f') => while_loop turns f'
  | (Raise e, f') => Some (Raise e, f')
  end.

(** The quit words. *)
Definition quits (response : ustring) : bool :=
  existsb (eqb (lower response)) [u "quit"; u "exit"; u "q"].

(** The events that end a session: a quit word, the end of the input
    and an interrupt. *)
Definition stops (event : input_event) : bool :=
  match event with
  | Typed response => quits response
  | Raises EOFError | Raises KeyboardInterrupt => true
  | Raises (OtherException _) => false
  end.

(** The number of lines among the [n] events from the [start]-th. *)
Fixpoint lines_read (events : nat -> input_event) (start n : nat) : Z :=
  match n with
  | O => 0
  | S n' =>
      match events start with
      | Typed _ => 1 + lines_read events (S start) n'
      | Raises _ => lines_read events (S start) n'
      end
  end.

(** What a session writes after the banner during its first [turns]
    turns, from the events at [start] on and the count of lines read:
    the prompt, and then the farewell on a quit word, on the end of
    the input or on an interrupt, the error on another exception, and
    nothing on any other line. *)
Fixpoint transcript (events : nat -> input_event) (start : nat)
    (turns : nat) (count : Z) : list ustring :=
  match turns with
  | O => []
  | S turns' =>
      if count <? 100 then
        match events start with
        | Typed response =>
            if quits response then [PROMPT; written FAREWELL]
            else PROMPT :: transcript events (S start) turns' (count + 1)
        | Raises EOFError => [PROMPT; written INPUT_ENDED]
        | Raises KeyboardInterrupt =>
            [PROMPT; written INTERRUPTED_FAREWELL]
        | Raises (OtherException message) =>
            PROMPT :: written (ERROR_PREFIX ++ message)
            :: transcript events (S start) turns' count
        end
      else []
  end.

End Session.

(** An instance of [lower] for closed lemmas: [str.lower] on ASCII
    text. *)
Definition lower_ascii (s : ustring) : ustring :=
  map (fun c => if (65 <=? c) && (c <=? 90) then c + 32 else c) s.

End REPL.

(* ================================================================= *)
(** * Properties *)

(** ** Facts about the string operations *)

Section StrFacts.

Lemma ustring_eqb_refl (s : ustring) : eqb s s = true.
Proof.
  induction s as [|c s IH]; simpl; [reflexivity|].
  now rewrite Z.eqb_refl, IH.
Qed.

Lemma ustring_eqb_eq (a b : ustring) : eqb a b = true <-> a = b.
Proof.
  split; [|intros ->; apply ustring_eqb_refl].
  revert b; induction a as [|x a IH]; intros [|y b]; simpl;
    try discriminate; [reflexivity|].
  intros H; apply andb_true_iff in H as [Hx Hr].
  apply Z.eqb_eq in Hx; subst; f_equal; auto.
Qed.

Lemma startswith_nil (s : ustring) : startswith [] s = true.
Proof. destruct s; reflexivity. Qed.

Lemma startswith_app (p q s : ustring) :
  startswith (p ++ q) s = true -> startswith p s = true.
Proof.
  revert s; induction p as [|x p IH]; intros s.
  - intros _; apply startswith_nil.
  - destruct s as [|y s]; simpl; [intros H; discriminate H|].
    intros H; apply andb_true_iff in H as [Hx Hr].
    rewrite Hx; simpl; auto.
Qed.

Lemma contains_cons (sub : ustring) (c : Z) (t : ustring) :
  contains sub (c :: t) = startswith sub (c :: t) || contains sub t.
Proof. reflexivity. Qed.

Lemma contains_nil_l (s : ustring) : contains [] s = true.
Proof. destruct s; reflexivity. Qed.

Lemma contains_app_prefix (p q s : ustring) :
  contains (p ++ q) s = true -> contains p s = true.
Proof.
  induction s as [|c t IH].
  - simpl; rewrite !orb_false_r; apply startswith_app.
  - rewrite !contains_cons; intros H.
    apply orb_true_iff in H as [H|H]; apply orb_true_iff.
    + left; eapply startswith_app; eassumption.
    + right; auto.
Qed.

Lemma contains_false_inv (sub : ustring) (c : Z) (t : ustring) :
  contains sub (c :: t) = false ->
  startswith sub (c :: t) = false /\ contains sub t = false.
Proof. rewrite contains_cons; apply orb_false_iff. Qed.

(** Replacing a pattern that does not occur changes nothing. *)
Lemma replace_aux_absent (old new s : ustring) :
  contains old s = false -> replace_aux old new s O = s.
Proof.
  induction s as [|c t IH]; [reflexivity|].
  intros H; apply contains_false_inv in H as [Hp Ht].
  cbn [replace_aux]; rewrite Hp, IH by assumption; reflexivity.
Qed.

Lemma replace_absent (old new s : ustring) :
  contains old s = false -> replace old new s = s.
Proof.
  destruct old as [|x old].
  - rewrite contains_nil_l; discriminate.
  - apply replace_aux_absent.
Qed.

(** [rfind] of a pattern that does not occur is -1. *)
Lemma rfind_aux_absent (sub s : ustring) (i last : Z) :
  contains sub s = false -> rfind_aux sub s i last = last.
Proof.
  revert i; induction s as [|c t IH]; intros i H.
  - simpl in H; rewrite orb_false_r in H; simpl; now rewrite H.
  - apply contains_false_inv in H as [Hp Ht].
    cbn [rfind_aux]; rewrite Hp; auto.
Qed.

Lemma rfind_absent (sub s : ustring) :
  contains sub s = false -> rfind sub s = -1.
Proof. apply rfind_aux_absent. Qed.

(** [find] of a pattern that occurs is an index of the text. *)
Lemma find_aux_bounds (sub s : ustring) (i : Z) :
  contains sub s = true ->
  i <= find_aux sub s i <= i + len s.
Proof.
  unfold len; revert i; induction s as [|c t IH]; intros i H.
  - simpl in H; rewrite orb_false_r in H; simpl; rewrite H; simpl; lia.
  - rewrite contains_cons in H; cbn [find_aux].
    destruct (startswith sub (c :: t)) eqn:Hp.
    + simpl length; lia.
    + simpl in H; specialize (IH (i + 1) H); simpl length; lia.
Qed.

Lemma find_nonneg (sub s : ustring) :
  contains sub s = true -> 0 <= find sub s.
Proof. intros H; apply (find_aux_bounds sub s 0 H). Qed.

(** [s[a:-1]] is the text without its last code point, from [a]. *)
Lemma slice_to_last (s : ustring) (a : Z) :
  0 <= a -> slice s a (-1) = skipn (Z.to_nat a) (removelast s).
Proof.
  intros Ha; unfold slice, clamp, len.
  replace (a <? 0) with false by (symmetry; apply Z.ltb_ge; lia).
  replace (-1 <? 0) with true by reflexivity.
  rewrite removelast_firstn_len, skipn_firstn_comm.
  destruct (Z.le_gt_cases (Z.of_nat (length s)) a) as [Hbig|Hsmall].
  - rewrite Z.min_r by lia.
    replace (Z.to_nat (Z.max (-1 + Z.of_nat (length s)) 0
                       - Z.of_nat (length s))) with O by lia.
    replace (Nat.pred (length s) - Z.to_nat a)%nat with O by lia.
    reflexivity.
  - rewrite Z.min_l by lia.
    f_equal; lia.
Qed.

Lemma startswith_self_app (p r : ustring) : startswith p (p ++ r) = true.
Proof.
  induction p as [|x p IH]; simpl; [reflexivity|].
  now rewrite Z.eqb_refl, IH.
Qed.

Lemma find_aux_startswith (sub s : ustring) (i : Z) :
  startswith sub s = true -> find_aux sub s i = i.
Proof. destruct s; simpl; now intros ->. Qed.

Lemma find_prefix (p r : ustring) : find p (p ++ r) = 0.
Proof. apply find_aux_startswith, startswith_self_app. Qed.

Lemma contains_startswith (p s : ustring) :
  startswith p s = true -> contains p s = true.
Proof. destruct s; simpl; now intros ->. Qed.

(** [rfind] of a one-character pattern in a text that ends with it. *)
Lemma rfind_aux_last (c : Z) (t : ustring) (i last : Z) :
  rfind_aux [c] (t ++ [c]) i last = i + len t.
Proof.
  unfold len; revert i last; induction t as [|x t IH]; intros i last.
  - simpl; rewrite Z.eqb_refl; simpl; lia.
  - cbn [app rfind_aux]; rewrite IH; simpl length; lia.
Qed.

Lemma slice_middle (P Q R : ustring) :
  slice (P ++ Q ++ R) (len P) (len P + len Q) = Q.
Proof.
  unfold slice, clamp, len.
  rewrite !length_app.
  replace (Z.of_nat (length P) <? 0) with false
    by (symmetry; apply Z.ltb_ge; lia).
  replace (Z.of_nat (length P) + Z.of_nat (length Q) <? 0) with false
    by (symmetry; apply Z.ltb_ge; lia).
  rewrite !Z.min_l by lia.
  rewrite Nat2Z.id, skipn_app, skipn_all, Nat.sub_diag; simpl skipn.
  replace (Z.to_nat (Z.of_nat (length P) + Z.of_nat (length Q)
                     - Z.of_nat (length P))) with (length Q) by lia.
  cbn [app]; rewrite firstn_app, firstn_all, Nat.sub_diag; simpl.
  apply app_nil_r.
Qed.

Lemma strip_no_space_ends (c1 c2 : Z) (m : ustring) :
  isspace c1 = false -> isspace c2 = false ->
  strip (c1 :: m ++ [c2]) = c1 :: m ++ [c2].
Proof.
  intros H1 H2; unfold strip, lstrip_by, rstrip_by.
  cbn [dropwhile]; rewrite H1.
  change (c1 :: m ++ [c2]) with ((c1 :: m) ++ [c2]).
  rewrite rev_app_distr; cbn [rev app dropwhile]; rewrite H2.
  change (c2 :: rev m ++ [c1]) with ([c2] ++ rev (c1 :: m)).
  rewrite rev_app_distr, rev_involutive; reflexivity.
Qed.

Lemma occurs_app (c : Z) (x y : ustring) :
  occurs c (x ++ y) = occurs c x || occurs c y.
Proof. apply existsb_app. Qed.

(** A code point of a prefix of the text occurs in the text. *)
Lemma startswith_occurs (c : Z) (p s : ustring) :
  startswith p s = true -> occurs c p = true -> occurs c s = true.
Proof.
  revert s; induction p as [|x p IH]; intros [|y s]; simpl;
    try discriminate.
  intros H Hc; apply andb_true_iff in H as [Hx Hr].
  apply Z.eqb_eq in Hx; subst y.
  apply orb_true_iff in Hc as [Hc|Hc]; apply orb_true_iff; auto.
Qed.

Lemma contains_occurs (c : Z) (p s : ustring) :
  contains p s = true -> occurs c p = true -> occurs c s = true.
Proof.
  induction s as [|y s IH]; intros H Hc.
  - simpl in H; rewrite orb_false_r in H.
    eapply startswith_occurs; eassumption.
  - rewrite contains_cons in H; apply orb_true_iff in H as [H|H].
    + eapply startswith_occurs; eassumption.
    + simpl; rewrite (IH H Hc); apply orb_true_r.
Qed.

(** A pattern ending in [c] that begins a text with a single [c] ends
    at that [c]. *)
Lemma startswith_unique (c : Z) (p a b : ustring) :
  occurs c a = false -> occurs c b = false ->
  startswith (p ++ [c]) (a ++ c :: b) = true -> p = a.
Proof.
  intros Ha Hb; revert a Ha; induction p as [|x p IH]; intros [|y a] Ha H.
  - reflexivity.
  - simpl in H, Ha; apply orb_false_iff in Ha as [Hy _].
    apply andb_true_iff in H as [Hx _]; congruence.
  - simpl in H; apply andb_true_iff in H as [_ H].
    assert (Hc : occurs c b = true).
    { eapply startswith_occurs; [exact H|].
      rewrite occurs_app; simpl; rewrite Z.eqb_refl; apply orb_true_r. }
    congruence.
  - simpl in H, Ha; apply andb_true_iff in H as [Hx H].
    apply orb_false_iff in Ha as [_ Ha].
    apply Z.eqb_eq in Hx; subst; f_equal; auto.
Qed.

(** So an occurrence of such a pattern in the text is the end of what
    comes before the [c]. *)
Lemma contains_unique (c : Z) (p a b : ustring) :
  occurs c a = false -> occurs c b = false ->
  contains (p ++ [c]) (a ++ c :: b) = true ->
  endswith p a = true.
Proof.
  intros Ha Hb H.
  assert (Hex : exists a0, a = a0 ++ p).
  { revert Ha H; induction a as [|y a IH]; intros Ha H.
    - cbn [app] in H; rewrite contains_cons in H.
      apply orb_true_iff in H as [H|H].
      + exists []; symmetry.
        apply (startswith_unique c p [] b); auto.
      + assert (Hc : occurs c b = true).
        { eapply contains_occurs; [exact H|].
          rewrite occurs_app; simpl; rewrite Z.eqb_refl; apply orb_true_r. }
        congruence.
    - rewrite <- app_comm_cons, contains_cons in H.
      apply orb_true_iff in H as [H|H].
      + exists []; symmetry.
        apply (startswith_unique c p (y :: a) b); auto.
      + simpl in Ha; apply orb_false_iff in Ha as [_ Ha].
        destruct (IH Ha H) as [a0 ->]; exists (y :: a0); reflexivity. }
  destruct Hex as [a0 ->].
  unfold endswith; rewrite rev_app_distr; apply startswith_self_app.
Qed.

(** The operations on the examples of Python's documentation. *)
Example pystr_examples :
  find (u "lo") (u "hello") = 3 /\ find (u "x") (u "hello") = -1 /\
  rfind (u "l") (u "hello") = 3 /\ rfind (u ")") (u "hello") = -1 /\
  find_from (u ",") (u "a,b,c") 2 = 3 /\
  slice (u "hello") 1 (-1) = u "ell" /\ slice (u "hello") 5 (-1) = [] /\
  split 61 (u "a=b=c") = [u "a"; u "b"; u "c"] /\
  split1 61 (u "a=b=c") = [u "a"; u "b=c"] /\ split nl [] = [[]] /\
  replace (u "ab") (u "X") (u "cababab d") = u "cXXX d" /\
  replace (u "aa") (u "X") (u "aaa") = u "Xa" /\
  replace [] (u "x") (u "abc") = u "xaxbxcx" /\
  strip (9 :: u "  a b  " ++ [nl]) = u "a b" /\
  strip_chars (dq ++ sq) (dq ++ u "a'b" ++ sq) = u "a'b" /\
  str_of_nat 120 = u "120".
Proof. repeat split; reflexivity. Qed.

End StrFacts.

(* ================================================================= *)
(** ** The emoji compiler *)

Section CompilerFacts.

(** The pattern yields at most as many matches as the text has
    code points of its class. *)
Lemma findall_aux_length (s cur : ustring) :
  (length (findall_aux s cur)
   <= count_recognized s + match cur with [] => 0 | _ :: _ => 1 end)%nat.
Proof.
  unfold count_recognized.
  revert cur; induction s as [|c t IH]; intros cur.
  - destruct cur; simpl; lia.
  - cbn [findall_aux filter].
    destruct (in_emoji_class c).
    + specialize (IH (c :: cur)); cbn in IH |- *.
      destruct cur; lia.
    + destruct cur as [|d cur]; specialize (IH []);
        cbn in IH |- *; lia.
Qed.

Lemma findall_emoji_length (s : ustring) :
  (length (findall_emoji s) <= count_recognized s)%nat.
Proof.
  unfold findall_emoji.
  pose proof (findall_aux_length s []) as H; simpl in H; lia.
Qed.

Lemma first_match_at (chain pre post : list branch) (p : ustring -> bool)
    (h dflt : ustring -> ustring) (l : ustring) :
  chain = pre ++ (p, h) :: post ->
  Forall (fun b => fst b l = false) pre ->
  p l = true ->
  first_match chain dflt l = h l.
Proof.
  intros -> Hpre Hp.
  induction Hpre as [|[q g] pre Hq _ IH]; simpl.
  - now rewrite Hp.
  - simpl in Hq; now rewrite Hq.
Qed.

Lemma contains_emojis_2 (l a b : ustring) :
  _contains_emojis l [a; b] = contains a l || contains b l.
Proof. unfold _contains_emojis; simpl; now rewrite orb_false_r. Qed.

Lemma contains_emojis_3 (l a b c : ustring) :
  _contains_emojis l [a; b; c]
  = contains a l || contains b l || contains c l.
Proof.
  unfold _contains_emojis; simpl.
  now rewrite orb_false_r, orb_assoc.
Qed.

Lemma mem_In {V} (d : dict V) (k : ustring) :
  mem d k = true -> In k (map fst d).
Proof.
  unfold mem; induction d as [|[k' v] d IH]; simpl; [discriminate|].
  destruct (eqb k' k) eqn:E; [|auto].
  intros _; left; now apply ustring_eqb_eq.
Qed.

(** No glyph is a key of two of the three tables. *)
Lemma spine_tables_disjoint (k : ustring) :
  (mem (spine_anchors new_compiler) k = true ->
   mem (spine_tempo new_compiler) k = false /\
   mem (spine_intent new_compiler) k = false) /\
  (mem (spine_tempo new_compiler) k = true ->
   mem (spine_intent new_compiler) k = false).
Proof.
  split; intros H; apply mem_In in H; simpl in H;
    repeat (destruct H as [<-|H]; [repeat split; reflexivity|]);
    destruct H.
Qed.

Lemma first_in_found (table : dict ustring) (emojis : list ustring)
    (dflt e : ustring) :
  In e emojis -> mem table e = true ->
  exists e', List.find (mem table) emojis = Some e' /\
             first_in table emojis dflt = e' /\
             In e' emojis /\ mem table e' = true.
Proof.
  intros Hin Hmem; unfold first_in.
  destruct (List.find (mem table) emojis) as [e'|] eqn:F.
  - exists e'; apply find_some in F as [? ?]; auto.
  - apply (find_none _ _ F) in Hin; congruence.
Qed.

(** When an anchor, a tempo and an intent glyph are each a match of
    their own, the spine holds the first such match of each table. *)
Lemma parse_emoji_spine_separate_matches (s ea et ei : ustring) :
  let emojis := findall_emoji s in
  In ea emojis -> mem (spine_anchors new_compiler) ea = true ->
  In et emojis -> mem (spine_tempo new_compiler) et = true ->
  In ei emojis -> mem (spine_intent new_compiler) ei = true ->
  exists a t i,
    parse_emoji_spine new_compiler s
    = Some {| anchor := a; body := BRAIN; tempo := t; intent := i |} /\
    List.find (mem (spine_anchors new_compiler)) emojis = Some a /\
    List.find (mem (spine_tempo new_compiler)) emojis = Some t /\
    List.find (mem (spine_intent new_compiler)) emojis = Some i.
Proof.
  intros emojis Ha Ma Ht Mt Hi Mi.
  assert (Hlen : (3 <= length emojis)%nat).
  { apply (NoDup_incl_length (l := [ea; et; ei])).
    - destruct (spine_tables_disjoint ea) as [D1 _].
      destruct (spine_tables_disjoint et) as [_ D2].
      destruct (D1 Ma) as [D1t D1i]; specialize (D2 Mt).
      repeat constructor; simpl; intuition (subst; congruence).
    - intros x [<-|[<-|[<-|[]]]]; assumption. }
  destruct (first_in_found _ _ QUESTION _ Ha Ma) as (a & Fa & Ea & _).
  destruct (first_in_found _ _ HORSE _ Ht Mt) as (t & Ft & Et & _).
  destruct (first_in_found _ _ SPARKLES _ Hi Mi) as (i & Fi & Ei & _).
  exists a, t, i; repeat split; try assumption.
  unfold parse_emoji_spine; fold emojis.
  replace (length emojis <? 3)%nat with false
    by (symmetry; apply Nat.ltb_ge; exact Hlen).
  now rewrite Ea, Et, Ei.
Qed.

End CompilerFacts.

(** C4. A text with fewer than three matches of the emoji pattern, and
    so every text with fewer than three code points of the pattern's
    class, is parsed to no spine; [parse_emoji_spine] is total, it has
    no way to raise. *)
Theorem parse_emoji_spine_few_glyphs
    (self : SpiralLogicEmojiCompiler) (s : ustring) :
  (length (findall_emoji s) < 3)%nat \/ (count_recognized s < 3)%nat ->
  parse_emoji_spine self s = None.
Proof.
  intros H.
  assert (Hlt : (length (findall_emoji s) < 3)%nat).
  { destruct H as [H|H]; [exact H|].
    pose proof (findall_emoji_length s); lia. }
  unfold parse_emoji_spine.
  apply Nat.ltb_lt in Hlt; now rewrite Hlt.
Qed.

Lemma parse_emoji_spine_few_glyphs_witness :
  (count_recognized (HEART ++ u " and " ++ BRAIN) < 3)%nat /\
  parse_emoji_spine new_compiler (HEART ++ u " and " ++ BRAIN) = None.
Proof.
  split; [vm_compute; lia|].
  apply (parse_emoji_spine_few_glyphs new_compiler
           (HEART ++ u " and " ++ BRAIN)).
  right; vm_compute; lia.
Defined.

(** C5. On the line the module itself presents as the anger spine,
    which holds an anchor, a tempo and an intent glyph,
    [parse_emoji_spine] returns no spine: the pattern ends in [+] and
    takes adjacent glyphs as one match, and the brain glyph is outside
    its class, so only two matches are found. The same three glyphs
    apart from each other are parsed as the claim describes. *)
Theorem parse_emoji_spine_anger_line :
  mem (spine_anchors new_compiler) FIRE = true /\
  mem (spine_tempo new_compiler) ZAP = true /\
  mem (spine_intent new_compiler) ANGER_BUBBLE = true /\
  contains FIRE anger_line = true /\
  contains ZAP anger_line = true /\
  contains ANGER_BUBBLE anger_line = true /\
  findall_emoji anger_line = [FIRE; ZAP ++ ANGER_BUBBLE] /\
  parse_emoji_spine new_compiler anger_line = None /\
  parse_emoji_spine new_compiler (FIRE ++ ZAP ++ ANGER_BUBBLE) = None /\
  parse_emoji_spine new_compiler
    (FIRE ++ u " " ++ ZAP ++ u " " ++ ANGER_BUBBLE) = Some anger_spine.
Proof. repeat split; vm_compute; reflexivity. Qed.

(** C2. [compile_emoji_line] classifies the stripped and normalised
    line by the fixed chain spine, voice, conditional, pause, consent,
    phase, and the generic echo when none applies: its result is that
    of the first branch of the chain whose test holds. So a line that
    is no spine and holds a voice glyph is compiled as a voice
    invocation, whatever consent glyphs it holds besides. *)
Theorem compile_emoji_line_precedence
    (NFC : ustring -> ustring) (self : SpiralLogicEmojiCompiler)
    (line : ustring) :
  let l := NFC (strip line) in
  compile_emoji_line NFC self line
  = first_match (classification_chain self) generic_echo l
  /\ (forall pre p h post,
        classification_chain self = pre ++ (p, h) :: post ->
        Forall (fun b => fst b l = false) pre ->
        p l = true ->
        compile_emoji_line NFC self line = h l)
  /\ (parse_emoji_spine self l = None ->
      _contains_emojis l [CASTLE; BRAIN] = true ->
      compile_emoji_line NFC self line = _compile_voice_invocation l).
Proof.
  intros l.
  assert (Heq : compile_emoji_line NFC self line
                = first_match (classification_chain self) generic_echo l).
  { unfold compile_emoji_line, classification_chain, first_match,
      spine_branch, voice_branch, conditional_branch, pause_branch,
      consent_branch, phase_branch, generic_echo.
    fold l.
    rewrite !contains_emojis_2, contains_emojis_3.
    destruct (parse_emoji_spine self l); reflexivity. }
  split; [exact Heq|split].
  - intros pre p h post Hchain Hpre Hp.
    rewrite Heq; eapply first_match_at; eassumption.
  - intros Hspine Hvoice.
    unfold compile_emoji_line; fold l.
    now rewrite Hspine, Hvoice.
Qed.

Lemma compile_emoji_line_precedence_witness :
  compile_emoji_line nfc_inert new_compiler
    (CASTLE ++ CLIPBOARD ++ CHECK_MARK)
  = u "@healer.assess(user.emotional_state)".
Proof.
  destruct (compile_emoji_line_precedence nfc_inert new_compiler
              (CASTLE ++ CLIPBOARD ++ CHECK_MARK)) as [_ [_ Hvoice]].
  rewrite Hvoice; reflexivity.
Defined.

(** Two compilers with the same three spine tables compile alike: the
    table [emoji_to_spirallogic] is never read. *)
Lemma parse_emoji_spine_tables (c1 c2 : SpiralLogicEmojiCompiler)
    (s : ustring) :
  same_spine_tables c1 c2 ->
  parse_emoji_spine c1 s = parse_emoji_spine c2 s.
Proof.
  intros (Ha & Ht & Hi); unfold parse_emoji_spine.
  now rewrite Ha, Ht, Hi.
Qed.

Lemma compile_emoji_line_tables (NFC : ustring -> ustring)
    (c1 c2 : SpiralLogicEmojiCompiler) (line : ustring) :
  same_spine_tables c1 c2 ->
  compile_emoji_line NFC c1 line = compile_emoji_line NFC c2 line.
Proof.
  intros H; unfold compile_emoji_line.
  now rewrite (parse_emoji_spine_tables c1 c2 _ H).
Qed.

Lemma compile_body_tables (NFC : ustring -> ustring)
    (c1 c2 : SpiralLogicEmojiCompiler) (lines : list ustring) :
  same_spine_tables c1 c2 ->
  compile_body NFC c1 lines = compile_body NFC c2 lines.
Proof.
  intros H; induction lines as [|line rest IH]; [reflexivity|].
  cbn [compile_body].
  now rewrite IH, (compile_emoji_line_tables NFC c1 c2 line H).
Qed.

(** C9. [compile_emoji_ritual] is a function of the text and of the
    compiler's three spine tables, which no method writes: it draws no
    random number and keeps no state, so two invocations on the same
    text return the same text, code point for code point, also on two
    compiler instances. *)
Theorem compile_emoji_ritual_deterministic
    (NFC : ustring -> ustring) (c1 c2 : SpiralLogicEmojiCompiler)
    (text1 text2 : ustring) :
  same_spine_tables c1 c2 ->
  text1 = text2 ->
  compile_emoji_ritual NFC c1 text1 = compile_emoji_ritual NFC c2 text2.
Proof.
  intros H ->; unfold compile_emoji_ritual.
  rewrite (compile_body_tables NFC c1 c2 _ H),
    (parse_emoji_spine_tables c1 c2 _ H).
  destruct H as (Ha & Ht & Hi); now rewrite Ha, Hi.
Qed.

Lemma compile_emoji_ritual_deterministic_witness :
  compile_emoji_ritual nfc_inert new_compiler (anger_line ++ [nl] ++ PAUSE)
  = compile_emoji_ritual nfc_inert new_compiler
      (FIRE ++ BRAIN ++ ZAP ++ ANGER_BUBBLE ++ [nl] ++ PAUSE).
Proof.
  apply (compile_emoji_ritual_deterministic nfc_inert
           new_compiler new_compiler).
  - repeat split.
  - reflexivity.
Defined.

(* ================================================================= *)
(** ** The line interpreter *)

Section InterpreterFacts.
Variable NFC : ustring -> ustring.

Lemma bind_Ok {A B} (m : M A) (k : A -> M B) (s s' : State) (a : A) :
  m s = (Ok a, s') -> bind m k s = k a s'.
Proof. unfold bind; now intros ->. Qed.

Lemma _print_eq (message : ustring) (s : State) :
  _print NFC message s = (Ok tt, printed NFC message s).
Proof. destruct s; reflexivity. Qed.

Lemma _substitute_variables_eq (text : ustring) (s : State) :
  _substitute_variables text s
  = (Ok (fold_left substitute_one (variables (fst s)) text), s).
Proof. reflexivity. Qed.

Lemma _extract_string_arg_eq (line function : ustring) (s : State) :
  _extract_string_arg line function s
  = (Ok (extracted_arg (variables (fst s)) line function), s).
Proof. reflexivity. Qed.

Lemma printed_buffer (message : ustring) (s : State) :
  output_buffer (fst (printed NFC message s))
  = output_buffer (fst s) ++ [NFC message].
Proof. reflexivity. Qed.

Lemma returns_print (message : ustring) :
  returns_or_raises (_print NFC message).
Proof.
  intros s; left; exists (printed NFC message s), [NFC message].
  split; [apply _print_eq | apply printed_buffer].
Qed.

Lemma returns_ret : returns_or_raises (ret tt).
Proof.
  intros s; left; exists s, []; split; [reflexivity|].
  now rewrite app_nil_r.
Qed.

(** A statement after a pure computation that leaves the state. *)
Lemma returns_after_pure {A} (m : M A) (k : A -> M unit) (f : State -> A) :
  (forall s, m s = (Ok (f s), s)) ->
  (forall a, returns_or_raises (k a)) ->
  returns_or_raises (bind m k).
Proof.
  intros Hm Hk s; rewrite (bind_Ok m k s s (f s) (Hm s)); apply Hk.
Qed.

Lemma returns_set_variables (name value : ustring) :
  returns_or_raises
    (bind get_self (fun self =>
       put_self (set_variables self
                   (set (variables self) name value)))).
Proof.
  intros s; left; eexists; exists []; split; [reflexivity|].
  simpl; now rewrite app_nil_r.
Qed.

Lemma returns_voice_speak (line : ustring) :
  returns_or_raises (_handle_voice_speak NFC line).
Proof.
  unfold _handle_voice_speak.
  destruct (contains (u "message:") line); [|apply returns_print].
  eapply returns_after_pure;
    [intros s; apply _substitute_variables_eq
    |intros a; apply returns_print].
Qed.

Lemma UnicodeEncodeError_message (prompt : ustring) :
  exists message, UnicodeEncodeError prompt = OtherException message.
Proof.
  unfold UnicodeEncodeError.
  destruct (first_surrogates prompt 0) as [[[badchar start] end_]|];
    eexists; reflexivity.
Qed.

Lemma returns_input_ask (line : ustring) :
  returns_or_raises (_handle_input_ask NFC line).
Proof.
  intros [i w]; unfold _handle_input_ask.
  rewrite (bind_Ok _ _ _ _ _ (_extract_string_arg_eq _ _ _)).
  unfold try_except_KeyboardInterrupt, bind at 1, py_input.
  match goal with
  | |- context [utf8_encodable ?p] =>
      destruct (utf8_encodable p);
        [|destruct (UnicodeEncodeError_message p) as [message ->];
          right; exists (OtherException message); eexists;
          split; reflexivity]
  end.
  destruct w as [[|[r|[| |msg]] rest] out]; cbn [stdin stdout fst snd].
  - right; exists EOFError; eexists; split; reflexivity.
  - destruct (contains (u "=") line).
    + left; eexists; exists []; split; [reflexivity|].
      simpl; now rewrite app_nil_r.
    + left; eexists; exists []; split; [reflexivity|].
      simpl; now rewrite app_nil_r.
  - right; exists EOFError; eexists; split; reflexivity.
  - left; eexists; eexists; split; [apply _print_eq|].
    apply printed_buffer.
  - right; exists (OtherException msg); eexists; split; reflexivity.
Qed.

Lemma returns_consent (line : ustring) :
  returns_or_raises (_handle_consent NFC line).
Proof.
  unfold _handle_consent.
  destruct (contains (u "consent.check(") line).
  - eapply returns_after_pure;
      [intros s; apply _extract_string_arg_eq|intros domain].
    eapply (returns_after_pure get_self _ fst);
      [reflexivity|intros self; apply returns_print].
  - destruct (contains (u "consent.request(") line);
      [|apply returns_ret].
    eapply returns_after_pure;
      [intros s; apply _extract_string_arg_eq|intros domain].
    intros s; left.
    exists (printed NFC
              (u "Requesting consent for '" ++ domain ++ u "': Granted")
              (set_consent_status (fst s)
                 (set (consent_status (fst s)) domain true), snd s)).
    eexists; split; [destruct s; reflexivity|].
    rewrite printed_buffer; reflexivity.
Qed.

Lemma returns_sacred_pause (line : ustring) :
  returns_or_raises (_handle_sacred_pause NFC line).
Proof.
  unfold _handle_sacred_pause.
  destruct (contains (u "sacred_pause.offer") line);
    [apply returns_print|].
  destruct (contains (u "sacred_pause.engage") line);
    [apply returns_print|apply returns_ret].
Qed.

Lemma returns_assignment (line : ustring) :
  returns_or_raises (_handle_assignment line).
Proof.
  unfold _handle_assignment.
  destruct (split1 61 line) as [|p0 [|p1 [|p2 ps]]];
    try apply returns_ret.
  apply returns_set_variables.
Qed.

(** Every line returns or raises an [Exception]; no line lets a
    [KeyboardInterrupt] out, and a line that raises has not touched
    the instance. *)
Lemma returns_execute_line (line : ustring) (n : nat) :
  returns_or_raises (_execute_line NFC line n).
Proof.
  unfold _execute_line.
  destruct (contains (u "output.print(") line).
  { eapply returns_after_pure;
      [intros s; apply _extract_string_arg_eq
      |intros a; apply returns_print]. }
  destruct (contains (u "@") line && contains (u ".speak") line);
    [apply returns_voice_speak|].
  destruct (contains (u "input.ask(") line);
    [apply returns_input_ask|].
  destruct (contains (u "consent.") line); [apply returns_consent|].
  destruct (contains (u "sacred_pause.") line);
    [apply returns_sacred_pause|].
  destruct (contains (u "=") line
            && negb (endswith (u "{") (strip line)));
    [apply returns_assignment|].
  destruct (startswith (u "ritual.") line); [apply returns_print|].
  destruct (eqb line (u "execute {")); [apply returns_print|].
  destruct (eqb line (u "complete {")); [apply returns_print|].
  destruct (existsb (eqb line)
              [u "look_in {"; u "spiral_up {"; u "flow_out {"]);
    [apply returns_print|apply returns_ret].
Qed.

End InterpreterFacts.

Section RunFacts.
Variable NFC : ustring -> ustring.

Lemma run_loop_skip (raw : ustring) (rest : list ustring) (n : nat)
    (s : State) :
  skipped raw = true ->
  run_loop NFC (raw :: rest) n s = run_loop NFC rest (S n) s.
Proof.
  intros H; cbn [run_loop].
  change (eqb (strip raw) [] || startswith (u "//") (strip raw))
    with (skipped raw).
  now rewrite H.
Qed.

Lemma run_loop_exec (raw : ustring) (rest : list ustring) (n : nat)
    (s : State) :
  skipped raw = false ->
  run_loop NFC (raw :: rest) n s
  = match _execute_line NFC (strip raw) n s with
    | (Ok _, s') => run_loop NFC rest (S n) s'
    | (Raise e, s') =>
        if is_Exception e then
          (Ok (Failure (u "Line " ++ str_of_nat n ++ u ": " ++ exn_str e)
                 (output_buffer (fst s'))), s')
        else (Raise e, s')
    end.
Proof.
  intros H; cbn [run_loop].
  change (eqb (strip raw) [] || startswith (u "//") (strip raw))
    with (skipped raw).
  now rewrite H.
Qed.

(** Lines that do not raise are passed one after the other. *)
Lemma run_loop_ok_prefix (pre : list ustring) (n : nat) (s s1 : State) :
  lines_ok NFC pre n s s1 ->
  forall rest,
    run_loop NFC (pre ++ rest) n s
    = run_loop NFC rest (length pre + n) s1.
Proof.
  induction 1 as [n s|raw pre n s s' Hskip _ IH
                 |raw pre n s s1 s' Hskip Hexec _ IH]; intros rest.
  - reflexivity.
  - rewrite <- app_comm_cons, run_loop_skip, IH by assumption.
    f_equal; simpl; lia.
  - rewrite <- app_comm_cons, run_loop_exec, Hexec, IH by assumption.
    f_equal; simpl; lia.
Qed.

Lemma run_loop_all_ok (lines : list ustring) (n : nat) (s s' : State) :
  lines_ok NFC lines n s s' ->
  run_loop NFC lines n s
  = (Ok (Success (output_buffer (fst s')) (variables (fst s'))), s').
Proof.
  intros H.
  rewrite <- (app_nil_r lines) at 1.
  rewrite (run_loop_ok_prefix _ _ _ _ H); reflexivity.
Qed.

(** Either no line raises, or there is a first line that does. *)
Lemma run_loop_total (lines : list ustring) :
  forall n s,
    (exists s', lines_ok NFC lines n s s') \/
    (exists pre raw post s1 e w2,
        lines = pre ++ raw :: post /\
        lines_ok NFC pre n s s1 /\
        skipped raw = false /\
        _execute_line NFC (strip raw) (length pre + n) s1
        = (Raise e, (fst s1, w2))).
Proof.
  induction lines as [|raw rest IH]; intros n s.
  - left; exists s; constructor.
  - destruct (skipped raw) eqn:Hskip.
    + destruct (IH (S n) s)
        as [[s' Hok]|(pre & r & post & s1 & e & w2 & -> & Hok & Hr & Hx)].
      * left; exists s'; now apply lines_ok_skip.
      * right; exists (raw :: pre), r, post, s1, e, w2.
        repeat split; [now apply lines_ok_skip|assumption|].
        replace (length (raw :: pre) + n)%nat
          with (length pre + S n)%nat by (simpl; lia).
        assumption.
    + destruct (returns_execute_line NFC (strip raw) n s)
        as [(s1 & ext & Hexec & _)|(e & w2 & Hexec & _)].
      * destruct (IH (S n) s1)
          as [[s' Hok]
             |(pre & r & post & s2 & e & w2 & -> & Hok & Hr & Hx)].
        -- left; exists s'; eapply lines_ok_exec; eassumption.
        -- right; exists (raw :: pre), r, post, s2, e, w2.
           repeat split;
             [eapply lines_ok_exec; eassumption|assumption|].
           replace (length (raw :: pre) + n)%nat
             with (length pre + S n)%nat by (simpl; lia).
           assumption.
      * right; exists [], raw, rest, s, e, w2.
        repeat split; [constructor|assumption|assumption].
Qed.

(** The buffer a run starts with is the beginning of its output. *)
Lemma lines_ok_buffer (lines : list ustring) (n : nat) (s s' : State) :
  lines_ok NFC lines n s s' ->
  exists ext, output_buffer (fst s') = output_buffer (fst s) ++ ext.
Proof.
  induction 1 as [n s|raw pre n s s' Hskip _ IH
                 |raw pre n s s1 s' Hskip Hexec _ IH].
  - exists []; now rewrite app_nil_r.
  - exact IH.
  - destruct (returns_execute_line NFC (strip raw) n s)
      as [(s1' & ext & Hexec' & Hbuf)|(e & w2 & Hexec' & _)];
      rewrite Hexec in Hexec'; [|discriminate].
    injection Hexec' as <-.
    destruct IH as [ext' IH]; exists (ext ++ ext').
    now rewrite IH, Hbuf, app_assoc.
Qed.

(** A run in which no line raises. *)
Lemma run_success (content : ustring) (s s' : State) :
  lines_ok NFC (split nl content) 1 s s' ->
  run NFC content s
  = (Ok (Success (output_buffer (fst s')) (variables (fst s'))), s').
Proof. intros H; now apply run_loop_all_ok. Qed.

(** A run in which the line after [pre] raises. *)
Lemma run_failure (content : ustring) (s s1 s2 : State)
    (pre post : list ustring) (raw : ustring) (e : exn) :
  split nl content = pre ++ raw :: post ->
  lines_ok NFC pre 1 s s1 ->
  skipped raw = false ->
  _execute_line NFC (strip raw) (S (length pre)) s1 = (Raise e, s2) ->
  run NFC content s
  = (Ok (Failure (u "Line " ++ str_of_nat (S (length pre)) ++ u ": "
                  ++ exn_str e)
           (output_buffer (fst s1))), s2)
  /\ fst s2 = fst s1.
Proof.
  intros Hsplit Hok Hskip Hexec.
  destruct (returns_execute_line NFC (strip raw) (S (length pre)) s1)
    as [(s1' & ext & Hexec' & _)|(e' & w2 & Hexec' & Hexn)];
    rewrite Hexec in Hexec'; [discriminate|].
  injection Hexec' as -> ->.
  split; [|reflexivity].
  unfold run.
  rewrite Hsplit, (run_loop_ok_prefix _ _ _ _ Hok), run_loop_exec
    by assumption.
  replace (length pre + 1)%nat with (S (length pre)) by lia.
  now rewrite Hexec, Hexn.
Qed.

(** One of the two always is the case. *)
Lemma run_total (content : ustring) (s : State) :
  (exists s', lines_ok NFC (split nl content) 1 s s') \/
  (exists pre raw post s1 e s2,
      split nl content = pre ++ raw :: post /\
      lines_ok NFC pre 1 s s1 /\
      skipped raw = false /\
      _execute_line NFC (strip raw) (S (length pre)) s1 = (Raise e, s2)).
Proof.
  destruct (run_loop_total (split nl content) 1 s)
    as [Hok|(pre & raw & post & s1 & e & w2 & Hl & Hok & Hr & Hx)].
  - left; exact Hok.
  - right; exists pre, raw, post, s1, e, (fst s1, w2).
    replace (length pre + 1)%nat with (S (length pre)) in Hx by lia.
    repeat split; assumption.
Qed.

(** The output of a run begins with the buffer it started from. *)
Lemma run_output_extends (content : ustring) (s : State) :
  exists r s' ext,
    run NFC content s = (Ok r, s') /\
    result_output r = output_buffer (fst s) ++ ext.
Proof.
  destruct (run_total content s)
    as [[s' Hlines]
       |(pre & raw & post & s1 & e & s2 & Hl & Hlines & Hskip & Hexec)].
  - destruct (lines_ok_buffer _ _ _ _ Hlines) as [ext Hext].
    eexists; exists s', ext; split; [apply run_success, Hlines|exact Hext].
  - destruct (run_failure _ _ _ _ _ _ _ _ Hl Hlines Hskip Hexec)
      as [Hrun _].
    destruct (lines_ok_buffer _ _ _ _ Hlines) as [ext Hext].
    eexists; exists s2, ext; split; [exact Hrun|exact Hext].
Qed.

Lemma get_set_same {V} (d : dict V) (k : ustring) (v : V) :
  get (set d k v) k = Some v.
Proof.
  induction d as [|[k' v'] d IH]; simpl.
  - now rewrite ustring_eqb_refl.
  - destruct (eqb k' k) eqn:E; simpl; now rewrite E.
Qed.

Lemma substitute_one_spec (text name value : ustring) :
  substitute_one text (name, value)
  = replace name value (replace (u "{" ++ name ++ u "}") value text).
Proof.
  unfold substitute_one.
  assert (H1 : (if contains (u "{" ++ name ++ u "}") text
                then replace (u "{" ++ name ++ u "}") value text
                else text)
               = replace (u "{" ++ name ++ u "}") value text).
  { destruct (contains (u "{" ++ name ++ u "}") text) eqn:E;
      [reflexivity|now rewrite replace_absent]. }
  rewrite H1.
  destruct (contains name _) eqn:E;
    [reflexivity|now rewrite (replace_absent name)].
Qed.

Lemma fold_substitute_one (vars : dict ustring) (text : ustring) :
  fold_left substitute_one vars text = substituteVariables vars text.
Proof.
  unfold substituteVariables.
  revert text; induction vars as [|[name value] vars IH]; intros text.
  - reflexivity.
  - cbn [fold_left fst snd]; rewrite substitute_one_spec; apply IH.
Qed.

Lemma unquote_quoted (d : ustring) : unquote (dq ++ d ++ dq) = d.
Proof.
  unfold unquote.
  assert (Hs : startswith dq (dq ++ d ++ dq) = true)
    by apply startswith_self_app.
  assert (He : endswith dq (dq ++ d ++ dq) = true).
  { unfold endswith; rewrite !rev_app_distr, <- app_assoc.
    apply startswith_self_app. }
  rewrite Hs, He; cbn [andb].
  rewrite slice_to_last by lia.
  rewrite app_assoc, removelast_app by discriminate.
  simpl; now rewrite app_nil_r.
Qed.

Lemma extracted_arg_quoted (vars : dict ustring) (f d : ustring) :
  extracted_arg vars (f ++ u "(" ++ dq ++ d ++ dq ++ u ")") f
  = substituteVariables vars d.
Proof.
  unfold extracted_arg.
  rewrite fold_substitute_one; f_equal.
  replace (f ++ u "(" ++ dq ++ d ++ dq ++ u ")")
    with ((f ++ u "(") ++ (dq ++ d ++ dq) ++ u ")")
    by (now rewrite <- !app_assoc).
  rewrite find_prefix, Z.add_0_l.
  assert (Hr : rfind (u ")") ((f ++ u "(") ++ (dq ++ d ++ dq) ++ u ")")
               = len (f ++ u "(") + len (dq ++ d ++ dq)).
  { unfold rfind. change (u ")") with [41].
    rewrite app_assoc, rfind_aux_last.
    unfold len; rewrite length_app; lia. }
  rewrite Hr, slice_middle.
  change (dq ++ d ++ dq) with (34 :: d ++ [34]) at 1.
  rewrite strip_no_space_ends by reflexivity.
  apply unquote_quoted.
Qed.

Lemma plain_domain_inv (d : ustring) :
  plain_domain d = true -> occurs 40 d = false /\ occurs 64 d = false.
Proof.
  unfold plain_domain; intros H; apply andb_true_iff in H as [H1 H2].
  now apply negb_true_iff in H1; apply negb_true_iff in H2.
Qed.

(** The statement [f("d")] of a plain domain holds no statement name
    [g(] other than names that end [f]. *)
Lemma call_line_contains (f g d : ustring) :
  occurs 40 f = false -> occurs 40 d = false ->
  contains (g ++ u "(") (f ++ u "(" ++ dq ++ d ++ dq ++ u ")")
  = true ->
  endswith g f = true.
Proof.
  intros Hf Hd H.
  apply (contains_unique 40 g f (dq ++ d ++ dq ++ u ")")); auto.
  rewrite !occurs_app, Hd; reflexivity.
Qed.

Lemma call_line_lacks (f g d : ustring) :
  occurs 40 f = false -> occurs 40 d = false ->
  endswith g f = false ->
  contains (g ++ u "(") (f ++ u "(" ++ dq ++ d ++ dq ++ u ")") = false.
Proof.
  intros Hf Hd Hg.
  destruct (contains (g ++ u "(") _) eqn:E; [|reflexivity].
  apply call_line_contains in E; auto; congruence.
Qed.

Lemma call_line_no_at (f d : ustring) :
  occurs 64 f = false -> occurs 64 d = false ->
  contains (u "@") (f ++ u "(" ++ dq ++ d ++ dq ++ u ")") = false.
Proof.
  intros Hf Hd.
  destruct (contains _ _) eqn:H; [|reflexivity].
  assert (Hc : occurs 64 (f ++ u "(" ++ dq ++ d ++ dq ++ u ")") = true)
    by (eapply contains_occurs; [exact H|reflexivity]).
  rewrite !occurs_app, Hf, Hd in Hc; discriminate.
Qed.

Lemma check_line_reaches_handler (d : ustring) :
  plain_domain d = true ->
  reaches_consent_handler (consent_check_line d) = true /\
  contains (u "consent.check(") (consent_check_line d) = true.
Proof.
  intros Hd; apply plain_domain_inv in Hd as [Hp Ha].
  unfold reaches_consent_handler.
  change (consent_check_line d)
    with (u "consent.check" ++ u "(" ++ dq ++ d ++ dq ++ u ")").
  assert (H1 : contains (u "output.print(")
                 (u "consent.check" ++ u "(" ++ dq ++ d ++ dq ++ u ")")
               = false)
    by exact (call_line_lacks (u "consent.check") (u "output.print") d eq_refl Hp eq_refl).
  assert (H2 : contains (u "input.ask(")
                 (u "consent.check" ++ u "(" ++ dq ++ d ++ dq ++ u ")")
               = false)
    by exact (call_line_lacks (u "consent.check") (u "input.ask") d eq_refl Hp eq_refl).
  rewrite H1, H2, call_line_no_at by auto.
  split; [|apply contains_startswith; reflexivity].
  apply contains_startswith; reflexivity.
Qed.

Lemma request_line_reaches_handler (d : ustring) :
  plain_domain d = true ->
  reaches_consent_handler (consent_request_line d) = true /\
  contains (u "consent.check(") (consent_request_line d) = false /\
  contains (u "consent.request(") (consent_request_line d) = true.
Proof.
  intros Hd; apply plain_domain_inv in Hd as [Hp Ha].
  unfold reaches_consent_handler.
  change (consent_request_line d)
    with (u "consent.request" ++ u "(" ++ dq ++ d ++ dq ++ u ")").
  assert (H1 : contains (u "output.print(")
                 (u "consent.request" ++ u "(" ++ dq ++ d ++ dq ++ u ")")
               = false)
    by exact (call_line_lacks (u "consent.request") (u "output.print") d eq_refl Hp eq_refl).
  assert (H2 : contains (u "input.ask(")
                 (u "consent.request" ++ u "(" ++ dq ++ d ++ dq ++ u ")")
               = false)
    by exact (call_line_lacks (u "consent.request") (u "input.ask") d eq_refl Hp eq_refl).
  assert (H3 : contains (u "consent.check(")
                 (u "consent.request" ++ u "(" ++ dq ++ d ++ dq ++ u ")")
               = false)
    by exact (call_line_lacks (u "consent.request") (u "consent.check") d eq_refl Hp eq_refl).
  rewrite H1, H2, H3, call_line_no_at by auto.
  repeat split; apply contains_startswith; reflexivity.
Qed.

(** The sample runs of the specification. *)
Example run_hello :
  fst (run nfc_inert (u "output.print(" ++ dq ++ u "Hello" ++ dq ++ u ")")
         fresh)
  = Ok (Success [u "Hello"] []).
Proof. vm_compute; reflexivity. Qed.

Example run_input_ask :
  let program := u "name = input.ask(" ++ dq ++ u "Who" ++ dq ++ u ")"
                 ++ [nl] ++ u "output.print(Hi {name})" in
  let typed := (new_interp [],
                {| stdin := [Typed (u "Ann")]; stdout := [] |}) in
  let interrupted := (new_interp [],
                      {| stdin := [Raises KeyboardInterrupt];
                         stdout := [] |}) in
  fst (run nfc_inert program typed)
  = Ok (Success [u "Hi Ann"] [(u "name", u "Ann")]) /\
  fst (run nfc_inert program interrupted)
  = Ok (Success [nl :: u "Input cancelled by user"; u "Hi {name}"] []) /\
  fst (run nfc_inert program fresh)
  = Ok (Failure (u "Line 1: EOF when reading a line") []).
Proof. repeat split; vm_compute; reflexivity. Qed.

End RunFacts.

(** C1. The line the module presents as the anger spine compiles to a
    voice invocation, and interpreting that binds nothing. *)
Lemma anger_line_compiles_to_voice_invocation :
  let compiled := compile_emoji_line nfc_inert new_compiler anger_line in
  compiled = u "@healer.assess(user.emotional_state)" /\
  fst (run nfc_inert compiled fresh) = Ok (Success [] []) /\
  variables (fst (snd (run nfc_inert compiled fresh))) = [].
Proof. repeat split; vm_compute; reflexivity. Qed.

(** C1, as the code has it. Rendered by [to_spirallogic], the anger
    spine (anchor fire, tempo zap, intent anger bubble) is one line that
    assigns "anger", "urgent" and "speak_truth" to
    [user.emotional_state], [user.tempo] and [user.intent], by the
    three tables. The line interpreter takes that line as a single
    assignment, split at the first [=]: it binds
    [user.emotional_state] alone, to the rest of the line without its
    outer quotes, and prints nothing. *)
Theorem anger_spine_rendered_and_interpreted
    (NFC : ustring -> ustring) (opts : dict ustring) (w : World) :
  to_spirallogic anger_spine
  = u "user.emotional_state = " ++ dq ++ u "anger" ++ dq ++
    u "; user.tempo = " ++ dq ++ u "urgent" ++ dq ++
    u "; user.intent = " ++ dq ++ u "speak_truth" ++ dq
  /\ run NFC (to_spirallogic anger_spine) (new_interp opts, w)
     = (Ok (Success []
              [(u "user.emotional_state",
                u "anger" ++ dq ++ u "; user.tempo = " ++ dq ++
                u "urgent" ++ dq ++ u "; user.intent = " ++ dq ++
                u "speak_truth")]),
        (set_variables (new_interp opts)
           [(u "user.emotional_state",
             u "anger" ++ dq ++ u "; user.tempo = " ++ dq ++
             u "urgent" ++ dq ++ u "; user.intent = " ++ dq ++
             u "speak_truth")],
         w)).
Proof. destruct w; split; vm_compute; reflexivity. Qed.

(** C3. A run whose second line raises: the dict it returns has the
    error and the output and no variable map, while the instance keeps
    the binding of the first line. *)
Lemma failed_run_returns_no_variables :
  let program := u "x = 1" ++ [nl] ++ u "name = input.ask(q)" in
  fst (run nfc_inert program fresh)
  = Ok (Failure (u "Line 2: EOF when reading a line") []) /\
  result_variables (Failure (u "Line 2: EOF when reading a line") [])
  = None /\
  variables (fst (snd (run nfc_inert program fresh))) = [(u "x", u "1")].
Proof. repeat split; vm_compute; reflexivity. Qed.

(** C3, as the code has it. [run] always returns. When no line raises,
    the result has success, the whole output buffer and the final
    variable map. When a line raises, [run] returns at once a result
    with the error "Line k: message", k the 1-based number of the
    line, and the output buffer; that result has no variable map. The
    instance is then as the lines before k left it, nothing is rolled
    back. One of the two always applies. *)
Theorem run_outcome (NFC : ustring -> ustring) (content : ustring)
    (s : State) :
  let lines := split nl content in
  (forall s',
      lines_ok NFC lines 1 s s' ->
      run NFC content s
      = (Ok (Success (output_buffer (fst s')) (variables (fst s'))), s'))
  /\ (forall pre raw post s1 e s2,
        lines = pre ++ raw :: post ->
        lines_ok NFC pre 1 s s1 ->
        skipped raw = false ->
        _execute_line NFC (strip raw) (S (length pre)) s1 = (Raise e, s2) ->
        let r := Failure (u "Line " ++ str_of_nat (S (length pre)) ++
                          u ": " ++ exn_str e)
                   (output_buffer (fst s1)) in
        run NFC content s = (Ok r, s2) /\
        fst s2 = fst s1 /\
        result_variables r = None)
  /\ ((exists s', lines_ok NFC lines 1 s s') \/
      (exists pre raw post s1 e s2,
          lines = pre ++ raw :: post /\
          lines_ok NFC pre 1 s s1 /\
          skipped raw = false /\
          _execute_line NFC (strip raw) (S (length pre)) s1
          = (Raise e, s2))).
Proof.
  intros lines; split; [|split].
  - intros s' H; now apply run_success.
  - intros pre raw post s1 e s2 Hsplit Hok Hskip Hexec r.
    destruct (run_failure NFC content s s1 s2 pre post raw e
                Hsplit Hok Hskip Hexec) as [Hrun Hself].
    repeat split; assumption.
  - apply run_total.
Qed.

Lemma run_outcome_witness :
  let program := u "x = 1" ++ [nl] ++ u "name = input.ask(q)" in
  let s1 := (set_variables (new_interp []) [(u "x", u "1")],
             empty_world) in
  let s2 := (fst s1, {| stdin := []; stdout := [u "q: "] |}) in
  run nfc_inert program fresh
  = (Ok (Failure (u "Line " ++ str_of_nat 2 ++ u ": "
                  ++ exn_str EOFError) []), s2)
  /\ fst s2 = fst s1.
Proof.
  intros program s1 s2.
  destruct (run_outcome nfc_inert program fresh) as [_ [Hfail _]].
  destruct (Hfail [u "x = 1"] (u "name = input.ask(q)") [] s1 EOFError s2)
    as [Hrun [Hself _]].
  - reflexivity.
  - apply lines_ok_exec with (s1 := s1);
      [reflexivity|vm_compute; reflexivity|constructor].
  - reflexivity.
  - vm_compute; reflexivity.
  - split; [exact Hrun|exact Hself].
Defined.

(** The consent statements on any line that reaches the handler: the
    domain is the extracted argument. *)
Lemma execute_consent_check
    (NFC : ustring -> ustring) (line : ustring) (n : nat) (s : State) :
  reaches_consent_handler line = true ->
  contains (u "consent.check(") line = true ->
  let domain :=
    extracted_arg (variables (fst s)) line (u "consent.check") in
  let granted := get_default (consent_status (fst s)) domain true in
  _execute_line NFC line n s
  = (Ok tt,
     printed NFC
       (u "Checking consent for '" ++ domain ++ u "': " ++
        (if granted then u "Granted" else u "Denied")) s).
Proof.
  unfold reaches_consent_handler; intros H Hcheck.
  apply andb_true_iff in H as [H Hconsent].
  apply andb_true_iff in H as [H Hask].
  apply andb_true_iff in H as [Hprint Hspeak].
  apply negb_true_iff in Hprint, Hspeak, Hask.
  unfold _execute_line, _handle_consent.
  rewrite Hprint, Hspeak, Hask, Hconsent, Hcheck.
  destruct s as [i w]; reflexivity.
Qed.

Lemma execute_consent_request
    (NFC : ustring -> ustring) (line : ustring) (n : nat) (s : State) :
  reaches_consent_handler line = true ->
  contains (u "consent.check(") line = false ->
  contains (u "consent.request(") line = true ->
  let domain :=
    extracted_arg (variables (fst s)) line (u "consent.request") in
  _execute_line NFC line n s
  = (Ok tt,
     printed NFC
       (u "Requesting consent for '" ++ domain ++ u "': Granted")
       (set_consent_status (fst s)
          (set (consent_status (fst s)) domain true), snd s)).
Proof.
  unfold reaches_consent_handler; intros H Hcheck Hrequest.
  apply andb_true_iff in H as [H Hconsent].
  apply andb_true_iff in H as [H Hask].
  apply andb_true_iff in H as [Hprint Hspeak].
  apply negb_true_iff in Hprint, Hspeak, Hask.
  unfold _execute_line, _handle_consent.
  rewrite Hprint, Hspeak, Hask, Hconsent, Hcheck, Hrequest.
  destruct s as [i w]; reflexivity.
Qed.

Lemma consent_check_line_form (domain : ustring) :
  consent_check_line domain
  = u "consent.check" ++ u "(" ++ dq ++ domain ++ dq ++ u ")".
Proof. reflexivity. Qed.

Lemma consent_request_line_form (domain : ustring) :
  consent_request_line domain
  = u "consent.request" ++ u "(" ++ dq ++ domain ++ dq ++ u ")".
Proof. reflexivity. Qed.

(** C8. [_substitute_variables] goes through the bound variables in
    the order they were first bound and, for each, replaces the
    placeholder [{name}] and then every bare occurrence of the name by
    the value. After [user.name = "Ann"], the line
    [output.print(user.name)] prints Ann (normalised). *)
Theorem substitute_variables_spec
    (NFC : ustring -> ustring) (text : ustring) (s : State)
    (opts : dict ustring) (w : World) :
  _substitute_variables text s
  = (Ok (substituteVariables (variables (fst s)) text), s)
  /\ substituteVariables [(u "user.name", u "Ann")]
       (u "{user.name} is user.name")
     = u "Ann is Ann"
  /\ fst (run NFC
            (u "user.name = " ++ dq ++ u "Ann" ++ dq ++ [nl] ++
             u "output.print(user.name)")
            (new_interp opts, w))
     = Ok (Success [NFC (u "Ann")] [(u "user.name", u "Ann")]).
Proof.
  split; [|split].
  - rewrite _substitute_variables_eq, fold_substitute_one; reflexivity.
  - vm_compute; reflexivity.
  - destruct w; vm_compute; reflexivity.
Qed.

(** C10. On a line without [)] the printed text is not the slice up to
    the last character as it stands: its surrounding whitespace is
    removed first. *)
Lemma output_print_strips_whitespace :
  let line := u "output.print(hi x" in
  contains (u "output.print(") line = true /\
  contains (u ")") line = false /\
  substituteVariables []
    (unquote (skipn 13 (removelast line))) = u "hi " /\
  fst (run nfc_inert line fresh) = Ok (Success [u "hi"] []).
Proof. repeat split; vm_compute; reflexivity. Qed.

(** C10, as the code has it. A line that holds [output.print(] and no
    [)] does not raise: [rfind] gives -1, the argument is the text from
    just after [output.print(] up to but without the last code point of
    the line, with surrounding whitespace removed; after the removal of
    outer quotes and the substitution of variables it is normalised,
    printed and appended to the buffer, and the run goes on to the next
    line. *)
Theorem output_print_without_paren
    (NFC : ustring -> ustring) (line : ustring) (n : nat) (s : State) :
  contains (u "output.print(") line = true ->
  contains (u ")") line = false ->
  let start := find (u "output.print(") line + 13 in
  let text := skipn (Z.to_nat start) (removelast line) in
  let message :=
    substituteVariables (variables (fst s)) (unquote (strip text)) in
  _execute_line NFC line n s = (Ok tt, printed NFC message s)
  /\ output_buffer (fst (printed NFC message s))
     = output_buffer (fst s) ++ [NFC message]
  /\ (forall raw rest,
        strip raw = line ->
        run_loop NFC (raw :: rest) n s
        = run_loop NFC rest (S n)
            (if skipped raw then s else printed NFC message s)).
Proof.
  intros Hprint Hparen start text message.
  assert (Hexec : _execute_line NFC line n s
                  = (Ok tt, printed NFC message s)).
  { unfold _execute_line; rewrite Hprint.
    rewrite (bind_Ok _ _ _ _ _ (_extract_string_arg_eq _ _ _)), _print_eq.
    unfold extracted_arg.
    rewrite (rfind_absent _ _ Hparen), fold_substitute_one.
    change (len (u "output.print" ++ u "(")) with 13.
    change (u "output.print" ++ u "(") with (u "output.print(").
    rewrite slice_to_last
      by (pose proof (find_nonneg _ _ Hprint); lia).
    reflexivity. }
  repeat split; [exact Hexec|].
  intros raw rest Hline.
  destruct (skipped raw) eqn:Hskip.
  - now apply run_loop_skip.
  - rewrite run_loop_exec, Hline, Hexec by assumption; reflexivity.
Qed.

Lemma output_print_without_paren_witness :
  let line := u "output.print(hi x" in
  _execute_line nfc_inert line 1 fresh
  = (Ok tt, printed nfc_inert (u "hi") fresh).
Proof.
  intros line.
  destruct (output_print_without_paren nfc_inert line 1 fresh)
    as [Hexec _]; [reflexivity|reflexivity|].
  exact Hexec.
Defined.

(* ================================================================= *)
(** * Further properties of the line interpreter *)

Section EffectFacts.
Variable NFC : ustring -> ustring.

(** Every line has one of the effects of [line_effect]. *)
Lemma execute_line_effect (line : ustring) (n : nat) (s : State) :
  line_effect NFC line s (_execute_line NFC line n s).
Proof.
  unfold _execute_line.
  destruct (contains (u "output.print(") line) eqn:Hprint.
  { rewrite (bind_Ok _ _ _ _ _ (_extract_string_arg_eq _ _ _)), _print_eq.
    constructor. }
  destruct (contains (u "@") line && contains (u ".speak") line)
    eqn:Hspeak.
  { unfold _handle_voice_speak.
    destruct (contains (u "message:") line).
    - rewrite (bind_Ok _ _ _ _ _ (_substitute_variables_eq _ _)), _print_eq.
      constructor.
    - rewrite _print_eq; constructor. }
  destruct (contains (u "input.ask(") line) eqn:Hask.
  { assert (Hin : asks_input line = true)
      by (unfold asks_input; now rewrite Hprint, Hspeak, Hask).
    unfold _handle_input_ask.
    rewrite (bind_Ok _ _ _ _ _ (_extract_string_arg_eq _ _ _)).
    unfold try_except_KeyboardInterrupt, bind at 1, py_input.
    match goal with
    | |- context [utf8_encodable ?p] =>
        destruct (utf8_encodable p);
          [|destruct (UnicodeEncodeError_message p) as [message ->];
            destruct s as [i w];
            now apply (effect_input_raise NFC line (i, w)
                         (OtherException message) w)]
    end.
    destruct s as [i [[|[r|[| |msg]] rest] out]];
      cbn [stdin stdout fst snd].
    - match goal with |- line_effect _ _ ?st _ =>
        now apply (effect_input_raise NFC line st EOFError) end.
    - destruct (contains (u "=") line) eqn:Heq.
      + match goal with |- line_effect _ _ ?st _ =>
          now apply (effect_input_bind NFC line st) end.
      + match goal with |- line_effect _ _ ?st _ =>
          now apply (effect_input_drop NFC line st) end.
    - match goal with |- line_effect _ _ ?st _ =>
        now apply (effect_input_raise NFC line st EOFError) end.
    - rewrite _print_eq.
      match goal with |- line_effect _ _ ?st _ =>
        now apply (effect_input_interrupt NFC line st) end.
    - match goal with |- line_effect _ _ ?st _ =>
        now apply (effect_input_raise NFC line st (OtherException msg))
      end. }
  destruct (contains (u "consent.") line).
  { unfold _handle_consent.
    destruct (contains (u "consent.check(") line).
    - rewrite (bind_Ok _ _ _ _ _ (_extract_string_arg_eq _ _ _)).
      destruct s as [i w]; apply (effect_print NFC line (i, w)).
    - destruct (contains (u "consent.request(") line) eqn:Hreq;
        [|constructor].
      rewrite (bind_Ok _ _ _ _ _ (_extract_string_arg_eq _ _ _)).
      destruct s as [i w].
      now apply (effect_request NFC line (i, w)). }
  destruct (contains (u "sacred_pause.") line).
  { unfold _handle_sacred_pause.
    destruct (contains (u "sacred_pause.offer") line);
      [rewrite _print_eq; constructor|].
    destruct (contains (u "sacred_pause.engage") line);
      [rewrite _print_eq; constructor|constructor]. }
  destruct (contains (u "=") line
            && negb (endswith (u "{") (strip line))) eqn:Heq.
  { apply andb_true_iff in Heq as [Heq _].
    unfold _handle_assignment.
    destruct (split1 61 line) as [|p0 [|p1 [|p2 ps]]];
      [apply effect_none|apply effect_none| |apply effect_none].
    destruct s as [i w]; now apply (effect_assign NFC line (i, w)). }
  destruct (startswith (u "ritual.") line);
    [rewrite _print_eq; constructor|].
  destruct (eqb line (u "execute {"));
    [rewrite _print_eq; constructor|].
  destruct (eqb line (u "complete {"));
    [rewrite _print_eq; constructor|].
  destruct (existsb (eqb line)
              [u "look_in {"; u "spiral_up {"; u "flow_out {"]);
    [rewrite _print_eq; constructor|constructor].
Qed.

(** A line that does not reach [input()] returns and leaves the
    input where it is. *)
Lemma quiet_line (line : ustring) (n : nat) (s : State) :
  asks_input line = false ->
  exists s',
    _execute_line NFC line n s = (Ok tt, s') /\
    stdin (snd s') = stdin (snd s).
Proof.
  intros Hno.
  pose proof (execute_line_effect line n s) as E.
  destruct (_execute_line NFC line n s) as [r s'].
  inversion E; subst; try congruence; eexists; split; reflexivity.
Qed.

Lemma lines_without_input_ok (lines : list ustring) :
  forallb no_input_line lines = true ->
  forall n s,
    exists s',
      lines_ok NFC lines n s s' /\ stdin (snd s') = stdin (snd s).
Proof.
  induction lines as [|raw rest IH]; intros H n s.
  - exists s; split; [constructor|reflexivity].
  - cbn [forallb] in H; apply andb_true_iff in H as [Hraw Hrest].
    destruct (skipped raw) eqn:Hskip.
    + destruct (IH Hrest (S n) s) as (s' & Hok & Hin).
      exists s'; split; [now apply lines_ok_skip|exact Hin].
    + unfold no_input_line in Hraw; rewrite Hskip in Hraw.
      apply negb_true_iff in Hraw.
      destruct (quiet_line (strip raw) n s Hraw) as (s1 & Hexec & Hin1).
      destruct (IH Hrest (S n) s1) as (s' & Hok & Hin).
      exists s'; split; [eapply lines_ok_exec; eassumption|congruence].
Qed.

Lemma all_granted_set (c : dict bool) (d : ustring) :
  all_granted c = true -> all_granted (set c d true) = true.
Proof.
  unfold all_granted; induction c as [|[k v] c IH]; simpl;
    [reflexivity|].
  intros H; apply andb_true_iff in H as [Hv Hc].
  destruct (eqb k d); simpl; [exact Hc|].
  now rewrite Hv, IH.
Qed.

Lemma all_granted_get (c : dict bool) (d : ustring) :
  all_granted c = true -> get_default c d true = true.
Proof.
  unfold all_granted, get_default; induction c as [|[k v] c IH]; simpl;
    [reflexivity|].
  intros H; apply andb_true_iff in H as [Hv Hc].
  destruct (eqb k d); auto.
Qed.

Lemma execute_line_all_granted (line : ustring) (n : nat) (s : State) :
  all_granted (consent_status (fst s)) = true ->
  all_granted (consent_status (fst (snd (_execute_line NFC line n s))))
  = true.
Proof.
  intros H.
  pose proof (execute_line_effect line n s) as E.
  destruct (_execute_line NFC line n s) as [r s'].
  inversion E; subst; cbn [fst snd printed set_consent_status
    set_variables set_output_buffer consent_status]; try exact H.
  now apply all_granted_set.
Qed.

Lemma lines_ok_all_granted (lines : list ustring) (n : nat)
    (s s' : State) :
  lines_ok NFC lines n s s' ->
  all_granted (consent_status (fst s)) = true ->
  all_granted (consent_status (fst s')) = true.
Proof.
  induction 1 as [n s|raw pre n s s' Hskip _ IH
                 |raw pre n s s1 s' Hskip Hexec _ IH]; intros H; auto.
  apply IH.
  pose proof (execute_line_all_granted (strip raw) n s H) as H1.
  now rewrite Hexec in H1.
Qed.

End EffectFacts.

(** X1. A program in which no line reaches the [input.ask] handler
    cannot fail: [run] returns success with the whole output buffer
    and the final variable map, and standard input is left unread. *)
Theorem run_without_input_succeeds
    (NFC : ustring -> ustring) (content : ustring) (s : State) :
  forallb no_input_line (split nl content) = true ->
  exists s',
    run NFC content s
    = (Ok (Success (output_buffer (fst s')) (variables (fst s'))), s')
    /\ lines_ok NFC (split nl content) 1 s s'
    /\ stdin (snd s') = stdin (snd s).
Proof.
  intros H.
  destruct (lines_without_input_ok NFC _ H 1 s) as (s' & Hok & Hin).
  exists s'; repeat split; [now apply run_success|exact Hok|exact Hin].
Qed.

Lemma run_without_input_succeeds_witness :
  let program := u "execute {" ++ [nl] ++ u "  // greet" ++ [nl] ++
                 u "  output.print(input.ask(x))" ++ [nl] ++ u "}" in
  let s := (new_interp [], {| stdin := [Typed (u "Ann")]; stdout := [] |}) in
  exists s',
    run nfc_inert program s
    = (Ok (Success (output_buffer (fst s')) (variables (fst s'))), s')
    /\ lines_ok nfc_inert (split nl program) 1 s s'
    /\ stdin (snd s') = stdin (snd s).
Proof.
  intros program s.
  apply (run_without_input_succeeds nfc_inert program s).
  vm_compute; reflexivity.
Defined.

(** X2. The interpreter never stores a denial. If the consent map
    holds no denial before a run, it holds none after it, however the
    run ends, and every [consent.check] line executed then prints
    Granted. *)
Theorem consent_never_denied
    (NFC : ustring -> ustring) (content : ustring) (s : State) :
  all_granted (consent_status (fst s)) = true ->
  let s' := snd (run NFC content s) in
  all_granted (consent_status (fst s')) = true
  /\ forall line n,
       reaches_consent_handler line = true ->
       contains (u "consent.check(") line = true ->
       _execute_line NFC line n s'
       = (Ok tt,
          printed NFC
            (u "Checking consent for '" ++
             extracted_arg (variables (fst s')) line (u "consent.check")
             ++ u "': Granted") s').
Proof.
  intros H s'.
  assert (Hs' : all_granted (consent_status (fst s')) = true).
  { unfold s'.
    destruct (run_total NFC content s)
      as [[s1 Hlines]
         |(pre & raw & post & s1 & e & s2 & Hl & Hlines & Hskip & Hexec)].
    - rewrite (run_success NFC content s s1 Hlines); cbn [snd].
      eapply lines_ok_all_granted; eassumption.
    - destruct (run_failure NFC _ _ _ _ _ _ _ _ Hl Hlines Hskip Hexec)
        as [Hrun Hself].
      rewrite Hrun; cbn [snd]; rewrite Hself.
      eapply lines_ok_all_granted; eassumption. }
  split; [exact Hs'|].
  intros line n Hreach Hcheck.
  rewrite (execute_consent_check NFC line n s' Hreach Hcheck).
  now rewrite (all_granted_get _ _ Hs').
Qed.

Lemma consent_never_denied_witness :
  let program := consent_request_line (u "memory") ++ [nl] ++
                 u "consent.deny(" ++ dq ++ u "memory" ++ dq ++ u ")" in
  let s' := snd (run nfc_inert program fresh) in
  all_granted (consent_status (fst s')) = true
  /\ _execute_line nfc_inert (consent_check_line (u "memory")) 3 s'
     = (Ok tt,
        printed nfc_inert (u "Checking consent for 'memory': Granted") s').
Proof.
  intros program s'.
  destruct (consent_never_denied nfc_inert program fresh eq_refl)
    as [Hall Hcheck].
  split; [exact Hall|].
  apply (Hcheck (consent_check_line (u "memory")) 3%nat);
    vm_compute; reflexivity.
Defined.

(** X3. What a line can touch. A line without [=] leaves the variable
    map as it is, a line without [consent.request(] leaves the consent
    map as it is, and no line changes the options; the output buffer
    is only ever extended, by at most one message. *)
Theorem execute_line_frame
    (NFC : ustring -> ustring) (line : ustring) (n : nat) (s : State) :
  let s' := snd (_execute_line NFC line n s) in
  (contains (u "=") line = false ->
   variables (fst s') = variables (fst s))
  /\ (contains (u "consent.request(") line = false ->
      consent_status (fst s') = consent_status (fst s))
  /\ options (fst s') = options (fst s)
  /\ (output_buffer (fst s') = output_buffer (fst s) \/
      exists message,
        output_buffer (fst s')
        = output_buffer (fst s) ++ [NFC message]).
Proof.
  intros s'; unfold s'.
  pose proof (execute_line_effect NFC line n s) as E.
  destruct (_execute_line NFC line n s) as [r s1].
  inversion E; subst;
    cbn [fst snd printed set_consent_status set_variables
         set_output_buffer variables consent_status options
         output_buffer];
    repeat split; try congruence; try (now left);
    try (right; eexists; reflexivity).
Qed.

Lemma execute_line_frame_witness :
  let s := (set_variables (new_interp []) [(u "x", u "1")], empty_world) in
  variables (fst (snd (_execute_line nfc_inert
                         (u "sacred_pause.offer { x }") 1 s)))
  = [(u "x", u "1")].
Proof.
  intros s.
  destruct (execute_line_frame nfc_inert (u "sacred_pause.offer { x }")
              1 s) as [Hvars _].
  apply Hvars; reflexivity.
Defined.

Section MoreStrFacts.

Lemma startswith_split (p s : ustring) :
  startswith p s = true -> exists y, s = p ++ y.
Proof.
  revert s; induction p as [|x p IH]; intros s H.
  - exists s; reflexivity.
  - destruct s as [|c s]; [discriminate H|].
    simpl in H; apply andb_true_iff in H as [Hx Hr].
    apply Z.eqb_eq in Hx; subst c.
    destruct (IH s Hr) as [y ->]; exists y; reflexivity.
Qed.

(** [p in s] holds exactly when [s] is some text, [p], some text. *)
Lemma contains_iff (p s : ustring) :
  contains p s = true <-> exists x y, s = x ++ p ++ y.
Proof.
  split.
  - induction s as [|c s IH]; intros H.
    + simpl in H; rewrite orb_false_r in H.
      destruct (startswith_split _ _ H) as [y Hy]; exists [], y; exact Hy.
    + rewrite contains_cons in H; apply orb_true_iff in H as [H|H].
      * destruct (startswith_split _ _ H) as [y Hy]; exists [], y; exact Hy.
      * destruct (IH H) as (x & y & ->); exists (c :: x), y; reflexivity.
  - intros (x & y & ->); induction x as [|c x IH].
    + cbn [app]; apply contains_startswith, startswith_self_app.
    + cbn [app]; rewrite contains_cons, IH; apply orb_true_r.
Qed.

Lemma contains_infix (a k b s : ustring) :
  contains (a ++ k ++ b) s = true -> contains k s = true.
Proof.
  intros H; apply contains_iff in H as (x & y & ->).
  apply contains_iff; exists (x ++ a), (b ++ y).
  now rewrite <- !app_assoc.
Qed.

Lemma split1_aux_first (sep : Z) (a b cur : ustring) :
  occurs sep a = false ->
  split1_aux sep (a ++ sep :: b) cur = [rev cur ++ a; b].
Proof.
  revert cur; induction a as [|x a IH]; intros cur Ha.
  - simpl; rewrite Z.eqb_refl, app_nil_r; reflexivity.
  - simpl in Ha; apply orb_false_iff in Ha as [Hx Ha].
    cbn [app split1_aux].
    rewrite Z.eqb_sym, Hx, IH by assumption.
    cbn [rev]; now rewrite <- app_assoc.
Qed.

(** [s.split(sep, 1)] cuts at the first separator. *)
Lemma split1_first (sep : Z) (a b : ustring) :
  occurs sep a = false -> split1 sep (a ++ sep :: b) = [a; b].
Proof. intros H; apply (split1_aux_first sep a b [] H). Qed.

Lemma dropwhile_all (p : Z -> bool) (x : ustring) :
  forallb p x = true -> dropwhile p x = [].
Proof.
  induction x as [|c x IH]; simpl; [reflexivity|].
  intros H; apply andb_true_iff in H as [Hc Hx]; now rewrite Hc, IH.
Qed.

Lemma dropwhile_app_some (p : Z -> bool) (x y : ustring) :
  forallb p x = false -> dropwhile p (x ++ y) = dropwhile p x ++ y.
Proof.
  induction x as [|c x IH]; simpl; [discriminate|].
  destruct (p c); simpl; [exact IH|reflexivity].
Qed.

Lemma dropwhile_app_all (p : Z -> bool) (x y : ustring) :
  forallb p x = true -> dropwhile p (x ++ y) = dropwhile p y.
Proof.
  induction x as [|c x IH]; simpl; [reflexivity|].
  intros H; apply andb_true_iff in H as [Hc Hx]; now rewrite Hc, IH.
Qed.

(** Whitespace before or after a text does not change what [strip]
    returns. *)
Lemma strip_padded (pre x post : ustring) :
  forallb isspace pre = true -> forallb isspace post = true ->
  strip (pre ++ x ++ post) = strip x.
Proof.
  intros Hpre Hpost; unfold strip, lstrip_by, rstrip_by.
  rewrite dropwhile_app_all by assumption.
  destruct (forallb isspace x) eqn:Hx.
  - rewrite dropwhile_app_all by assumption.
    now rewrite (dropwhile_all _ post), (dropwhile_all _ x).
  - rewrite dropwhile_app_some by assumption.
    rewrite rev_app_distr, dropwhile_app_all; [reflexivity|].
    apply forallb_forall; intros c Hc; apply in_rev in Hc.
    exact (proj1 (forallb_forall _ _) Hpost c Hc).
Qed.

End MoreStrFacts.

Section StatementFacts.
Variable NFC : ustring -> ustring.

Lemma output_print_line_form (d : ustring) :
  u "output.print(" ++ dq ++ d ++ dq ++ u ")"
  = u "output.print" ++ u "(" ++ dq ++ d ++ dq ++ u ")".
Proof. reflexivity. Qed.

Lemma execute_assignment (line p0 p1 : ustring) (n : nat) (s : State) :
  reaches_assignment line = true ->
  split1 61 line = [p0; p1] ->
  _execute_line NFC line n s
  = (Ok tt,
     (set_variables (fst s)
        (set (variables (fst s)) (strip p0) (unquote (strip p1))),
      snd s)).
Proof.
  unfold reaches_assignment; intros H Hsplit.
  apply andb_true_iff in H as [H Heq].
  apply andb_true_iff in H as [H Hpause].
  apply andb_true_iff in H as [H Hconsent].
  apply andb_true_iff in H as [H Hask].
  apply andb_true_iff in H as [Hprint Hspeak].
  apply negb_true_iff in Hprint, Hspeak, Hask, Hconsent, Hpause.
  unfold _execute_line, _handle_assignment.
  rewrite Hprint, Hspeak, Hask, Hconsent, Hpause, Heq, Hsplit.
  destruct s as [i w]; reflexivity.
Qed.

Lemma execute_quoted_assignment (lhs value : ustring) (n : nat)
    (s : State) :
  occurs 61 lhs = false ->
  reaches_assignment (lhs ++ u " = " ++ dq ++ value ++ dq) = true ->
  _execute_line NFC (lhs ++ u " = " ++ dq ++ value ++ dq) n s
  = (Ok tt,
     (set_variables (fst s)
        (set (variables (fst s)) (strip lhs) value), snd s)).
Proof.
  intros Hlhs Hreach.
  assert (Hsplit : split1 61 (lhs ++ u " = " ++ dq ++ value ++ dq)
                   = [lhs ++ [32]; 32 :: dq ++ value ++ dq]).
  { change (u " = ") with ([32] ++ 61 :: [32]).
    rewrite <- !app_assoc, app_assoc.
    apply split1_first.
    unfold occurs in *; rewrite existsb_app, Hlhs; reflexivity. }
  assert (Hname : strip (lhs ++ [32]) = strip lhs)
    by (apply (strip_padded [] lhs [32]); reflexivity).
  assert (Hvalue : unquote (strip (32 :: dq ++ value ++ dq)) = value).
  { replace (32 :: dq ++ value ++ dq)
      with ([32] ++ (dq ++ value ++ dq) ++ [])
      by (now rewrite app_nil_r).
    rewrite strip_padded by reflexivity.
    change (dq ++ value ++ dq) with (34 :: value ++ [34]) at 1.
    rewrite strip_no_space_ends by reflexivity.
    apply unquote_quoted. }
  rewrite (execute_assignment _ _ _ n s Hreach Hsplit).
  now rewrite Hname, Hvalue.
Qed.

Lemma substitute_absent (vars : dict ustring) (text : ustring) :
  forallb (fun kv => negb (contains (fst kv) text)) vars = true ->
  substituteVariables vars text = text.
Proof.
  unfold substituteVariables.
  induction vars as [|[name value] vars IH]; [reflexivity|].
  cbn [forallb fold_left fst snd]; intros H.
  apply andb_true_iff in H as [Hname Hvars].
  apply negb_true_iff in Hname.
  assert (Hph : contains (u "{" ++ name ++ u "}") text = false).
  { destruct (contains (u "{" ++ name ++ u "}") text) eqn:E;
      [|reflexivity].
    apply contains_infix in E; congruence. }
  rewrite (replace_absent _ _ _ Hph), (replace_absent _ _ _ Hname).
  now apply IH.
Qed.

Lemma lines_ok_skipped (lines : list ustring) (n : nat) (s : State) :
  forallb skipped lines = true -> lines_ok NFC lines n s s.
Proof.
  revert n; induction lines as [|raw rest IH]; intros n H.
  - constructor.
  - cbn [forallb] in H; apply andb_true_iff in H as [Hraw Hrest].
    apply lines_ok_skip; auto.
Qed.

End StatementFacts.

(** X4. Whatever text stands between the quotes of
    [output.print("text")], parentheses, quotes and blanks included,
    the line prints that text, with the bound variables substituted
    and normalised; on an interpreter without variables it is the
    text itself. The line never raises. *)
Theorem output_print_quoted
    (NFC : ustring -> ustring) (text : ustring) (n : nat) (s : State)
    (opts : dict ustring) (w : World) :
  let line := u "output.print(" ++ dq ++ text ++ dq ++ u ")" in
  _execute_line NFC line n s
  = (Ok tt, printed NFC (substituteVariables (variables (fst s)) text) s)
  /\ _execute_line NFC line n (new_interp opts, w)
     = (Ok tt, printed NFC text (new_interp opts, w)).
Proof.
  intros line.
  assert (H : forall st,
             _execute_line NFC line n st
             = (Ok tt,
                printed NFC
                  (substituteVariables (variables (fst st)) text) st)).
  { intros st; unfold _execute_line.
    replace (contains (u "output.print(") line) with true
      by (symmetry; apply contains_startswith, startswith_self_app).
    rewrite (bind_Ok _ _ _ _ _ (_extract_string_arg_eq _ _ _)), _print_eq.
    unfold line; rewrite output_print_line_form, extracted_arg_quoted.
    reflexivity. }
  split; [apply H|apply (H (new_interp opts, w))].
Qed.

(** X5. An assignment [name = "value"] whose left side holds no [=]
    binds the left side, without surrounding blanks, to the text
    between the outer quotes, whatever that text holds; looking the
    name up afterwards gives the value, and nothing is printed. *)
Theorem assignment_binds
    (NFC : ustring -> ustring) (lhs value : ustring) (n : nat)
    (s : State) :
  let line := lhs ++ u " = " ++ dq ++ value ++ dq in
  occurs 61 lhs = false ->
  reaches_assignment line = true ->
  exists s',
    _execute_line NFC line n s = (Ok tt, s')
    /\ s' = (set_variables (fst s)
               (set (variables (fst s)) (strip lhs) value), snd s)
    /\ get (variables (fst s')) (strip lhs) = Some value
    /\ output_buffer (fst s') = output_buffer (fst s).
Proof.
  intros line Hlhs Hreach.
  eexists; split; [|split; [reflexivity|split]].
  - apply (execute_quoted_assignment NFC lhs value n s Hlhs Hreach).
  - cbn [fst variables set_variables]; apply get_set_same.
  - reflexivity.
Qed.

Lemma assignment_binds_witness :
  get (variables
         (fst (snd (_execute_line nfc_inert
                      (u "  user.name = " ++ dq ++ u "Ann = (me)" ++ dq)
                      1 fresh))))
    (u "user.name")
  = Some (u "Ann = (me)").
Proof.
  destruct (assignment_binds nfc_inert (u "  user.name") (u "Ann = (me)")
              1 fresh) as (s' & Hexec & _ & Hget & _);
    [reflexivity|reflexivity|].
  change (u "  user.name" ++ u " = " ++ dq ++ u "Ann = (me)" ++ dq)
    with (u "  user.name = " ++ dq ++ u "Ann = (me)" ++ dq) in Hexec.
  rewrite Hexec; exact Hget.
Defined.

(** X6. Substitution leaves a text alone when no bound variable's name
    occurs in it: the text that [_substitute_variables] returns is then
    the text it was given. (A text that holds a variable's name
    anywhere, also inside another word, is rewritten.) *)
Theorem substitution_leaves_unrelated_text
    (text : ustring) (s : State) :
  forallb (fun kv => negb (contains (fst kv) text)) (variables (fst s))
  = true ->
  _substitute_variables text s = (Ok text, s).
Proof.
  intros H.
  rewrite _substitute_variables_eq, fold_substitute_one.
  now rewrite substitute_absent.
Qed.

Lemma substitution_leaves_unrelated_text_witness :
  let s := (set_variables (new_interp [])
              [(u "user.name", u "Ann"); (u "age", u "7")],
            empty_world) in
  _substitute_variables (u "Hello user, name?") s
  = (Ok (u "Hello user, name?"), s)
  /\ fst (_substitute_variables (u "a page") s) = Ok (u "a p7").
Proof.
  intros s; split.
  - apply (substitution_leaves_unrelated_text (u "Hello user, name?") s).
    reflexivity.
  - reflexivity.
Defined.

(** X7. Blank lines and [//] comments do nothing: a program made of
    such lines only, the empty program among them, returns success
    with the output buffer and the variables the instance had, and
    leaves the instance and the input untouched. *)
Theorem run_skips_blank_and_comment_lines
    (NFC : ustring -> ustring) (content : ustring) (s : State) :
  forallb skipped (split nl content) = true ->
  run NFC content s
  = (Ok (Success (output_buffer (fst s)) (variables (fst s))), s).
Proof.
  intros H; apply run_success.
  now apply lines_ok_skipped.
Qed.

Lemma run_skips_blank_and_comment_lines_witness :
  run nfc_inert [] fresh = (Ok (Success [] []), fresh)
  /\ run nfc_inert
       (u "// input.ask(x)" ++ [nl; 9; 32; nl] ++ u "  //output.print(1)")
       fresh
     = (Ok (Success [] []), fresh).
Proof.
  split.
  - apply (run_skips_blank_and_comment_lines nfc_inert [] fresh).
    reflexivity.
  - apply (run_skips_blank_and_comment_lines nfc_inert _ fresh).
    reflexivity.
Defined.

(* ================================================================= *)
(** * Further properties of the emoji compiler *)

Section MoreCompilerFacts.

Lemma findall_aux_concat (s cur : ustring) :
  concat (findall_aux s cur) = rev cur ++ filter in_emoji_class s.
Proof.
  revert cur; induction s as [|c t IH]; intros cur.
  - destruct cur; simpl; [reflexivity|now rewrite !app_nil_r].
  - cbn [findall_aux filter]; destruct (in_emoji_class c).
    + rewrite IH; cbn [rev]; now rewrite <- app_assoc.
    + destruct cur as [|d cur]; [apply IH|].
      cbn [concat]; now rewrite IH.
Qed.

Lemma findall_aux_matches (s cur : ustring) :
  forallb in_emoji_class cur = true ->
  Forall (fun m => m <> [] /\ forallb in_emoji_class m = true)
    (findall_aux s cur).
Proof.
  revert cur; induction s as [|c t IH]; intros cur Hcur.
  - destruct cur as [|d cur]; constructor; [|constructor].
    split.
    + intros E; apply (f_equal (@length Z)) in E.
      rewrite length_rev in E; discriminate E.
    + apply forallb_forall; intros x Hx; apply in_rev in Hx.
      exact (proj1 (forallb_forall _ _) Hcur x Hx).
  - cbn [findall_aux]; destruct (in_emoji_class c) eqn:Hc.
    + apply IH; cbn [forallb]; now rewrite Hc.
    + destruct cur as [|d cur]; [now apply IH|].
      constructor; [|now apply IH].
      split.
      * intros E; apply (f_equal (@length Z)) in E.
        rewrite length_rev in E; discriminate E.
      * apply forallb_forall; intros x Hx; apply in_rev in Hx.
        exact (proj1 (forallb_forall _ _) Hcur x Hx).
Qed.

Lemma first_in_mem (table : dict ustring) (emojis : list ustring)
    (dflt : ustring) :
  mem table dflt = true ->
  mem table (first_in table emojis dflt) = true.
Proof.
  intros H; unfold first_in.
  destruct (List.find (mem table) emojis) eqn:F; [|exact H].
  now apply find_some in F.
Qed.

Lemma mem_get {V} (d : dict V) (k : ustring) :
  mem d k = true -> exists v, get d k = Some v.
Proof. unfold mem; destruct (get d k) as [v|]; [eauto|discriminate]. Qed.

Lemma get_default_in (table : dict ustring) (k dflt : ustring) :
  In (get_default table k dflt) (words_of table dflt).
Proof.
  unfold get_default, words_of.
  destruct (get table k) as [v|] eqn:G; [right|now left].
  induction table as [|[k' v'] table IH]; [discriminate G|].
  simpl in G |- *; destruct (eqb k' k).
  - injection G as ->; now left.
  - right; auto.
Qed.

Lemma to_spirallogic_in (sp : EmojiSpine) :
  In (to_spirallogic sp) all_renderings.
Proof.
  unfold all_renderings, to_spirallogic.
  apply in_flat_map.
  exists (get_default emotion_map (anchor sp) (u "unknown")).
  split; [apply get_default_in|].
  apply in_flat_map.
  exists (get_default tempo_map (tempo sp) (u "normal")).
  split; [apply get_default_in|].
  apply in_map_iff.
  exists (get_default intent_map (intent sp) (u "process")).
  split; [reflexivity|apply get_default_in].
Qed.

Lemma to_spirallogic_render (sp : EmojiSpine)
    (emotion speed action : ustring) :
  get emotion_map (anchor sp) = Some emotion ->
  get tempo_map (tempo sp) = Some speed ->
  get intent_map (intent sp) = Some action ->
  to_spirallogic sp = render emotion speed action.
Proof.
  unfold to_spirallogic, get_default, render; now intros -> -> ->.
Qed.

Lemma canned_voice (l : ustring) :
  In (_compile_voice_invocation l) canned_statements.
Proof.
  unfold _compile_voice_invocation, canned_statements.
  repeat match goal with |- context [if ?b then _ else _] => destruct b end;
    simpl; tauto.
Qed.

Lemma canned_conditional (l : ustring) :
  In (_compile_conditional l) canned_statements.
Proof.
  unfold _compile_conditional, canned_statements.
  repeat match goal with |- context [if ?b then _ else _] => destruct b end;
    simpl; tauto.
Qed.

Lemma canned_pause (l : ustring) :
  In (_compile_sacred_pause l) canned_statements.
Proof.
  unfold _compile_sacred_pause, canned_statements.
  repeat match goal with |- context [if ?b then _ else _] => destruct b end;
    simpl; tauto.
Qed.

Lemma canned_consent (l : ustring) :
  In (_compile_consent l) canned_statements.
Proof.
  unfold _compile_consent, canned_statements.
  repeat match goal with |- context [if ?b then _ else _] => destruct b end;
    simpl; tauto.
Qed.

Lemma canned_phase (l : ustring) :
  In (_compile_spiral_phase l) canned_statements.
Proof.
  unfold _compile_spiral_phase, canned_statements.
  repeat match goal with |- context [if ?b then _ else _] => destruct b end;
    simpl; tauto.
Qed.

(** What [compile_emoji_line] returns: a rendered spine, one of the
    fixed statements, or the echo of the stripped, normalised line. *)
Lemma compile_emoji_line_cases (NFC : ustring -> ustring)
    (self : SpiralLogicEmojiCompiler) (line : ustring) :
  In (compile_emoji_line NFC self line) all_renderings \/
  In (compile_emoji_line NFC self line) canned_statements \/
  compile_emoji_line NFC self line = generic_echo (NFC (strip line)).
Proof.
  unfold compile_emoji_line.
  destruct (parse_emoji_spine self (NFC (strip line)));
    [left; apply to_spirallogic_in|right].
  destruct (_contains_emojis _ [CASTLE; BRAIN]);
    [left; apply canned_voice|].
  destruct (_contains_emojis _ [THOUGHT; ARROW]);
    [left; apply canned_conditional|].
  destruct (_contains_emojis _ [PAUSE; STOP]);
    [left; apply canned_pause|].
  destruct (_contains_emojis _ [CLIPBOARD; CHECK_MARK; CROSS_MARK]);
    [left; apply canned_consent|].
  destruct (contains CYCLONE _); [left; apply canned_phase|].
  right; reflexivity.
Qed.

Lemma renderings_nonempty :
  forallb (fun c => negb (eqb c [])) all_renderings = true.
Proof. vm_compute; reflexivity. Qed.

Lemma canned_nonempty :
  forallb (fun c => negb (eqb c [])) canned_statements = true.
Proof. vm_compute; reflexivity. Qed.

Lemma compile_emoji_line_nonempty (NFC : ustring -> ustring)
    (self : SpiralLogicEmojiCompiler) (line : ustring) :
  compile_emoji_line NFC self line <> [].
Proof.
  destruct (compile_emoji_line_cases NFC self line) as [H|[H|H]].
  - intros E; rewrite E in H.
    pose proof (proj1 (forallb_forall _ _) renderings_nonempty [] H).
    discriminate.
  - intros E; rewrite E in H.
    pose proof (proj1 (forallb_forall _ _) canned_nonempty [] H).
    discriminate.
  - rewrite H; discriminate.
Qed.

End MoreCompilerFacts.

(** X8. The emoji pattern splits a text into its in-range code points
    and the rest: the matches, put end to end, are exactly the
    in-range code points of the text in their order, and every match
    is a non-empty run of in-range code points. *)
Theorem findall_emoji_partition (s : ustring) :
  concat (findall_emoji s) = filter in_emoji_class s
  /\ Forall (fun m => m <> [] /\ forallb in_emoji_class m = true)
       (findall_emoji s).
Proof.
  split.
  - apply (findall_aux_concat s []).
  - now apply findall_aux_matches.
Qed.

(** X9. A spine that [parse_emoji_spine] returns, with the tables of
    [__init__], has a key of the anchor table, of the tempo table and
    of the intent table in its three slots (the defaults are keys
    too) and the brain glyph as body. So its rendering is made of words
    of the three tables: the fallbacks "unknown" and "process" of
    [to_spirallogic] are never used for it. *)
Theorem parsed_spine_rendering (s : ustring) (sp : EmojiSpine) :
  parse_emoji_spine new_compiler s = Some sp ->
  body sp = BRAIN
  /\ mem (spine_anchors new_compiler) (anchor sp) = true
  /\ mem (spine_tempo new_compiler) (tempo sp) = true
  /\ mem (spine_intent new_compiler) (intent sp) = true
  /\ exists emotion speed action,
       get emotion_map (anchor sp) = Some emotion
       /\ get tempo_map (tempo sp) = Some speed
       /\ get intent_map (intent sp) = Some action
       /\ to_spirallogic sp = render emotion speed action.
Proof.
  unfold parse_emoji_spine.
  destruct (length (findall_emoji s) <? 3)%nat; [discriminate|].
  intros H; injection H as <-; cbn [body anchor tempo intent].
  assert (Ha := first_in_mem (spine_anchors new_compiler)
                  (findall_emoji s) QUESTION eq_refl).
  assert (Ht := first_in_mem (spine_tempo new_compiler)
                  (findall_emoji s) HORSE eq_refl).
  assert (Hi := first_in_mem (spine_intent new_compiler)
                  (findall_emoji s) SPARKLES eq_refl).
  repeat split; try assumption.
  destruct (mem_get _ _ Ha) as [e He].
  destruct (mem_get _ _ Ht) as [t Ht'].
  destruct (mem_get _ _ Hi) as [a Ha'].
  exists e, t, a.
  split; [exact He|split; [exact Ht'|split; [exact Ha'|]]].
  apply to_spirallogic_render; [exact He|exact Ht'|exact Ha'].
Qed.

Lemma parsed_spine_rendering_witness :
  let s := u "1" ++ CASTLE ++ u "2" ++ ZAP ++ u "3" ++ BRAIN ++ CYCLONE in
  exists sp,
    parse_emoji_spine new_compiler s = Some sp /\
    to_spirallogic sp = render (u "confusion") (u "urgent") (u "connect").
Proof.
  intros s.
  exists {| anchor := QUESTION; body := BRAIN; tempo := ZAP;
            intent := SPARKLES |}.
  destruct (parsed_spine_rendering s
              {| anchor := QUESTION; body := BRAIN; tempo := ZAP;
                 intent := SPARKLES |} eq_refl)
    as (_ & _ & _ & _ & e & t & a & He & Ht & Ha & Hr).
  split; [reflexivity|].
  rewrite Hr.
  injection He as <-; injection Ht as <-; injection Ha as <-.
  reflexivity.
Defined.

(** X10. The body of a compiled ritual holds one statement for every
    input line that is not blank, in the order of the lines, each
    indented by four blanks: [compile_emoji_line] never returns the
    empty string, so the test on its result drops nothing. *)
Theorem compile_body_one_statement_per_line
    (NFC : ustring -> ustring) (self : SpiralLogicEmojiCompiler)
    (lines : list ustring) :
  compile_body NFC self lines
  = map (fun line => u "    " ++ compile_emoji_line NFC self line)
      (filter nonblank lines)
  /\ length (compile_body NFC self lines)
     = length (filter nonblank lines)
  /\ forall line, compile_emoji_line NFC self line <> [].
Proof.
  assert (H : compile_body NFC self lines
              = map (fun line => u "    " ++ compile_emoji_line NFC self line)
                  (filter nonblank lines)).
  { induction lines as [|line rest IH]; [reflexivity|].
    cbn [compile_body filter]; unfold nonblank at 1.
    destruct (strip line) as [|c t]; [exact IH|].
    pose proof (compile_emoji_line_nonempty NFC self line) as Hne.
    destruct (compile_emoji_line NFC self line) as [|d r] eqn:E;
      [now elim Hne|].
    cbn [map]; rewrite E, IH; reflexivity. }
  split; [exact H|split].
  - now rewrite H, length_map.
  - apply compile_emoji_line_nonempty.
Qed.

Section CompileThenRun.

Lemma occurs_dropwhile (c : Z) (p : Z -> bool) (s : ustring) :
  occurs c s = false -> occurs c (dropwhile p s) = false.
Proof.
  induction s as [|x s IH]; [reflexivity|].
  cbn [dropwhile]; destruct (p x); [|auto].
  simpl; intros H; apply orb_false_iff in H as [_ H]; auto.
Qed.

Lemma occurs_rev (c : Z) (s : ustring) : occurs c (rev s) = occurs c s.
Proof.
  induction s as [|x s IH]; [reflexivity|].
  cbn [rev]; rewrite occurs_app, IH; simpl.
  now rewrite orb_false_r, orb_comm.
Qed.

Lemma occurs_strip (c : Z) (s : ustring) :
  occurs c s = false -> occurs c (strip s) = false.
Proof.
  intros H; unfold strip, rstrip_by, lstrip_by.
  rewrite occurs_rev; apply occurs_dropwhile.
  rewrite occurs_rev; now apply occurs_dropwhile.
Qed.

Lemma split_aux_no_sep (sep : Z) (l rest cur : ustring) :
  occurs sep l = false ->
  split_aux sep (l ++ rest) cur = split_aux sep rest (rev l ++ cur).
Proof.
  revert cur; induction l as [|x l IH]; intros cur H; [reflexivity|].
  simpl in H; apply orb_false_iff in H as [Hx Hl].
  cbn [app split_aux]; rewrite Z.eqb_sym, Hx, IH by assumption.
  cbn [rev]; now rewrite <- app_assoc.
Qed.

(** Splitting what was joined gives the parts back, when no part holds
    the separator. *)
Lemma split_join (sep : Z) (parts : list ustring) :
  parts <> [] ->
  forallb (fun l => negb (occurs sep l)) parts = true ->
  split sep (join [sep] parts) = parts.
Proof.
  unfold split; induction parts as [|p rest IH]; [now intros []|].
  intros _ H; cbn [forallb] in H; apply andb_true_iff in H as [Hp Hrest].
  apply negb_true_iff in Hp.
  destruct rest as [|q rest].
  - cbn [join]; rewrite <- (app_nil_r p) at 1.
    rewrite split_aux_no_sep by assumption.
    cbn [split_aux]; now rewrite app_nil_r, rev_involutive.
  - change (join [sep] (p :: q :: rest))
      with (p ++ [sep] ++ join [sep] (q :: rest)).
    rewrite split_aux_no_sep by assumption.
    cbn [app split_aux]; rewrite Z.eqb_refl, app_nil_r, rev_involutive.
    f_equal; apply IH; [discriminate|exact Hrest].
Qed.

Lemma split_aux_parts (sep : Z) (s cur : ustring) :
  occurs sep cur = false ->
  forallb (fun l => negb (occurs sep l)) (split_aux sep s cur) = true.
Proof.
  revert cur; induction s as [|x s IH]; intros cur Hcur.
  - cbn [split_aux forallb]; now rewrite occurs_rev, Hcur.
  - cbn [split_aux]; destruct (x =? sep) eqn:E.
    + cbn [forallb]; rewrite occurs_rev, Hcur; simpl; now apply IH.
    + apply IH; simpl; now rewrite Z.eqb_sym, E.
Qed.

(** The parts of a split hold no separator. *)
Lemma split_parts (sep : Z) (s : ustring) :
  forallb (fun l => negb (occurs sep l)) (split sep s) = true.
Proof. now apply split_aux_parts. Qed.

Lemma renderings_ok : forallb statement_ok all_renderings = true.
Proof. vm_compute; reflexivity. Qed.

Lemma canned_ok : forallb statement_ok canned_statements = true.
Proof. vm_compute; reflexivity. Qed.

Lemma header_intents_ok :
  forallb (fun d => line_fine (intent_line d)) header_intents = true.
Proof. vm_compute; reflexivity. Qed.

Lemma fixed_lines_ok :
  forallb line_fine
    (ritual_header_before ++ ritual_header_after ++ ritual_footer)
  = true.
Proof. vm_compute; reflexivity. Qed.

Lemma renderings_assign :
  forallb reaches_assignment all_renderings = true.
Proof. vm_compute; reflexivity. Qed.

(** The echo of a line without newline is one [output.print] line. *)
Lemma echo_ok (l : ustring) :
  occurs nl l = false -> statement_ok (generic_echo l) = true.
Proof.
  intros Hl; unfold statement_ok, generic_echo.
  apply andb_true_iff; split.
  - rewrite !occurs_app, Hl; reflexivity.
  - unfold no_input_line, asks_input.
    assert (Hs : strip (u "    " ++ u "output.print(" ++ dq ++
                        u "Emoji expression: " ++ l ++ dq ++ u ")")
                 = u "output.print(" ++ dq ++ u "Emoji expression: " ++
                   l ++ dq ++ u ")").
    { replace (u "    " ++ u "output.print(" ++ dq ++
               u "Emoji expression: " ++ l ++ dq ++ u ")")
        with (u "    " ++ (u "output.print(" ++ dq ++
               u "Emoji expression: " ++ l ++ dq ++ u ")") ++ [])
        by (now rewrite app_nil_r).
      rewrite strip_padded by reflexivity.
      replace (u "output.print(" ++ dq ++ u "Emoji expression: " ++
               l ++ dq ++ u ")")
        with (111 :: (u "utput.print(" ++ dq ++ u "Emoji expression: " ++
                l ++ dq) ++ [41])
        by (now rewrite <- !app_assoc).
      now rewrite strip_no_space_ends. }
    rewrite Hs.
    replace (contains (u "output.print(")
               (u "output.print(" ++ dq ++ u "Emoji expression: " ++
                l ++ dq ++ u ")"))
      with true
      by (symmetry; apply contains_startswith, startswith_self_app).
    apply orb_true_r.
Qed.

Lemma compiled_statement_ok (NFC : ustring -> ustring)
    (self : SpiralLogicEmojiCompiler) (line : ustring) :
  occurs nl (NFC (strip line)) = false ->
  statement_ok (compile_emoji_line NFC self line) = true.
Proof.
  intros Hl.
  destruct (compile_emoji_line_cases NFC self line) as [H|[H|H]].
  - exact (proj1 (forallb_forall _ _) renderings_ok _ H).
  - exact (proj1 (forallb_forall _ _) canned_ok _ H).
  - rewrite H; now apply echo_ok.
Qed.

Lemma statement_ok_fine (c : ustring) :
  statement_ok c = true -> line_fine (u "    " ++ c) = true.
Proof.
  unfold statement_ok, line_fine; intros H.
  apply andb_true_iff in H as [Hnl Hin].
  apply negb_true_iff in Hnl.
  apply andb_true_iff; split; [|exact Hin].
  rewrite occurs_app, Hnl; reflexivity.
Qed.

Lemma compile_body_fine (NFC : ustring -> ustring)
    (self : SpiralLogicEmojiCompiler) (lines : list ustring) :
  (forall t, occurs nl t = false -> occurs nl (NFC t) = false) ->
  forallb (fun l => negb (occurs nl l)) lines = true ->
  forallb line_fine (compile_body NFC self lines) = true.
Proof.
  intros HNFC; induction lines as [|line rest IH]; [reflexivity|].
  cbn [forallb compile_body]; intros H.
  apply andb_true_iff in H as [Hline Hrest].
  apply negb_true_iff in Hline.
  destruct (strip line) as [|c t] eqn:Hs; [now apply IH|].
  assert (Hok : statement_ok (compile_emoji_line NFC self line) = true).
  { apply compiled_statement_ok, HNFC.
    now apply occurs_strip. }
  destruct (compile_emoji_line NFC self line) as [|d r]; [now apply IH|].
  cbn [forallb]; now rewrite (statement_ok_fine _ Hok), IH.
Qed.

Lemma intent_desc_in (first_line : ustring) :
  In (match parse_emoji_spine new_compiler first_line with
      | Some spine =>
          u "Process " ++
          get_default (spine_anchors new_compiler) (anchor spine)
            (u "stable") ++
          u " with " ++
          get_default (spine_intent new_compiler) (intent spine)
            (u "support")
      | None => u "Emoji-driven emotional processing"
      end) header_intents.
Proof.
  unfold header_intents.
  destruct (parse_emoji_spine new_compiler first_line) as [sp|];
    [right|now left].
  apply in_flat_map.
  exists (get_default (spine_anchors new_compiler) (anchor sp)
            (u "stable")).
  split; [apply get_default_in|].
  apply in_map_iff.
  exists (get_default (spine_intent new_compiler) (intent sp)
            (u "support")).
  split; [reflexivity|apply get_default_in].
Qed.

(** The lines of a compiled ritual, and that they are fine. *)
Lemma compile_emoji_ritual_lines (NFC : ustring -> ustring)
    (text : ustring) :
  (forall t, occurs nl t = false -> occurs nl (NFC t) = false) ->
  exists lines,
    lines <> [] /\
    compile_emoji_ritual NFC new_compiler text = join [nl] lines /\
    forallb line_fine lines = true.
Proof.
  intros HNFC; unfold compile_emoji_ritual.
  set (lines := split nl (strip text)).
  set (desc := match parse_emoji_spine new_compiler _ with
               | Some _ => _
               | None => _
               end).
  assert (Hdesc : line_fine (intent_line desc) = true).
  { apply (proj1 (forallb_forall _ _) header_intents_ok).
    apply intent_desc_in. }
  assert (Hbody : forallb line_fine (compile_body NFC new_compiler lines)
                  = true)
    by (apply compile_body_fine; [exact HNFC|apply split_parts]).
  pose proof fixed_lines_ok as Hfixed.
  rewrite !forallb_app in Hfixed.
  apply andb_true_iff in Hfixed as [Hb Hfixed].
  apply andb_true_iff in Hfixed as [Ha Hf].
  exists (ritual_header_before ++ [intent_line desc]
          ++ ritual_header_after
          ++ compile_body NFC new_compiler lines ++ ritual_footer).
  split; [discriminate|split; [reflexivity|]].
  rewrite !forallb_app; cbn [forallb].
  now rewrite Hb, Hdesc, Ha, Hbody, Hf.
Qed.

Lemma line_fine_parts (lines : list ustring) :
  forallb line_fine lines = true ->
  forallb (fun l => negb (occurs nl l)) lines = true /\
  forallb no_input_line lines = true.
Proof.
  induction lines as [|l rest IH]; [now split|].
  cbn [forallb]; intros H; apply andb_true_iff in H as [Hl Hrest].
  unfold line_fine in Hl; apply andb_true_iff in Hl as [H1 H2].
  destruct (IH Hrest) as [I1 I2]; now rewrite H1, H2, I1, I2.
Qed.

End CompileThenRun.

(** X11. Compiled rituals run. Whatever emoji text is compiled with the
    tables of [__init__], the interpreter runs the resulting ritual to
    the end: [run] returns success and reads nothing from standard
    input. (The normaliser is assumed not to bring a newline into a
    text that has none.) *)
Theorem compiled_ritual_runs
    (NFC : ustring -> ustring) (text : ustring) (s : State) :
  (forall t, occurs nl t = false -> occurs nl (NFC t) = false) ->
  exists s',
    run NFC (compile_emoji_ritual NFC new_compiler text) s
    = (Ok (Success (output_buffer (fst s')) (variables (fst s'))), s')
    /\ stdin (snd s') = stdin (snd s).
Proof.
  intros HNFC.
  destruct (compile_emoji_ritual_lines NFC text HNFC)
    as (lines & Hne & -> & Hfine).
  destruct (line_fine_parts _ Hfine) as [Hnl Hin].
  destruct (lines_without_input_ok NFC lines Hin 1 s) as (s' & Hok & Hs).
  exists s'; split; [|exact Hs].
  apply run_success.
  now rewrite (split_join nl lines Hne Hnl).
Qed.

Lemma compiled_ritual_runs_witness :
  exists s',
    run nfc_inert
      (compile_emoji_ritual nfc_inert new_compiler
         (anger_line ++ [nl] ++ u "input.ask(x" ++ [nl] ++ CLIPBOARD))
      fresh
    = (Ok (Success (output_buffer (fst s')) (variables (fst s'))), s')
    /\ stdin (snd s') = stdin (snd fresh).
Proof.
  apply (compiled_ritual_runs nfc_inert).
  intros t Ht; exact Ht.
Defined.

(** X12. Whatever the spine, its rendering is executed as one
    assignment: the line interpreter binds [user.emotional_state] to
    everything after the first [=] without the outer quotes, the texts
    [user.tempo = ...] and [user.intent = ...] included, and binds
    neither [user.tempo] nor [user.intent]. *)
Theorem rendering_is_one_assignment
    (NFC : ustring -> ustring) (sp : EmojiSpine) (n : nat) (s : State) :
  exists value,
    to_spirallogic sp
    = u "user.emotional_state = " ++ dq ++ value ++ dq
    /\ contains (u "; user.tempo = ") value = true
    /\ contains (u "; user.intent = ") value = true
    /\ _execute_line NFC (to_spirallogic sp) n s
       = (Ok tt,
          (set_variables (fst s)
             (set (variables (fst s)) (u "user.emotional_state") value),
           snd s)).
Proof.
  set (e := get_default emotion_map (anchor sp) (u "unknown")).
  set (t := get_default tempo_map (tempo sp) (u "normal")).
  set (a := get_default intent_map (intent sp) (u "process")).
  exists (e ++ dq ++ u "; user.tempo = " ++ dq ++ t ++ dq ++
          u "; user.intent = " ++ dq ++ a).
  assert (Hshape : to_spirallogic sp
                   = u "user.emotional_state" ++ u " = " ++ dq ++
                     (e ++ dq ++ u "; user.tempo = " ++ dq ++ t ++ dq ++
                      u "; user.intent = " ++ dq ++ a) ++ dq).
  { unfold to_spirallogic; fold e t a.
    change (u "user.emotional_state = ")
      with (u "user.emotional_state" ++ u " = ").
    now rewrite <- !app_assoc. }
  split; [|split; [|split]].
  - rewrite Hshape; now rewrite <- !app_assoc.
  - apply contains_iff; exists (e ++ dq), (dq ++ t ++ dq ++
      u "; user.intent = " ++ dq ++ a).
    now rewrite <- !app_assoc.
  - apply contains_iff; exists (e ++ dq ++ u "; user.tempo = " ++ dq ++
      t ++ dq), (dq ++ a).
    now rewrite <- !app_assoc.
  - assert (Hreach : reaches_assignment (to_spirallogic sp) = true)
      by (apply (proj1 (forallb_forall _ _) renderings_assign),
            to_spirallogic_in).
    rewrite Hshape in Hreach |- *.
    now rewrite (execute_quoted_assignment NFC (u "user.emotional_state")
                   _ n s eq_refl Hreach).
Qed.

(* ================================================================= *)
(** * Properties of the emotional analysis of spiral_terminal.py *)

Module TerminalFacts.
Import Terminal.

Lemma count_in_bounds (chars s : ustring) :
  0 <= count_in chars s <= len s.
Proof.
  unfold count_in, len.
  pose proof (filter_length_le (fun e => occurs e chars) s); lia.
Qed.

(** [max_key_aux] returns the key of the first binding with the
    largest value: the bindings before it hold smaller values, those
    after it no larger ones. *)
Lemma max_key_aux_first_largest (d : dict Z) :
  forall (best : ustring) (best_value : Z),
  exists before v after,
    (best, best_value) :: d
    = before ++ (max_key_aux d best best_value, v) :: after
    /\ Forall (fun kv => snd kv < v) before
    /\ Forall (fun kv => snd kv <= v) after.
Proof.
  induction d as [|[k w] d IH]; intros best best_value.
  - exists [], best_value, []; split; [reflexivity|split; constructor].
  - cbn [max_key_aux]; destruct (best_value <? w) eqn:E.
    + apply Z.ltb_lt in E.
      destruct (IH k w) as (before & v & after & Heq & Hb & Ha).
      exists ((best, best_value) :: before), v, after.
      split; [cbn [app]; now rewrite Heq|split; [|exact Ha]].
      constructor; [|exact Hb].
      cbn [snd]; destruct before as [|x before].
      * injection Heq as _ Hv _; lia.
      * injection Heq as Hx _; subst x.
        inversion Hb as [|? ? Hw _]; cbn [snd] in Hw; lia.
    + apply Z.ltb_ge in E.
      destruct (IH best best_value) as (before & v & after & Heq & Hb & Ha).
      destruct before as [|x before].
      * injection Heq as Hk Hv Hd.
        exists [], v, ((k, w) :: after).
        split; [cbn [app]; now rewrite <- Hk, <- Hv, Hd|].
        split; [constructor|].
        constructor; [cbn [snd]; lia|exact Ha].
      * injection Heq as Hx Hd; subst x.
        exists ((best, best_value) :: (k, w) :: before), v, after.
        split; [cbn [app]; do 2 f_equal; exact Hd|split; [|exact Ha]].
        inversion Hb as [|? ? Hw Hb']; subst; cbn [snd] in Hw.
        constructor; [exact Hw|].
        constructor; [cbn [snd]; lia|exact Hb'].
Qed.

End TerminalFacts.

(** X13. Whatever the text, the analysis reports an intensity between
    1 and 10 that is odd or 10, a safety level of at least 1 and at
    most 8 plus the length of the text, and emotion counts between 0
    and the length of the text. *)
Theorem analysis_bounds (emoji_sequence : ustring) :
  let a := Terminal.analyze_emotional_content emoji_sequence in
  1 <= Terminal.intensity a <= 10
  /\ (Terminal.intensity a = 10 \/ Z.odd (Terminal.intensity a) = true)
  /\ 1 <= Terminal.safety_level a <= 8 + len emoji_sequence
  /\ Forall (fun kv => 0 <= snd kv <= len emoji_sequence)
       (Terminal.emotions a).
Proof.
  intros a; unfold a, Terminal.analyze_emotional_content;
    cbn [Terminal.intensity Terminal.safety_level Terminal.emotions].
  pose proof (TerminalFacts.count_in_bounds Terminal.INTENSITY_CHARS
                emoji_sequence) as Hi.
  pose proof (TerminalFacts.count_in_bounds Terminal.SAFETY_CHARS
                emoji_sequence) as Hs.
  split; [lia|split; [|split; [lia|]]].
  - destruct (Z.le_gt_cases 10
                (Terminal.count_in Terminal.INTENSITY_CHARS
                   emoji_sequence * 2 + 1)) as [H|H].
    + left; lia.
    + right; rewrite Z.min_r by lia.
      rewrite Z.add_comm, Z.mul_comm, Z.odd_add_mul_2; reflexivity.
  - repeat constructor; cbn [snd];
      apply TerminalFacts.count_in_bounds.
Qed.

(** X14. The dominant emotion is "neutral" exactly when the text holds
    no code point of the five emotion literals. Otherwise it is the
    first emotion, in the order anger, sadness, fear, joy, love, whose
    count is the largest of the five, and that count is positive. *)
Theorem dominant_emotion_is_largest (emoji_sequence : ustring) :
  let a := Terminal.analyze_emotional_content emoji_sequence in
  (Forall (fun kv => snd kv = 0) (Terminal.emotions a) ->
   Terminal.dominant_emotion a = u "neutral")
  /\ (Exists (fun kv => snd kv <> 0) (Terminal.emotions a) ->
      exists before count after,
        Terminal.emotions a
        = before ++ (Terminal.dominant_emotion a, count) :: after
        /\ 0 < count
        /\ Forall (fun kv => snd kv < count) before
        /\ Forall (fun kv => snd kv <= count) after).
Proof.
  intros a; unfold a, Terminal.analyze_emotional_content;
    cbn [Terminal.emotions Terminal.dominant_emotion].
  set (c1 := Terminal.count_in Terminal.ANGER_CHARS emoji_sequence).
  set (c2 := Terminal.count_in Terminal.SADNESS_CHARS emoji_sequence).
  set (c3 := Terminal.count_in Terminal.FEAR_CHARS emoji_sequence).
  set (c4 := Terminal.count_in Terminal.JOY_CHARS emoji_sequence).
  set (c5 := Terminal.count_in Terminal.LOVE_CHARS emoji_sequence).
  split.
  - intros H.
    repeat match goal with
           | H : Forall _ (_ :: _) |- _ => inversion H; clear H; subst
           end.
    cbn [snd] in *.
    unfold Terminal.any_nonzero; cbn [map snd existsb].
    repeat match goal with H : _ = 0 |- _ => rewrite H end.
    reflexivity.
  - set (d := [(u "sadness", c2); (u "fear", c3); (u "joy", c4);
               (u "love", c5)]).
    intros H.
    assert (Hany : Terminal.any_nonzero
                     (map snd ((u "anger", c1) :: d)) = true).
    { unfold Terminal.any_nonzero; apply existsb_exists.
      apply Exists_exists in H as ([k v] & Hin & Hv).
      exists v; split; [now apply (in_map snd) in Hin|].
      now apply negb_true_iff, Z.eqb_neq. }
    rewrite Hany.
    destruct (TerminalFacts.max_key_aux_first_largest d (u "anger") c1)
      as (before & v & after & Heq & Hb & Ha).
    exists before, v, after.
    split; [exact Heq|split; [|split; [exact Hb|exact Ha]]].
    assert (Hall : Forall (fun kv => 0 <= snd kv <= v)
                     ((u "anger", c1) :: d)).
    { assert (Hnn : Forall (fun kv => 0 <= snd kv)
                      ((u "anger", c1) :: d)).
      { repeat constructor; cbn [snd];
          apply TerminalFacts.count_in_bounds. }
      rewrite Heq in Hnn |- *.
      apply Forall_app in Hnn as [Hn1 Hn2].
      inversion Hn2 as [|? ? Hv Hn3]; subst; cbn [snd] in Hv.
      apply Forall_app; split.
      - rewrite Forall_forall in *; intros x Hx.
        specialize (Hb x Hx); specialize (Hn1 x Hx); lia.
      - constructor; [cbn [snd]; lia|].
        rewrite Forall_forall in *; intros x Hx.
        specialize (Ha x Hx); specialize (Hn3 x Hx); lia. }
    apply Exists_exists in H as ([k w] & Hk & Hw); cbn [snd] in Hw.
    rewrite Forall_forall in Hall.
    specialize (Hall _ Hk); cbn [snd] in Hall; lia.
Qed.

Lemma dominant_emotion_is_largest_witness :
  Terminal.dominant_emotion
    (Terminal.analyze_emotional_content [0x2728; 0x26A1; 0x1F622])
  = u "anger".
Proof.
  destruct (dominant_emotion_is_largest [0x2728; 0x26A1; 0x1F622])
    as [_ H].
  destruct H as (before & count & after & Heq & Hpos & Hb & Ha).
  - apply Exists_cons_hd; cbn; discriminate.
  - reflexivity.
Defined.

(** X15. The response begins with the high-intensity prefix exactly
    when the text holds four or more intensity markers, with the
    strong-energy prefix for two or three, and with the gentle prefix
    for fewer; what follows the prefix is picked from a list of three
    patterns, never from an empty list. *)
Theorem response_prefix_by_markers
    (choice : list ustring -> ustring) (input_emoji : ustring) :
  let a := Terminal.analyze_emotional_content input_emoji in
  let k := Terminal.count_in Terminal.INTENSITY_CHARS input_emoji in
  let options :=
    Terminal.response_options input_emoji (Terminal.dominant_emotion a) in
  length options = 3%nat
  /\ Terminal.generate_therapeutic_response choice input_emoji a
     = (if 4 <=? k then Terminal.HIGH_PREFIX
        else if 2 <=? k then Terminal.STRONG_PREFIX
        else Terminal.GENTLE_PREFIX) ++ choice options.
Proof.
  intros a k options; split.
  - unfold options, Terminal.response_options.
    repeat match goal with
           | |- context [if ?b then _ else _] => destruct b
           end; reflexivity.
  - unfold Terminal.generate_therapeutic_response; fold options.
    f_equal.
    unfold a, Terminal.analyze_emotional_content;
      cbn [Terminal.intensity]; fold k.
    pose proof (TerminalFacts.count_in_bounds Terminal.INTENSITY_CHARS
                  input_emoji) as Hk; fold k in Hk.
    destruct (4 <=? k) eqn:E4.
    + apply Z.leb_le in E4.
      replace (7 <? Z.min 10 (k * 2 + 1)) with true; [reflexivity|].
      symmetry; apply Z.ltb_lt; lia.
    + apply Z.leb_gt in E4.
      replace (7 <? Z.min 10 (k * 2 + 1)) with false
        by (symmetry; apply Z.ltb_ge; lia).
      destruct (2 <=? k) eqn:E2.
      * apply Z.leb_le in E2.
        replace (4 <? Z.min 10 (k * 2 + 1)) with true; [reflexivity|].
        symmetry; apply Z.ltb_lt; lia.
      * apply Z.leb_gt in E2.
        replace (4 <? Z.min 10 (k * 2 + 1)) with false; [reflexivity|].
        symmetry; apply Z.ltb_ge; lia.
Qed.

(* ================================================================= *)
(** * The stores of the instance across runs *)

Section StoreFacts.
Variable NFC : ustring -> ustring.

Lemma mem_set_kept {V} (d : dict V) (k k' : ustring) (v : V) :
  mem d k = true -> mem (set d k' v) k = true.
Proof.
  unfold mem; induction d as [|[k0 v0] d IH]; simpl; [discriminate|].
  destruct (eqb k0 k') eqn:E; simpl; destruct (eqb k0 k); auto.
Qed.

Lemma dropwhile_suffix (p : Z -> bool) (s : ustring) :
  exists a, s = a ++ dropwhile p s.
Proof.
  induction s as [|c s [a IH]]; [exists []; reflexivity|].
  cbn [dropwhile]; destruct (p c).
  - exists (c :: a); cbn [app]; now rewrite <- IH.
  - exists []; reflexivity.
Qed.

(** [strip] returns a part of its argument. *)
Lemma strip_infix (s : ustring) : exists a b, s = a ++ strip s ++ b.
Proof.
  unfold strip, lstrip_by, rstrip_by.
  destruct (dropwhile_suffix isspace s) as [a Ha].
  destruct (dropwhile_suffix isspace (rev (dropwhile isspace s)))
    as [b Hb].
  exists a, (rev b).
  rewrite <- rev_app_distr, <- Hb, rev_involutive; exact Ha.
Qed.

Lemma contains_strip (p s : ustring) :
  contains p s = false -> contains p (strip s) = false.
Proof.
  intros H; destruct (contains p (strip s)) eqn:E; [|reflexivity].
  apply contains_iff in E as (x & y & Hs).
  destruct (strip_infix s) as (a & b & Hab).
  assert (Hin : contains p s = true).
  { apply contains_iff; exists (a ++ x), (y ++ b).
    transitivity (a ++ strip s ++ b); [exact Hab|].
    rewrite Hs; now rewrite <- !app_assoc. }
  congruence.
Qed.

(** What one line does to the stores: names and domains stay, the
    variable map changes only on a line with [=], the consent map only
    on a line with [consent.request(], the options never. *)
Lemma execute_line_stores (line : ustring) (n : nat) (s : State) :
  let s' := snd (_execute_line NFC line n s) in
  (forall name,
      mem (variables (fst s)) name = true ->
      mem (variables (fst s')) name = true)
  /\ (forall domain,
         mem (consent_status (fst s)) domain = true ->
         mem (consent_status (fst s')) domain = true)
  /\ (contains (u "=") line = false ->
      variables (fst s') = variables (fst s))
  /\ (contains (u "consent.request(") line = false ->
      consent_status (fst s') = consent_status (fst s))
  /\ options (fst s') = options (fst s).
Proof.
  intros s'; unfold s'.
  pose proof (execute_line_effect NFC line n s) as E.
  destruct (_execute_line NFC line n s) as [r s1].
  inversion E; subst;
    cbn [fst snd printed set_consent_status set_variables
         set_output_buffer variables consent_status options
         output_buffer];
    (split; [|split; [|split; [|split]]]);
    try congruence; try reflexivity; auto using mem_set_kept.
Qed.

(** What every executed line keeps, a run keeps, however it ends. *)
Lemma lines_ok_invariant (P : Interp -> Prop) (ok : ustring -> bool) :
  (forall raw n s,
      ok raw = true -> P (fst s) ->
      P (fst (snd (_execute_line NFC (strip raw) n s)))) ->
  forall lines n s s',
    lines_ok NFC lines n s s' ->
    forallb ok lines = true -> P (fst s) -> P (fst s').
Proof.
  intros Hstep lines n s s' H.
  induction H as [n s|raw pre n s s' Hskip _ IH
                 |raw pre n s s1 s' Hskip Hexec _ IH];
    intros Hok HP; [exact HP| |];
    cbn [forallb] in Hok; apply andb_true_iff in Hok as [Hraw Hrest].
  - now apply IH.
  - apply IH; [exact Hrest|].
    pose proof (Hstep raw n s Hraw HP) as H1.
    now rewrite Hexec in H1.
Qed.

Lemma run_invariant (P : Interp -> Prop) (ok : ustring -> bool) :
  (forall raw n s,
      ok raw = true -> P (fst s) ->
      P (fst (snd (_execute_line NFC (strip raw) n s)))) ->
  forall content s,
    forallb ok (split nl content) = true -> P (fst s) ->
    P (fst (snd (run NFC content s))).
Proof.
  intros Hstep content s Hok HP.
  destruct (run_total NFC content s)
    as [[s1 Hlines]
       |(pre & raw & post & s1 & e & s2 & Hl & Hlines & Hskip & Hexec)].
  - rewrite (run_success NFC content s s1 Hlines); cbn [snd].
    eapply lines_ok_invariant; eassumption.
  - destruct (run_failure NFC _ _ _ _ _ _ _ _ Hl Hlines Hskip Hexec)
      as [Hrun Hself].
    rewrite Hrun; cbn [snd]; rewrite Hself.
    rewrite Hl, forallb_app in Hok.
    apply andb_true_iff in Hok as [Hpre _].
    eapply lines_ok_invariant; eassumption.
Qed.

(** The state a run leaves is the state its lines, executed one after
    the other from the state the run began in, leave. *)
Lemma run_state (content : ustring) (s : State) :
  (exists s',
      lines_ok NFC (split nl content) 1 s s' /\
      snd (run NFC content s) = s') \/
  (exists pre raw post s1 e s2,
      split nl content = pre ++ raw :: post /\
      lines_ok NFC pre 1 s s1 /\
      skipped raw = false /\
      _execute_line NFC (strip raw) (S (length pre)) s1 = (Raise e, s2) /\
      snd (run NFC content s) = s2).
Proof.
  destruct (run_total NFC content s)
    as [[s1 Hlines]
       |(pre & raw & post & s1 & e & s2 & Hl & Hlines & Hskip & Hexec)].
  - left; exists s1; split; [exact Hlines|].
    now rewrite (run_success NFC content s s1 Hlines).
  - right; exists pre, raw, post, s1, e, s2.
    destruct (run_failure NFC _ _ _ _ _ _ _ _ Hl Hlines Hskip Hexec)
      as [Hrun _].
    repeat split; try assumption.
    now rewrite Hrun.
Qed.

End StoreFacts.

(** C6. Two runs on one instance: the second sees the variable the
    first bound, and its result differs from that of a fresh
    interpreter. *)
Lemma second_run_sees_first_run :
  let after_first := snd (run nfc_inert (u "x = 1") fresh) in
  fst (run nfc_inert (u "output.print(x)") after_first)
  = Ok (Success [u "1"] [(u "x", u "1")]) /\
  fst (run nfc_inert (u "output.print(x)") fresh)
  = Ok (Success [u "x"] []).
Proof. split; vm_compute; reflexivity. Qed.

(** C6, as the code has it. The three stores belong to the instance:
    the constructor makes them empty and [run] does not reset them. A
    run on an instance whose stores are empty is the run of a newly
    made interpreter, and the output of every run begins with the
    buffer the instance had when the run began. A run executes its
    lines from the very state the instance is in when it is called:
    every name bound and every consent domain recorded before the run
    is still there after it, a program without [=] leaves the variable
    map as it was, a program without [consent.request(] leaves the
    consent map as it was, and the options are never changed. *)
Theorem stores_belong_to_instance
    (NFC : ustring -> ustring) (content : ustring) (i : Interp)
    (w : World) :
  (forall opts,
      variables (new_interp opts) = [] /\
      consent_status (new_interp opts) = [] /\
      output_buffer (new_interp opts) = [])
  /\ (variables i = [] -> consent_status i = [] -> output_buffer i = [] ->
      run NFC content (i, w) = run NFC content (new_interp (options i), w))
  /\ (exists r s' ext,
        run NFC content (i, w) = (Ok r, s') /\
        result_output r = output_buffer i ++ ext)
  /\ (let s' := snd (run NFC content (i, w)) in
      (forall name,
          mem (variables i) name = true ->
          mem (variables (fst s')) name = true)
      /\ (forall domain,
             mem (consent_status i) domain = true ->
             mem (consent_status (fst s')) domain = true)
      /\ (forallb (fun raw => negb (contains (u "=") raw))
            (split nl content) = true ->
          variables (fst s') = variables i)
      /\ (forallb (fun raw => negb (contains (u "consent.request(") raw))
            (split nl content) = true ->
          consent_status (fst s') = consent_status i)
      /\ options (fst s') = options i)
  /\ ((exists s',
          lines_ok NFC (split nl content) 1 (i, w) s' /\
          snd (run NFC content (i, w)) = s') \/
      (exists pre raw post s1 e s2,
          split nl content = pre ++ raw :: post /\
          lines_ok NFC pre 1 (i, w) s1 /\
          skipped raw = false /\
          _execute_line NFC (strip raw) (S (length pre)) s1
          = (Raise e, s2) /\
          snd (run NFC content (i, w)) = s2)).
Proof.
  split; [intros opts; repeat split|split; [|split; [|split]]].
  - intros Hv Hc Hb; destruct i as [o v c b]; simpl in *; subst.
    reflexivity.
  - apply (run_output_extends NFC content (i, w)).
  - assert (Htrue : forallb (fun _ : ustring => true) (split nl content)
                    = true)
      by (apply forallb_forall; reflexivity).
    cbv zeta; split; [|split; [|split; [|split]]].
    + intros name Hname.
      apply (run_invariant NFC
               (fun i' => mem (variables i') name = true)
               (fun _ => true)); [|exact Htrue|exact Hname].
      intros raw n s _ H.
      now apply (execute_line_stores NFC (strip raw) n s).
    + intros domain Hdomain.
      apply (run_invariant NFC
               (fun i' => mem (consent_status i') domain = true)
               (fun _ => true)); [|exact Htrue|exact Hdomain].
      intros raw n s _ H.
      now apply (execute_line_stores NFC (strip raw) n s).
    + intros Hno.
      apply (run_invariant NFC
               (fun i' => variables i' = variables i)
               (fun raw => negb (contains (u "=") raw)));
        [|exact Hno|reflexivity].
      intros raw n s Hraw H.
      apply negb_true_iff, contains_strip in Hraw.
      destruct (execute_line_stores NFC (strip raw) n s)
        as (_ & _ & Hv & _).
      now rewrite (Hv Hraw).
    + intros Hno.
      apply (run_invariant NFC
               (fun i' => consent_status i' = consent_status i)
               (fun raw => negb (contains (u "consent.request(") raw)));
        [|exact Hno|reflexivity].
      intros raw n s Hraw H.
      apply negb_true_iff, contains_strip in Hraw.
      destruct (execute_line_stores NFC (strip raw) n s)
        as (_ & _ & _ & Hc & _).
      now rewrite (Hc Hraw).
    + apply (run_invariant NFC
               (fun i' => options i' = options i)
               (fun _ => true)); [|exact Htrue|reflexivity].
      intros raw n s _ H.
      destruct (execute_line_stores NFC (strip raw) n s)
        as (_ & _ & _ & _ & Ho).
      now rewrite Ho.
  - apply (run_state NFC content (i, w)).
Qed.

Lemma stores_belong_to_instance_witness :
  let i := {| options := [(u "debug", u "on")]; variables := [];
              consent_status := []; output_buffer := [] |} in
  run nfc_inert (u "output.print(x)") (i, empty_world)
  = run nfc_inert (u "output.print(x)")
      (new_interp [(u "debug", u "on")], empty_world).
Proof.
  intros i.
  destruct (stores_belong_to_instance nfc_inert (u "output.print(x)") i
              empty_world) as [_ [Hfresh _]].
  apply Hfresh; reflexivity.
Defined.

(* ================================================================= *)
(** * The consent statements *)

(** C7, as the claim words it, fails: the name looked up is the
    argument after variable substitution, and a domain name can turn
    the line into another statement. After [a = b], the line
    [consent.request("data")] grants [dbtb] and records nothing for
    [data]. With [a] bound to [b] and the domain [data] denied,
    [consent.check("data")] reports that [dbtb] is granted. And
    [consent.check("input.ask(")] is executed as an input statement,
    which raises here, at the end of the input. *)
Lemma consent_statements_substitute_domain :
  let program := u "a = b" ++ [nl] ++ consent_request_line (u "data") in
  let s' := snd (run nfc_inert program fresh) in
  let denied :=
    ({| options := []; variables := [(u "a", u "b")];
        consent_status := [(u "data", false)]; output_buffer := [] |},
     empty_world) in
  (consent_status (fst s') = [(u "dbtb", true)]
   /\ get (consent_status (fst s')) (u "data") = None)
  /\ (get (consent_status (fst denied)) (u "data") = Some false
      /\ _execute_line nfc_inert (consent_check_line (u "data")) 1 denied
         = (Ok tt,
            printed nfc_inert (u "Checking consent for 'dbtb': Granted")
              denied))
  /\ fst (_execute_line nfc_inert (consent_check_line (u "input.ask("))
            1 fresh)
     = Raise EOFError.
Proof.
  intros program s' denied.
  split; [split|split; [split|]]; vm_compute; reflexivity.
Qed.

(** C7. For every domain name without an opening parenthesis or an
    [@] (either could turn the line into another statement), the line
    [consent.check("domain")] prints whether a name is granted or
    denied by looking it up in the consent map, an absent name counting
    as granted, so that on an empty map the message says Granted; the
    line [consent.request("domain")] sets that name to granted in the
    map, whatever was there, and prints so. The name looked up and set
    is the domain after variable substitution: the domain itself when
    no variable is bound, or when no bound variable's name occurs in
    the domain. *)
Theorem consent_check_and_request
    (NFC : ustring -> ustring) (domain : ustring) (n : nat) (s : State) :
  plain_domain domain = true ->
  let key := substituteVariables (variables (fst s)) domain in
  let granted := get_default (consent_status (fst s)) key true in
  _execute_line NFC (consent_check_line domain) n s
  = (Ok tt,
     printed NFC
       (u "Checking consent for '" ++ key ++ u "': " ++
        (if granted then u "Granted" else u "Denied")) s)
  /\ (get (consent_status (fst s)) key = None -> granted = true)
  /\ (forall b, get (consent_status (fst s)) key = Some b -> granted = b)
  /\ (consent_status (fst s) = [] -> granted = true)
  /\ (variables (fst s) = [] -> key = domain)
  /\ (forallb (fun kv => negb (contains (fst kv) domain))
        (variables (fst s)) = true ->
      key = domain)
  /\ (exists s',
        _execute_line NFC (consent_request_line domain) n s = (Ok tt, s')
        /\ get (consent_status (fst s')) key = Some true
        /\ variables (fst s') = variables (fst s)
        /\ output_buffer (fst s')
           = output_buffer (fst s)
             ++ [NFC (u "Requesting consent for '" ++ key ++
                      u "': Granted")]).
Proof.
  intros Hplain key granted.
  destruct (check_line_reaches_handler domain Hplain) as [Hc1 Hc2].
  destruct (request_line_reaches_handler domain Hplain)
    as [Hr1 [Hr2 Hr3]].
  assert (Hkc : extracted_arg (variables (fst s))
                  (consent_check_line domain) (u "consent.check") = key)
    by (rewrite consent_check_line_form; apply extracted_arg_quoted).
  assert (Hkr : extracted_arg (variables (fst s))
                  (consent_request_line domain) (u "consent.request")
                = key)
    by (rewrite consent_request_line_form; apply extracted_arg_quoted).
  split; [|split; [|split; [|split; [|split; [|split]]]]].
  - rewrite (execute_consent_check NFC _ n s Hc1 Hc2), Hkc; reflexivity.
  - unfold granted, get_default; now intros ->.
  - unfold granted, get_default; now intros b ->.
  - unfold granted, get_default; now intros ->.
  - unfold key; now intros ->.
  - unfold key; apply substitute_absent.
  - eexists; split;
      [apply (execute_consent_request NFC _ n s Hr1 Hr2 Hr3)|].
    rewrite Hkr; repeat split.
    simpl; apply get_set_same.
Qed.

Lemma consent_check_and_request_witness :
  _execute_line nfc_inert (consent_check_line (u "x")) 1 fresh
  = (Ok tt, printed nfc_inert (u "Checking consent for 'x': Granted") fresh)
  /\ fst (run nfc_inert (consent_check_line (u "x")) fresh)
     = Ok (Success [u "Checking consent for 'x': Granted"] []).
Proof.
  destruct (consent_check_and_request nfc_inert (u "x") 1 fresh eq_refl)
    as [Hexec _].
  split; [exact Hexec|vm_compute; reflexivity].
Defined.

(* ================================================================= *)
(** * Properties of the interactive session *)

Section SessionFacts.
Variable NFC : ustring -> ustring.
Variable lower : ustring -> ustring.

Lemma prompt_encodable : utf8_encodable REPL.PROMPT = true.
Proof. reflexivity. Qed.

(** One turn of the loop, by what [input()] meets. The statements after
    the [break] of the interrupt clause are not reached. *)
Lemma loop_body_turn (f : REPL.Frame) :
  let w := REPL.world f in
  let after bound count out :=
    {| REPL.self := REPL.self f; REPL.iteration_count := count;
       REPL.emoji_input := bound;
       REPL.world :=
         {| REPL.incoming := REPL.incoming w;
            REPL.calls := S (REPL.calls w);
            REPL.screen := REPL.screen w ++ out |} |} in
  REPL.loop_body NFC lower f
  = match REPL.incoming w (REPL.calls w) with
    | Typed r =>
        if REPL.quits lower r then
          (Ok REPL.Break,
           after (Some r) (REPL.iteration_count f + 1)
             [REPL.PROMPT; REPL.written NFC REPL.FAREWELL])
        else
          (Ok (match strip r with
               | [] => REPL.Continue
               | _ => REPL.Next
               end),
           after (Some r) (REPL.iteration_count f + 1) [REPL.PROMPT])
    | Raises EOFError =>
        (Ok REPL.Break,
         after (REPL.emoji_input f) (REPL.iteration_count f)
           [REPL.PROMPT; REPL.written NFC REPL.INPUT_ENDED])
    | Raises KeyboardInterrupt =>
        (Ok REPL.Break,
         after (REPL.emoji_input f) (REPL.iteration_count f)
           [REPL.PROMPT; REPL.written NFC REPL.INTERRUPTED_FAREWELL])
    | Raises (OtherException message) =>
        (Ok REPL.Next,
         after (REPL.emoji_input f) (REPL.iteration_count f)
           [REPL.PROMPT;
            REPL.written NFC (REPL.ERROR_PREFIX ++ message)])
    end.
Proof.
  destruct f as [s c e [ev p o]].
  unfold REPL.loop_body, REPL.try_except, REPL.then_,
    REPL.input_emoji_input, REPL.quits.
  rewrite prompt_encodable.
  cbn [REPL.world REPL.self REPL.iteration_count REPL.emoji_input
       REPL.incoming REPL.calls REPL.screen].
  destruct (ev p) as [r|[| |message]].
  - unfold REPL.increment_iteration_count, REPL.with_emoji_input.
    cbn [REPL.world REPL.self REPL.iteration_count REPL.emoji_input
         REPL.incoming REPL.calls REPL.screen].
    destruct (existsb (eqb (lower r)) [u "quit"; u "exit"; u "q"]).
    + unfold REPL.safe_print, REPL.break_.
      cbn [REPL.world REPL.self REPL.iteration_count REPL.emoji_input
           REPL.incoming REPL.calls REPL.screen].
      now rewrite <- app_assoc.
    + unfold REPL.pass; cbn beta iota; cbn [REPL.emoji_input].
      destruct (strip r); reflexivity.
  - cbn [List.find fst snd REPL.is_EOFError].
    unfold REPL.safe_print, REPL.break_.
    cbn [REPL.world REPL.self REPL.iteration_count REPL.emoji_input
         REPL.incoming REPL.calls REPL.screen].
    now rewrite <- app_assoc.
  - cbn [List.find fst snd REPL.is_EOFError REPL.is_KeyboardInterrupt].
    unfold REPL.safe_print, REPL.break_.
    cbn [REPL.world REPL.self REPL.iteration_count REPL.emoji_input
         REPL.incoming REPL.calls REPL.screen].
    now rewrite <- app_assoc.
  - cbn [List.find fst snd REPL.is_EOFError REPL.is_KeyboardInterrupt
         is_Exception exn_str].
    unfold REPL.safe_print.
    cbn [REPL.world REPL.self REPL.iteration_count REPL.emoji_input
         REPL.incoming REPL.calls REPL.screen].
    now rewrite <- app_assoc.
Qed.

(** Whenever the loop ends it returns, with the instance as it was and
    the transcript of its turns written. *)
Lemma while_loop_safe (turns : nat) :
  forall (f : REPL.Frame) (r : outcome unit) (f' : REPL.Frame),
    REPL.while_loop NFC lower turns f = Some (r, f') ->
    r = Ok tt
    /\ REPL.self f' = REPL.self f
    /\ REPL.screen (REPL.world f')
       = REPL.screen (REPL.world f)
         ++ REPL.transcript NFC lower (REPL.incoming (REPL.world f))
              (REPL.calls (REPL.world f)) turns (REPL.iteration_count f).
Proof.
  induction turns as [|turns IH]; intros f r f' H; [discriminate H|].
  cbn [REPL.while_loop REPL.transcript] in H |- *.
  destruct (REPL.iteration_count f <? 100).
  2:{ injection H as <- <-; rewrite app_nil_r; auto. }
  rewrite loop_body_turn in H.
  destruct f as [s c e [ev p o]];
    cbn [REPL.world REPL.self REPL.iteration_count REPL.emoji_input
         REPL.incoming REPL.calls REPL.screen] in H |- *.
  destruct (ev p) as [resp|[| |message]].
  - destruct (REPL.quits lower resp).
    + injection H as <- <-; auto.
    + assert (H' : REPL.while_loop NFC lower turns
                     {| REPL.self := s; REPL.iteration_count := c + 1;
                        REPL.emoji_input := Some resp;
                        REPL.world :=
                          {| REPL.incoming := ev; REPL.calls := S p;
                             REPL.screen := o ++ [REPL.PROMPT] |} |}
                   = Some (r, f'))
        by (destruct (strip resp); exact H).
      destruct (IH _ _ _ H') as (Hr & Hself & Hout).
      split; [exact Hr|split; [exact Hself|]].
      rewrite Hout; cbn [REPL.world REPL.iteration_count REPL.incoming
                         REPL.calls REPL.screen].
      now rewrite <- app_assoc.
  - injection H as <- <-; auto.
  - injection H as <- <-; auto.
  - destruct (IH _ _ _ H) as (Hr & Hself & Hout).
    split; [exact Hr|split; [exact Hself|]].
    rewrite Hout; cbn [REPL.world REPL.iteration_count REPL.incoming
                       REPL.calls REPL.screen].
    now rewrite <- app_assoc.
Qed.

(** The loop ends at an event that stops the session, if not before. *)
Lemma while_loop_stops (n : nat) :
  forall f : REPL.Frame,
    REPL.stops lower
      (REPL.incoming (REPL.world f) (REPL.calls (REPL.world f) + n))
    = true ->
    exists f', REPL.while_loop NFC lower (S n) f = Some (Ok tt, f').
Proof.
  induction n as [|n IH]; intros f H;
    cbn [REPL.while_loop];
    (destruct (REPL.iteration_count f <? 100);
     [|eexists; reflexivity]);
    rewrite loop_body_turn;
    destruct f as [s c e [ev p o]];
    cbn [REPL.world REPL.self REPL.iteration_count REPL.emoji_input
         REPL.incoming REPL.calls REPL.screen] in H |- *.
  - rewrite Nat.add_0_r in H.
    destruct (ev p) as [resp|[| |message]]; cbn [REPL.stops] in H;
      try (eexists; reflexivity); [|discriminate H].
    rewrite H; eexists; reflexivity.
  - rewrite Nat.add_succ_r in H.
    destruct (ev p) as [resp|[| |message]];
      try (eexists; reflexivity).
    + destruct (REPL.quits lower resp); [eexists; reflexivity|].
      destruct (strip resp); apply IH; exact H.
    + apply IH; exact H.
Qed.

(** The loop ends when a hundred lines have been read. *)
Lemma while_loop_limit (n : nat) :
  forall f : REPL.Frame,
    100 <= REPL.iteration_count f
           + REPL.lines_read (REPL.incoming (REPL.world f))
               (REPL.calls (REPL.world f)) n ->
    exists f', REPL.while_loop NFC lower (S n) f = Some (Ok tt, f').
Proof.
  induction n as [|n IH]; intros f H;
    cbn [REPL.while_loop];
    (destruct (REPL.iteration_count f <? 100) eqn:Hc;
     [|eexists; reflexivity]);
    apply Z.ltb_lt in Hc.
  - cbn [REPL.lines_read] in H; lia.
  - rewrite loop_body_turn;
      destruct f as [s c e [ev p o]];
      cbn [REPL.world REPL.self REPL.iteration_count REPL.emoji_input
           REPL.incoming REPL.calls REPL.screen REPL.lines_read]
        in H, Hc |- *.
    destruct (ev p) as [resp|[| |message]];
      try (eexists; reflexivity).
    + destruct (REPL.quits lower resp); [eexists; reflexivity|].
      destruct (strip resp); apply IH;
        cbn [REPL.world REPL.iteration_count REPL.incoming REPL.calls];
        lia.
    + apply IH;
        cbn [REPL.world REPL.iteration_count REPL.incoming REPL.calls];
        lia.
Qed.

(** The loop goes on as long as no event stops the session and fewer
    than a hundred lines have been read. *)
Lemma while_loop_goes_on (turns : nat) :
  forall f : REPL.Frame,
    (forall n,
        REPL.stops lower
          (REPL.incoming (REPL.world f) (REPL.calls (REPL.world f) + n))
        = false) ->
    (forall n,
        REPL.iteration_count f
        + REPL.lines_read (REPL.incoming (REPL.world f))
            (REPL.calls (REPL.world f)) n < 100) ->
    REPL.while_loop NFC lower turns f = None.
Proof.
  induction turns as [|turns IH]; intros f Hstop Hcount; [reflexivity|].
  cbn [REPL.while_loop].
  pose proof (Hcount 0%nat) as H0; cbn [REPL.lines_read] in H0.
  replace (REPL.iteration_count f <? 100) with true
    by (symmetry; apply Z.ltb_lt; lia).
  rewrite loop_body_turn.
  pose proof (Hstop 0%nat) as S0; rewrite Nat.add_0_r in S0.
  assert (Hstop' : forall n,
             REPL.stops lower
               (REPL.incoming (REPL.world f)
                  (S (REPL.calls (REPL.world f)) + n)) = false).
  { intros n; specialize (Hstop (S n)).
    now rewrite Nat.add_succ_r in Hstop. }
  pose proof (fun n => Hcount (S n)) as Hcount'.
  destruct f as [s c e [ev p o]];
    cbn [REPL.world REPL.self REPL.iteration_count REPL.emoji_input
         REPL.incoming REPL.calls REPL.screen REPL.lines_read]
      in S0, Hstop', Hcount' |- *.
  destruct (ev p) as [resp|[| |message]]; cbn [REPL.stops] in S0;
    try discriminate S0.
  - rewrite S0.
    destruct (strip resp); apply IH;
      cbn [REPL.world REPL.iteration_count REPL.incoming REPL.calls];
      try exact Hstop'; intros n; specialize (Hcount' n); lia.
  - apply IH;
      cbn [REPL.world REPL.iteration_count REPL.incoming REPL.calls];
      [exact Hstop'|exact Hcount'].
Qed.

Lemma print_banner_eq (f : REPL.Frame) :
  REPL.print_banner NFC f
  = (Ok REPL.Next,
     {| REPL.self := REPL.self f;
        REPL.iteration_count := REPL.iteration_count f;
        REPL.emoji_input := REPL.emoji_input f;
        REPL.world :=
          {| REPL.incoming := REPL.incoming (REPL.world f);
             REPL.calls := REPL.calls (REPL.world f);
             REPL.screen := REPL.screen (REPL.world f)
                            ++ map (REPL.written NFC) REPL.banner |} |}).
Proof.
  destruct f as [s c e [ev p o]].
  unfold REPL.print_banner, REPL.banner, REPL.then_, REPL.safe_print,
    REPL.pass; cbn.
  rewrite <- !app_assoc; reflexivity.
Qed.

Lemma lines_read_none (events : nat -> input_event) (n : nat) :
  forall start,
    (forall k, exists e, events k = Raises e) ->
    REPL.lines_read events start n = 0.
Proof.
  induction n as [|n IH]; intros start H; [reflexivity|].
  cbn [REPL.lines_read]; destruct (H start) as [e ->]; now apply IH.
Qed.

End SessionFacts.

(** X16. An interactive session never compiles anything: the statements
    that compile the line, print the code and record it in the history
    stand after the [break] of an [except] clause. Whenever [run]
    returns it returns normally, with the history of the instance as
    it was, having written the banner and then, turn by turn, the
    prompt followed by a farewell (on quit, exit or q in any case, at
    the end of the input, on an interrupt), by an error message (on
    another exception) or by nothing at all (on any other line, an
    emoji line included). It returns at the first event that stops the
    session, and when a hundred lines have been read. An exception of
    [input] other than these is not counted, so the limit of a hundred
    does not bound the loop: when no event stops the session and fewer
    than a hundred lines come in (an [input] that fails on every call),
    [run] never returns. *)
Theorem session_never_compiles
    (NFC lower : ustring -> ustring) (repl : REPL.EmojiSpiralLogicREPL)
    (w : REPL.Console) :
  (forall turns r f',
      REPL.run NFC lower turns repl w = Some (r, f') ->
      r = Ok tt
      /\ REPL.history (REPL.self f') = REPL.history repl
      /\ REPL.screen (REPL.world f')
         = REPL.screen w ++ map (REPL.written NFC) REPL.banner
           ++ REPL.transcript NFC lower (REPL.incoming w) (REPL.calls w)
                turns 0)
  /\ (forall n,
         REPL.stops lower (REPL.incoming w (REPL.calls w + n)) = true ->
         exists f', REPL.run NFC lower (S n) repl w = Some (Ok tt, f'))
  /\ (forall n,
         100 <= REPL.lines_read (REPL.incoming w) (REPL.calls w) n ->
         exists f', REPL.run NFC lower (S n) repl w = Some (Ok tt, f'))
  /\ ((forall n,
          REPL.stops lower (REPL.incoming w (REPL.calls w + n)) = false) ->
      (forall n,
          REPL.lines_read (REPL.incoming w) (REPL.calls w) n < 100) ->
      forall turns, REPL.run NFC lower turns repl w = None).
Proof.
  unfold REPL.run; rewrite print_banner_eq.
  cbn [REPL.world REPL.self REPL.iteration_count REPL.emoji_input
       REPL.incoming REPL.calls REPL.screen].
  split; [|split; [|split]].
  - intros turns r f' H.
    destruct (while_loop_safe NFC lower turns _ _ _ H)
      as (Hr & Hself & Hout).
    split; [exact Hr|split; [now rewrite Hself|]].
    rewrite Hout;
      cbn [REPL.world REPL.iteration_count REPL.incoming REPL.calls
           REPL.screen].
    now rewrite <- app_assoc.
  - intros n H; apply while_loop_stops; exact H.
  - intros n H; apply while_loop_limit;
      cbn [REPL.world REPL.iteration_count REPL.incoming REPL.calls];
      lia.
  - intros Hstop Hcount turns; apply while_loop_goes_on;
      cbn [REPL.world REPL.iteration_count REPL.incoming REPL.calls];
      [exact Hstop|intros n; specialize (Hcount n); lia].
Qed.

Lemma session_never_compiles_witness :
  let closed :=
    {| REPL.incoming :=
         fun _ => Raises (OtherException (u "I/O operation on closed file"));
       REPL.calls := 0; REPL.screen := [] |} in
  let typed :=
    {| REPL.incoming :=
         fun n =>
           match n with
           | O => Typed (FIRE ++ BRAIN ++ ZAP)
           | _ => Raises EOFError
           end;
       REPL.calls := 0; REPL.screen := [] |} in
  (forall turns,
      REPL.run nfc_inert REPL.lower_ascii turns REPL.new_repl closed = None)
  /\ exists f',
       REPL.run nfc_inert REPL.lower_ascii 2 REPL.new_repl typed
       = Some (Ok tt, f')
       /\ REPL.history (REPL.self f') = []
       /\ REPL.screen (REPL.world f')
          = map (REPL.written nfc_inert) REPL.banner
            ++ [REPL.PROMPT; REPL.PROMPT;
                REPL.written nfc_inert REPL.INPUT_ENDED].
Proof.
  intros closed typed; split.
  - destruct (session_never_compiles nfc_inert REPL.lower_ascii REPL.new_repl
                closed) as (_ & _ & _ & Hon).
    apply Hon.
    + intros n; reflexivity.
    + intros n; cbn [REPL.incoming REPL.calls closed].
      rewrite lines_read_none; [lia|].
      intros k; eexists; reflexivity.
  - destruct (session_never_compiles nfc_inert REPL.lower_ascii REPL.new_repl
                typed) as (Hsafe & Hstop & _ & _).
    destruct (Hstop 1%nat eq_refl) as [f' Hrun].
    destruct (Hsafe 2%nat (Ok tt) f' Hrun) as (_ & Hhist & Hout).
    exists f'; split; [exact Hrun|split; [exact Hhist|exact Hout]].
Defined.
